(** * Reddit collection engine: deduplicated multi-strategy collection and
      normalization ([etl_scripts/reddit_etl.py])

    A shallow embedding of the collector.  Conventions:

    - A Python [str] is a [string]; its characters are the code points
      0..255 (Latin-1), on which [str.strip], [str.lower] and [len] are
      spelled out below.
    - Reading an attribute of a remote object ([submission.title],
      [comment.body], ...) yields its value or, when the object has no such
      attribute, raises [AttributeError]: an attribute is an [attr A].
      (The client is the asynchronous one: an attribute read never goes to
      the network; only awaited calls do.)  Reading the same attribute
      twice gives the same outcome.
    - Only exceptions deriving from Python's [Exception] are modelled (they
      are what [except Exception] and the bare [except] of the source both
      catch).
    - [created_utc] is a whole number of epoch seconds; a naive [datetime]
      is the number of seconds of local wall-clock time since
      1970-01-01T00:00:00.  The host's zone is given by its offset east of
      UTC at each instant, [tz t], which need not be the same all year.
    - What the pipeline asks of its host (the sort and the dtype inference
      of the DataFrame library, the file system and the writers, the
      closing of the client) is taken as given: any sorting permutation,
      any inference, calls that return or raise.
    - [data.append(x)] on the list a strategy returns is rendered by the
      list of records the strategy emits, in emission order; the shared
      [processed_ids] set is threaded through explicitly.
    - Logging and [asyncio.sleep] have no effect on any value and are
      omitted, except where a log message reads an attribute (and may
      therefore raise). *)

From Stdlib Require Import ZArith Ascii String List Lia Permutation Sorted.
From Stdlib Require Import DecimalString.
From stdpp Require Import gmap strings list sorting.

Import ListNotations.
Set Warnings "-clear-no-such-hyp".
Local Open Scope string_scope.
Local Open Scope list_scope.
Local Open Scope Z_scope.

(** ** Exceptions *)

Inductive Exn : Type :=
| AttributeError
| TypeError
| KeyError
| OverflowError
| AssertionError
| RequestError    (* any failure of the remote API: rate limit, timeout, 5xx *)
| OSError.        (* any failure of the file system or of a writer *)

Inductive exc (A : Type) : Type :=
| Ok (a : A)
| Raise (e : Exn).
Arguments Ok {A} a.
Arguments Raise {A} e.

Definition exc_bind {A B} (c : exc A) (k : A -> exc B) : exc B :=
  match c with
  | Ok a => k a
  | Raise e => Raise e
  end.

Declare Scope exc_scope.
Delimit Scope exc_scope with exc.
Notation "x <- c ;;; k" := (exc_bind c (fun x => k))
  (at level 100, c at next level, right associativity) : exc_scope.
Notation "c ;;; k" := (exc_bind c (fun _ => k))
  (at level 100, right associativity) : exc_scope.
Local Open Scope exc_scope.

(** [try: c except Exception: h]. *)
Definition try_except {A} (c : exc A) (h : Exn -> exc A) : exc A :=
  match c with
  | Ok a => Ok a
  | Raise e => h e
  end.

(** An attribute of a Python object: present with a value, or absent. *)
Inductive attr (A : Type) : Type :=
| Val (a : A)
| Missing.
Arguments Val {A} a.
Arguments Missing {A}.

(** [o.a] *)
Definition read {A} (a : attr A) : exc A :=
  match a with
  | Val v => Ok v
  | Missing => Raise AttributeError
  end.

(** [hasattr(o, 'a')] *)
Definition hasattr {A} (a : attr A) : bool :=
  match a with
  | Val _ => true
  | Missing => false
  end.

Definition raises {A} (c : exc A) : Prop := exists e, c = Raise e.

(** ** Text *)

Module Text.

Definition code (c : ascii) : N := N_of_ascii c.

(** [str.isspace] on one character. *)
Definition isspace (c : ascii) : bool :=
  let n := code c in
  ((9 <=? n) && (n <=? 13) || (28 <=? n) && (n <=? 32)
   || (n =? 133) || (n =? 160))%N.

(** The character class [[A-Z]] of the sanity test. *)
Definition is_AZ (c : ascii) : bool :=
  let n := code c in ((65 <=? n) && (n <=? 90))%N.

(** Characters that [str.lower] changes: [A-Z] and the Latin-1 capitals. *)
Definition isupper (c : ascii) : bool :=
  let n := code c in
  ((65 <=? n) && (n <=? 90)
   || (192 <=? n) && (n <=? 222) && negb (n =? 215))%N.

Definition lower_char (c : ascii) : ascii :=
  if isupper c then ascii_of_N (code c + 32) else c.

Fixpoint lower (s : string) : string :=
  match s with
  | EmptyString => EmptyString
  | String c t => String (lower_char c) (lower t)
  end.

Fixpoint lstrip (s : string) : string :=
  match s with
  | EmptyString => EmptyString
  | String c t => if isspace c then lstrip t else s
  end.

Fixpoint rstrip (s : string) : string :=
  match s with
  | EmptyString => EmptyString
  | String c t =>
      match rstrip t with
      | EmptyString => if isspace c then EmptyString else String c EmptyString
      | t' => String c t'
      end
  end.

(** [s.strip()] *)
Definition strip (s : string) : string := rstrip (lstrip s).

(** [len(s)] *)
Definition len (s : string) : Z := Z.of_nat (String.length s).

Fixpoint forallb (p : ascii -> bool) (s : string) : bool :=
  match s with
  | EmptyString => true
  | String c t => p c && forallb p t
  end.

(** [re.search('[A-Z]', s)] finds nothing. *)
Definition no_AZ (s : string) : bool := forallb (fun c => negb (is_AZ c)) s.

(** [str(n)] for an integer. *)
Definition of_Z (n : Z) : string := NilZero.string_of_int (Z.to_int n).

(** ["%02d"], ["%04d"] for a non-negative field. *)
Fixpoint zfill (w : nat) (s : string) : string :=
  match w with
  | O => s
  | S w' => if (String.length s <=? w')%nat then zfill w' ("0" +:+ s) else s
  end.

End Text.

(** ** Naive local datetimes *)

Module Datetime.

(** [datetime.min] and [datetime.max], in seconds. *)
Definition MIN : Z := -62135596800.
Definition MAX : Z := 253402300799.

(** [datetime.fromtimestamp(t)], a naive datetime: the wall clock of the
    host's zone at the instant [t].  [tz t] is the offset of the zone at
    that instant, in seconds east of UTC; it changes with [t] where the
    zone has daylight saving time. *)
Definition fromtimestamp (tz : Z -> Z) (t : Z) : exc Z :=
  let dt := t + tz t in
  if (MIN <=? dt) && (dt <=? MAX) then Ok dt else Raise OverflowError.

(** [dt.timestamp()] of a naive datetime whose [fold] is 0, as it is for
    the result of an addition or a subtraction: an instant at which the
    wall clock of the host's zone shows [dt], when there is one.  This is
    the search of the standard library: [a] is the offset found at [dt]
    read as an instant, [b] the offset found a day before the first
    candidate (or at it, when it is no solution). *)
Definition timestamp (tz : Z -> Z) (dt : Z) : Z :=
  let local u := u + tz u in
  let a := local dt - dt in
  let u1 := dt - a in
  let t1 := local u1 in
  let b := if t1 =? dt then local (u1 - 86400) - (u1 - 86400) else t1 - u1 in
  if (t1 =? dt) && (a =? b) then u1
  else
    let u2 := dt - b in
    if local u2 =? dt then u2
    else if t1 =? dt then u1
    else Z.max u1 u2.

(** Proleptic Gregorian date of a day number counted from 1970-01-01. *)
Definition civil (days : Z) : Z * Z * Z :=
  let z := days + 719468 in
  let era := z / 146097 in
  let doe := z - era * 146097 in
  let yoe := (doe - doe / 1460 + doe / 36524 - doe / 146096) / 365 in
  let doy := doe - (365 * yoe + yoe / 4 - yoe / 100) in
  let mp := (5 * doy + 2) / 153 in
  let d := doy - (153 * mp + 2) / 5 + 1 in
  let m := if mp <? 10 then mp + 3 else mp - 9 in
  let y := yoe + era * 400 in
  (if m <=? 2 then y + 1 else y, m, d).

(** [dt.strftime('%Y-%m-%d')] *)
Definition strftime_date (dt : Z) : string :=
  let '(y, m, d) := civil (dt / 86400) in
  Text.zfill 4 (Text.of_Z y) +:+ "-" +:+ Text.zfill 2 (Text.of_Z m)
    +:+ "-" +:+ Text.zfill 2 (Text.of_Z d).

(** [dt.strftime('%H:%M:%S')] *)
Definition strftime_time (dt : Z) : string :=
  let s := dt mod 86400 in
  Text.zfill 2 (Text.of_Z (s / 3600)) +:+ ":"
    +:+ Text.zfill 2 (Text.of_Z (s mod 3600 / 60)) +:+ ":"
    +:+ Text.zfill 2 (Text.of_Z (s mod 60)).

End Datetime.


(** ** Remote objects *)

(** A reply as the client hands it over.  A [MoreComments] placeholder left
    in a partially expanded tree is an object without [body]. *)
Record Comment : Type := {
  c_id : attr string;
  c_body : attr string;
  c_author : attr (option (attr string));   (* [None], or a redditor and its [name] *)
  c_created_utc : attr Z;
  c_score : attr Z;
  c_replies : attr Z;                        (* [len(comment.replies)] *)
  c_permalink : attr string
}.

(** [submission.comments]: the outcome of the two awaited calls and the
    private list of what has been loaded so far. *)
Record CommentForest : Type := {
  cf_replace_more : exc unit;               (* [await comments.replace_more(limit=None)] *)
  cf_list : exc (list Comment);             (* [await comments.list()] *)
  cf__comments : attr (option (list Comment))   (* [comments._comments], possibly [None] *)
}.

Record Submission : Type := {
  s_id : attr string;
  s_title : attr string;
  s_is_self : attr bool;
  s_selftext : attr string;
  s_author : attr (option (attr string));
  s_created_utc : attr Z;
  s_score : attr Z;
  s_upvote_ratio : attr Z;                  (* the ratio, in hundredths *)
  s_num_comments : attr Z;
  s_url : attr string;
  s_permalink : attr string;
  s_link_flair_text : attr (option string);
  s_comments : attr (option CommentForest)
}.

(** A paginated listing: each step of the [async for] yields a submission or
    raises (a page could not be fetched), which ends the iteration. *)
Definition Listing : Type := list (exc Submission).

Record Subreddit : Type := {
  sub_new : Listing;
  sub_hot : Listing;
  sub_top : string -> Listing;              (* by [time_filter] *)
  sub_controversial : string -> Listing;
  sub_search : string -> string -> Listing  (* by query and [time_filter] *)
}.

(** ** Raw records *)

(** The dictionary built by the extractors, which is also a row of the raw
    DataFrame.  A cell of a DataFrame may be null, so the two columns that
    normalization tests for null are options here.  [title] is a key of
    posts only, the two [parent_submission_*] keys of comments only;
    [source] is set by the strategy after extraction. *)
Record RawRecord : Type := {
  r_id : string;
  r_type : string;
  r_complaint : option string;
  r_username : string;
  r_timestamp : Z;
  r_timestamp_dt : option Z;
  r_date : string;
  r_time : string;
  r_upvotes : Z;
  r_upvote_ratio : option Z;
  r_total_comments : Z;
  r_url : option string;
  r_permalink : option string;
  r_is_self_post : option bool;
  r_flair : option string;
  r_title : option string;
  r_parent_submission_id : option string;
  r_parent_submission_title : option string;
  r_source : option string
}.

(** [record['source'] = tag] *)
Definition set_source (tag : string) (r : RawRecord) : RawRecord :=
  {| r_id := r_id r; r_type := r_type r; r_complaint := r_complaint r;
     r_username := r_username r; r_timestamp := r_timestamp r;
     r_timestamp_dt := r_timestamp_dt r; r_date := r_date r;
     r_time := r_time r; r_upvotes := r_upvotes r;
     r_upvote_ratio := r_upvote_ratio r;
     r_total_comments := r_total_comments r; r_url := r_url r;
     r_permalink := r_permalink r; r_is_self_post := r_is_self_post r;
     r_flair := r_flair r; r_title := r_title r;
     r_parent_submission_id := r_parent_submission_id r;
     r_parent_submission_title := r_parent_submission_title r;
     r_source := Some tag |}.

Definition DELETED : string := "[deleted]".
Definition REMOVED : string := "[removed]".

(** ** RecordExtractor *)

(** [x.author.name if x.author else '[deleted]'] under [try: ... except: pass],
    starting from ['[deleted]']. *)
Definition author_name (a : attr (option (attr string))) : string :=
  match a with
  | Val (Some (Val n)) => n
  | _ => DELETED
  end.

Section Host.

(** Offset of the host's zone at an instant, in seconds east of UTC. *)
Variable tz : Z -> Z.

Definition submission_record (s : Submission) : exc (option RawRecord) :=
  t <- read (s_created_utc s) ;;;
  created_dt <- Datetime.fromtimestamp tz t ;;;
  is_self <- read (s_is_self s) ;;;
  selftext <- (if (is_self : bool) then read (s_selftext s) else Ok "") ;;;
  title <- read (s_title s) ;;;
  let full_text := title +:+ " " +:+ selftext in
  if Text.len (Text.strip full_text) <? 5 then Ok None
  else
    let username := author_name (s_author s) in
    id <- read (s_id s) ;;;
    timestamp <- read (s_created_utc s) ;;;
    upvotes <- read (s_score s) ;;;
    upvote_ratio <- read (s_upvote_ratio s) ;;;
    total_comments <- read (s_num_comments s) ;;;
    url <- read (s_url s) ;;;
    permalink <- read (s_permalink s) ;;;
    is_self_post <- read (s_is_self s) ;;;
    flair <- read (s_link_flair_text s) ;;;
    title' <- read (s_title s) ;;;
    Ok (Some {| r_id := id; r_type := "post"; r_complaint := Some full_text;
                r_username := username; r_timestamp := timestamp;
                r_timestamp_dt := Some created_dt;
                r_date := Datetime.strftime_date created_dt;
                r_time := Datetime.strftime_time created_dt;
                r_upvotes := upvotes; r_upvote_ratio := Some upvote_ratio;
                r_total_comments := total_comments; r_url := Some url;
                r_permalink := Some ("https://www.reddit.com" +:+ permalink);
                r_is_self_post := Some is_self_post; r_flair := flair;
                r_title := Some title';
                r_parent_submission_id := None;
                r_parent_submission_title := None;
                r_source := None |}).

(** [extract_submission_data]: the body above under [try], and the handler,
    whose log message reads [submission.id]. *)
Definition extract_submission_data (s : Submission) : exc (option RawRecord) :=
  try_except (submission_record s)
    (fun _ => read (s_id s) ;;; Ok None).

Definition comment_record (c : Comment) (parent : Submission)
  : exc (option RawRecord) :=
  if negb (hasattr (c_body c)) then Ok None
  else
    body <- read (c_body c) ;;;
    if (Text.len (Text.strip body) <? 5)
       || bool_decide (body = DELETED) || bool_decide (body = REMOVED)
    then Ok None
    else
      t <- read (c_created_utc c) ;;;
      created_dt <- Datetime.fromtimestamp tz t ;;;
      let username := author_name (c_author c) in
      id <- read (c_id c) ;;;
      complaint <- read (c_body c) ;;;
      timestamp <- read (c_created_utc c) ;;;
      upvotes <- read (c_score c) ;;;
      total_comments <- (if hasattr (c_replies c) then read (c_replies c) else Ok 0) ;;;
      permalink <- (if hasattr (c_permalink c)
                    then p <- read (c_permalink c) ;;;
                         Ok (Some ("https://www.reddit.com" +:+ p))
                    else Ok None) ;;;
      parent_id <- read (s_id parent) ;;;
      parent_title <- read (s_title parent) ;;;
      Ok (Some {| r_id := id; r_type := "comment"; r_complaint := Some complaint;
                  r_username := username; r_timestamp := timestamp;
                  r_timestamp_dt := Some created_dt;
                  r_date := Datetime.strftime_date created_dt;
                  r_time := Datetime.strftime_time created_dt;
                  r_upvotes := upvotes; r_upvote_ratio := None;
                  r_total_comments := total_comments; r_url := None;
                  r_permalink := permalink;
                  r_is_self_post := None; r_flair := None;
                  r_title := None;
                  r_parent_submission_id := Some parent_id;
                  r_parent_submission_title := Some parent_title;
                  r_source := None |}).

(** [extract_comment_data]: the handler's log message reads [comment.id]
    only when [hasattr(comment, 'id')]. *)
Definition extract_comment_data (c : Comment) (parent : Submission)
  : exc (option RawRecord) :=
  try_except (comment_record c parent)
    (fun _ => (if hasattr (c_id c) then read (c_id c) else Ok "unknown") ;;; Ok None).

(** ** ReplyHarvester *)

(** The [for comment in all_comments] loop of [process_comments]: the
    records appended to [comment_data], and how the loop ended. *)
Fixpoint extract_comments (s : Submission) (all_comments : list Comment)
  : list RawRecord * exc unit :=
  match all_comments with
  | [] => ([], Ok tt)
  | c :: rest =>
      match extract_comment_data c s with
      | Raise e => ([], Raise e)
      | Ok None => extract_comments s rest
      | Ok (Some extracted_data) =>
          match read (s_id s) with
          | Raise e => ([], Raise e)
          | Ok sid =>
              let '(more, st) := extract_comments s rest in
              (set_source ("comment_in_" +:+ sid) extracted_data :: more, st)
          end
      end
  end.

(** The body of the outer [try] of [process_comments]: what [comment_data]
    holds when the body is left, and whether it was left by an exception. *)
Definition process_comments_body (s : Submission) : list RawRecord * exc unit :=
  match s_comments s with
  | Missing | Val None =>
      (* the warning reads [submission.id]; then [return comment_data] *)
      ([], read (s_id s) ;;; Ok tt)
  | Val (Some comments) =>
      match (cf_replace_more comments ;;; cf_list comments) with
      | Ok all_comments => extract_comments s all_comments
      | Raise _ =>
          match read (s_id s) with          (* the warning of the inner handler *)
          | Raise e => ([], Raise e)
          | Ok _ =>
              match cf__comments comments with
              | Missing => ([], Ok tt)
              | Val None => ([], Raise TypeError)   (* [for comment in None] *)
              | Val (Some loaded) => extract_comments s loaded
              end
          end
      end
  end.

(** [process_comments]: the outer handler's warning reads [submission.id];
    [comment_data] is returned whichever way the body ended. *)
Definition process_comments (s : Submission) : exc (list RawRecord) :=
  let '(comment_data, st) := process_comments_body s in
  match st with
  | Ok _ => Ok comment_data
  | Raise _ => read (s_id s) ;;; Ok comment_data
  end.

(** ** CollectionStrategy *)

(** [for item in comment_data: if item['id'] not in processed_ids: ...] *)
Fixpoint add_comments (comment_data : list RawRecord) (processed_ids : gset string)
  : list RawRecord * gset string :=
  match comment_data with
  | [] => ([], processed_ids)
  | item :: rest =>
      if decide (r_id item ∈ processed_ids) then add_comments rest processed_ids
      else
        let '(more, ids) := add_comments rest ({[r_id item]} ∪ processed_ids) in
        (item :: more, ids)
  end.

(** What every strategy does with a submission that passed its time test,
    from [if submission.id in processed_ids] to the end of the loop body:
    the records emitted, the new index, and whether the body raised. *)
Definition collect_submission (tag : string) (s : Submission)
    (processed_ids : gset string) : list RawRecord * gset string * exc unit :=
  match read (s_id s) with
  | Raise e => ([], processed_ids, Raise e)
  | Ok sid =>
      if decide (sid ∈ processed_ids) then ([], processed_ids, Ok tt)
      else
        match extract_submission_data s with
        | Raise e => ([], processed_ids, Raise e)
        | Ok None => ([], processed_ids, Ok tt)
        | Ok (Some post_data) =>
            let post := set_source tag post_data in
            let ids1 := {[sid]} ∪ processed_ids in
            match process_comments s with
            | Raise e => ([post], ids1, Raise e)
            | Ok comment_data =>
                let '(kept, ids2) := add_comments comment_data ids1 in
                (post :: kept, ids2, Ok tt)
            end
        end
  end.

(** *** Sort-order enumeration *)

(** The [async for submission in sorting_iterator] loop of [collect_sorting]. *)
Fixpoint sorting_items (method tag : string) (since : Z) (l : Listing)
    (processed_ids : gset string) : list RawRecord * gset string * exc unit :=
  match l with
  | [] => ([], processed_ids, Ok tt)
  | Raise e :: _ => ([], processed_ids, Raise e)
  | Ok s :: rest =>
      match read (s_created_utc s) with
      | Raise e => ([], processed_ids, Raise e)
      | Ok created =>
          if created <? since then
            if bool_decide (method = "new") then ([], processed_ids, Ok tt)   (* break *)
            else sorting_items method tag since rest processed_ids           (* continue *)
          else
            let '(out, ids1, st) := collect_submission tag s processed_ids in
            match st with
            | Raise e => (out, ids1, Raise e)
            | Ok _ =>
                let '(more, ids2, st2) := sorting_items method tag since rest ids1 in
                (out ++ more, ids2, st2)
            end
      end
  end.

(** [getattr(subreddit, method)], called with [limit=None] and, when given,
    [time_filter]; the listings' default time filter is ['all']. *)
Definition getattr_listing (subreddit : Subreddit) (method : string)
  : exc (option string -> Listing) :=
  if bool_decide (method = "new") then Ok (fun _ => sub_new subreddit)
  else if bool_decide (method = "hot") then Ok (fun _ => sub_hot subreddit)
  else if bool_decide (method = "top")
       then Ok (fun tf => sub_top subreddit (default "all" tf))
  else if bool_decide (method = "controversial")
       then Ok (fun tf => sub_controversial subreddit (default "all" tf))
  else Raise AttributeError.

Definition time_filters (method : string) : list (option string) :=
  if bool_decide (method ∈ ["top"; "controversial"])
  then [Some "all"; Some "year"; Some "month"; Some "week"]
  else [None].

Definition source_name (method : string) (time_filter : option string) : string :=
  match time_filter with
  | None => method
  | Some f => method +:+ "_" +:+ f
  end.

(** The [for time_filter in time_filters] loop. *)
Fixpoint sorting_filters (method : string) (since : Z)
    (fetch : option string -> Listing) (filters : list (option string))
    (processed_ids : gset string) : list RawRecord * gset string * exc unit :=
  match filters with
  | [] => ([], processed_ids, Ok tt)
  | time_filter :: rest =>
      let '(out, ids1, st) :=
        sorting_items method (source_name method time_filter) since
          (fetch time_filter) processed_ids in
      match st with
      | Raise e => (out, ids1, Raise e)
      | Ok _ =>
          let '(more, ids2, st2) := sorting_filters method since fetch rest ids1 in
          (out ++ more, ids2, st2)
      end
  end.

(** [collect_sorting]: one [try] around the whole enumeration. *)
Definition collect_sorting (subreddit : Subreddit) (since : Z)
    (processed_ids : gset string) (method : string)
  : list RawRecord * gset string :=
  match getattr_listing subreddit method with
  | Raise _ => ([], processed_ids)
  | Ok fetch =>
      let '(data, ids, _) :=
        sorting_filters method since fetch (time_filters method) processed_ids in
      (data, ids)
  end.

(** *** Keyword and flair search *)

(** The [async for] loop of [collect_search_posts] and [collect_flair_posts]. *)
Fixpoint search_items (tag : string) (since : Z) (l : Listing)
    (processed_ids : gset string) : list RawRecord * gset string * exc unit :=
  match l with
  | [] => ([], processed_ids, Ok tt)
  | Raise e :: _ => ([], processed_ids, Raise e)
  | Ok s :: rest =>
      match read (s_created_utc s) with
      | Raise e => ([], processed_ids, Raise e)
      | Ok created =>
          if created <? since then search_items tag since rest processed_ids
          else
            let '(out, ids1, st) := collect_submission tag s processed_ids in
            match st with
            | Raise e => (out, ids1, Raise e)
            | Ok _ =>
                let '(more, ids2, st2) := search_items tag since rest ids1 in
                (out ++ more, ids2, st2)
            end
      end
  end.

Definition search_terms : list string :=
  [ "problem"; "issue"; "terrible"; "bad"; "great"; "awesome";
    "driver"; "delivery"; "order"; "customer service"; "refund";
    "cancel"; "late"; "missing"; "wrong"; "charge"; "tip";
    "food"; "cold"; "wait"; "app"; "error"; "crash"; "glitch";
    "overcharge"; "price"; "expensive"; "discount"; "promo";
    "experience"; "rating"; "dasher"; "courier"; "vehicle"; "bike"; "car";
    "delayed"; "damaged"; "quality"; "packaging"; "restaurant"; "merchant";
    "address"; "location"; "gps"; "map"; "directions"; "instructions";
    "communication"; "contact"; "support"; "chat"; "phone"; "call"; "text";
    "payment"; "card"; "wallet"; "subscription"; "plus"; "fees"; "tax";
    "receipt"; "estimate"; "actual"; "notification"; "tracking"; "map";
    "account"; "login"; "password"; "verification"; "bonus"; "reward";
    "satisfaction"; "disappointed"; "happy"; "frustrated"; "angry"; "love";
    "hate"; "never again"; "first time"; "loyal"; "regular"; "customer";
    "lost"; "stolen"; "compensation"; "resolution"; "solution"; "fixed";
    "fast"; "slow"; "quick"; "temperature"; "hot"; "warm"; "frozen";
    "delivered"; "received"; "picked up"; "preparing"; "ready" ].

(** The phrases are searched with their double quotes. *)
Definition quoted (s : string) : string :=
  String (ascii_of_N 34) s +:+ String (ascii_of_N 34) EmptyString.

Definition compound_terms : list string :=
  map quoted
    [ "customer service"; "delivery time"; "wrong order";
      "missing items"; "cold food"; "wrong address";
      "not delivered"; "damaged food"; "bad experience";
      "great service"; "friendly driver"; "app issues" ].

Definition flairs : list string :=
  [ "Complaint"; "Issue"; "Question"; "Discussion"; "Experience";
    "Feedback"; "Problem"; "Help"; "Rant"; "PSA"; "Warning"; "Tip" ].

(** The [for term in ...] loop shared by the two search strategies: each
    term has its own [try], whose handler only logs. *)
Fixpoint search_each (query tag : string -> string) (subreddit : Subreddit)
    (since : Z) (terms : list string) (processed_ids : gset string)
  : list RawRecord * gset string :=
  match terms with
  | [] => ([], processed_ids)
  | term :: rest =>
      let '(out, ids1, _) :=
        search_items (tag term) since (sub_search subreddit (query term) "year")
          processed_ids in
      let '(more, ids2) := search_each query tag subreddit since rest ids1 in
      (out ++ more, ids2)
  end.

Definition collect_search_posts (subreddit : Subreddit) (since : Z)
    (processed_ids : gset string) : list RawRecord * gset string :=
  search_each (fun term => term) (fun term => "search_" +:+ term)
    subreddit since (search_terms ++ compound_terms) processed_ids.

Definition collect_flair_posts (subreddit : Subreddit) (since : Z)
    (processed_ids : gset string) : list RawRecord * gset string :=
  search_each (fun flair => "flair:" +:+ flair) (fun flair => "flair_" +:+ flair)
    subreddit since flairs processed_ids.

(** *** Time-windowed pagination *)

Definition MONTH : Z := 30 * 24 * 60 * 60.

(** The [async for] loop of [collect_monthly_paginated]: the window is
    tested at both ends. *)
Fixpoint monthly_items (tag : string) (start month_end : Z) (l : Listing)
    (processed_ids : gset string) : list RawRecord * gset string * exc unit :=
  match l with
  | [] => ([], processed_ids, Ok tt)
  | Raise e :: _ => ([], processed_ids, Raise e)
  | Ok s :: rest =>
      match read (s_created_utc s) with
      | Raise e => ([], processed_ids, Raise e)
      | Ok created =>
          if (created <? start) || (month_end <? created)
          then monthly_items tag start month_end rest processed_ids
          else
            let '(out, ids1, st) := collect_submission tag s processed_ids in
            match st with
            | Raise e => (out, ids1, Raise e)
            | Ok _ =>
                let '(more, ids2, st2) :=
                  monthly_items tag start month_end rest ids1 in
                (out ++ more, ids2, st2)
            end
      end
  end.

(** The windows [(start_timestamp, month_end)] that
    [while start_timestamp < end_timestamp] goes through. *)
Fixpoint monthly_windows_fuel (fuel : nat) (start_timestamp end_timestamp : Z)
  : list (Z * Z) :=
  match fuel with
  | O => []
  | S fuel' =>
      if start_timestamp <? end_timestamp then
        let month_end := Z.min (start_timestamp + MONTH) end_timestamp in
        (start_timestamp, month_end)
          :: monthly_windows_fuel fuel' month_end end_timestamp
      else []
  end.

(** Every turn of the loop but the last moves [start_timestamp] forward by
    thirty days, so this many turns are enough (see [monthly_fuel_enough]). *)
Definition monthly_fuel (start_timestamp end_timestamp : Z) : nat :=
  Z.to_nat ((end_timestamp - start_timestamp) / MONTH + 1).

Definition monthly_windows (start_timestamp end_timestamp : Z) : list (Z * Z) :=
  monthly_windows_fuel (monthly_fuel start_timestamp end_timestamp)
    start_timestamp end_timestamp.

(** The [while] loop itself.  The two dates of the log line are computed
    outside the [try]; the search of one window is inside it. *)
Fixpoint monthly_loop (fuel : nat) (subreddit : Subreddit)
    (start_timestamp end_timestamp : Z) (processed_ids : gset string)
  : exc (list RawRecord * gset string) :=
  match fuel with
  | O => Ok ([], processed_ids)
  | S fuel' =>
      if start_timestamp <? end_timestamp then
        let month_end := Z.min (start_timestamp + MONTH) end_timestamp in
        start_dt <- Datetime.fromtimestamp tz start_timestamp ;;;
        end_dt <- Datetime.fromtimestamp tz month_end ;;;
        let month_start_date := Datetime.strftime_date start_dt in
        let query :=
          "timestamp:" +:+ Text.of_Z start_timestamp +:+ ".." +:+ Text.of_Z month_end in
        let '(out, ids1, _) :=
          monthly_items ("monthly_" +:+ month_start_date) start_timestamp month_end
            (sub_search subreddit query "all") processed_ids in
        rest <- monthly_loop fuel' subreddit month_end end_timestamp ids1 ;;;
        Ok (out ++ rest.1, rest.2)
      else Ok ([], processed_ids)
  end.

(** [collect_monthly_paginated]; [now] is the value of
    [int(datetime.now().timestamp())] on entry. *)
Definition collect_monthly_paginated (now : Z) (subreddit : Subreddit)
    (start_timestamp : Z) (processed_ids : gset string)
  : exc (list RawRecord * gset string) :=
  monthly_loop (monthly_fuel start_timestamp now) subreddit
    start_timestamp now processed_ids.

(** ** DataFrames *)

Record DataFrame : Type := {
  df_columns : list string;
  df_rows : list RawRecord;
  df_datetime64 : bool        (* [timestamp_dt] has a datetime64 dtype *)
}.

(** The dtype of a column is chosen by the library when the frame is built,
    from the values of the column, and kept by the operations on rows:
    whether a column of these datetimes is given a datetime64 dtype is
    taken as given. *)
Variable datetime64 : list (option Z) -> bool.

Definition common_keys : list string :=
  [ "id"; "type"; "complaint"; "username"; "timestamp"; "timestamp_dt";
    "date"; "time"; "upvotes"; "upvote_ratio"; "total_comments"; "url";
    "permalink"; "is_self_post"; "flair" ].

(** The keys of a record, in insertion order. *)
Definition keys (r : RawRecord) : list string :=
  common_keys
    ++ (if bool_decide (r_type r = "post") then ["title"]
        else ["parent_submission_id"; "parent_submission_title"])
    ++ (match r_source r with Some _ => ["source"] | None => [] end).

Definition add_columns (columns ks : list string) : list string :=
  columns ++ filter (fun k => k ∉ columns) ks.

(** [pd.DataFrame(data)]: the columns are the keys met, in order of first
    appearance; no record, no column. *)
Definition pd_DataFrame (data : list RawRecord) : DataFrame :=
  {| df_columns := foldl (fun cols r => add_columns cols (keys r)) [] data;
     df_rows := data;
     df_datetime64 := datetime64 (r_timestamp_dt <$> data) |}.

(** [df[c]] for each [c] of [cs]: [KeyError] when one is not a column. *)
Definition require (cs columns : list string) : exc unit :=
  if forallb (fun c => bool_decide (c ∈ columns)) cs then Ok tt else Raise KeyError.

(** [drop_duplicates(subset=['id'])], which keeps the first occurrence. *)
Fixpoint drop_duplicates (seen : gset string) (rows : list RawRecord)
  : list RawRecord :=
  match rows with
  | [] => []
  | r :: rest =>
      if decide (r_id r ∈ seen) then drop_duplicates seen rest
      else r :: drop_duplicates ({[r_id r]} ∪ seen) rest
  end.

(** The order [sort_values(by='timestamp_dt', ascending=False)] sorts by:
    later first, nulls last. *)
Definition newer_first (a b : RawRecord) : Prop :=
  match r_timestamp_dt a, r_timestamp_dt b with
  | Some x, Some y => y <= x
  | None, Some _ => False
  | _, None => True
  end.

(** [sort_values] uses the library's default algorithm, which is not
    stable: all that is known of it is that it sorts.  Rows with equal
    timestamps may come out in any order. *)
Record Sorter : Type := {
  sort_values : list RawRecord -> list RawRecord;
  sort_values_perm : forall rows, sort_values rows ≡ₚ rows;
  sort_values_sorted : forall rows, StronglySorted newer_first (sort_values rows)
}.

Variable sorter : Sorter.

(** ** CollectionOrchestrator *)

Definition process_dataframe (data : list RawRecord) : exc DataFrame :=
  let df := pd_DataFrame data in
  require ["id"] (df_columns df) ;;;
  let rows := drop_duplicates ∅ (df_rows df) in
  require ["timestamp_dt"] (df_columns df) ;;;
  let rows := sort_values sorter rows in
  (* the columns read by the summary that is logged *)
  require ["type"; "date"; "username"; "source"; "upvotes"; "total_comments"]
    (df_columns df) ;;;
  Ok {| df_columns := df_columns df; df_rows := rows;
        df_datetime64 := df_datetime64 df |}.

(** ** Normalization *)

Record NormalizedRecord : Type := {
  n_review : option string;
  n_review_datetime : option Z;
  n_upvote_count : Z;
  n_total_comments : Z;
  n_parent_submission_id : option string;
  n_parent_submission_title : option string;
  n_data_source : string;
  n_app_name : string
}.

Record NormalizedFrame : Type := {
  nf_columns : list string;
  nf_rows : list NormalizedRecord;
  nf_datetime64 : bool        (* [review_datetime] has a datetime64 dtype *)
}.

(** [dropna(subset=['complaint', 'timestamp_dt'])] keeps these rows. *)
Definition notnull (r : RawRecord) : bool :=
  bool_decide (is_Some (r_complaint r)) && bool_decide (is_Some (r_timestamp_dt r)).

Definition rename_column (c : string) : string :=
  if bool_decide (c = "complaint") then "review"
  else if bool_decide (c = "timestamp_dt") then "review_datetime"
  else if bool_decide (c = "upvotes") then "upvote_count"
  else c.

Definition dropped_columns : list string :=
  [ "id"; "date"; "type"; "time"; "timestamp"; "url";
    "permalink"; "is_self_post"; "source"; "upvote_ratio";
    "flair"; "username"; "title" ].

(** [df['complaint'] = df['complaint'].str.lower()], on one row. *)
Definition lower_complaint (r : RawRecord) : RawRecord :=
  {| r_id := r_id r; r_type := r_type r;
     r_complaint := Text.lower <$> r_complaint r;
     r_username := r_username r; r_timestamp := r_timestamp r;
     r_timestamp_dt := r_timestamp_dt r; r_date := r_date r;
     r_time := r_time r; r_upvotes := r_upvotes r;
     r_upvote_ratio := r_upvote_ratio r;
     r_total_comments := r_total_comments r; r_url := r_url r;
     r_permalink := r_permalink r; r_is_self_post := r_is_self_post r;
     r_flair := r_flair r; r_title := r_title r;
     r_parent_submission_id := r_parent_submission_id r;
     r_parent_submission_title := r_parent_submission_title r;
     r_source := r_source r |}.

(** The renaming, the two added columns and the removal of the
    source-internal columns, on one row. *)
Definition reshape (app_name : string) (r : RawRecord) : NormalizedRecord :=
  {| n_review := r_complaint r;
     n_review_datetime := r_timestamp_dt r;
     n_upvote_count := r_upvotes r;
     n_total_comments := r_total_comments r;
     n_parent_submission_id := r_parent_submission_id r;
     n_parent_submission_title := r_parent_submission_title r;
     n_data_source := "Reddit";
     n_app_name := app_name |}.

Definition normalize (app_name : string) (r : RawRecord) : NormalizedRecord :=
  reshape app_name (lower_complaint r).

Definition dropna (df : DataFrame) : DataFrame :=
  {| df_columns := df_columns df;
     df_rows := filter (fun r => notnull r) (df_rows df);
     df_datetime64 := df_datetime64 df |}.

Definition str_lower (df : DataFrame) : DataFrame :=
  {| df_columns := df_columns df; df_rows := lower_complaint <$> df_rows df;
     df_datetime64 := df_datetime64 df |}.

Definition renamed_columns (columns : list string) : list string :=
  add_columns (add_columns (rename_column <$> columns) ["data_source"]) ["app_name"].

(** [rename], the two assignments and [drop], which raises when one of the
    columns to drop is not there. *)
Definition rename_add_drop (app_name : string) (df : DataFrame)
  : exc NormalizedFrame :=
  let columns := renamed_columns (df_columns df) in
  require dropped_columns columns ;;;
  Ok {| nf_columns := filter (fun c => c ∉ dropped_columns) columns;
        nf_rows := reshape app_name <$> df_rows df;
        nf_datetime64 := df_datetime64 df |}.

(** [transform_data], as a function of the value of its argument. *)
Definition transform_data (df : DataFrame) (app_name : string)
  : exc NormalizedFrame :=
  require ["complaint"; "timestamp_dt"; "upvotes"; "total_comments"]
    (df_columns df) ;;;
  rename_add_drop app_name (str_lower (dropna df)).

(** *** The same statements on objects

    DataFrames are mutable objects and [transform_data] works in place on
    one of them.  A store maps addresses to frames; [df.copy()] and
    [dropna] allocate, the assignment to the column, [rename(inplace=True)]
    and [drop(inplace=True)] overwrite the frame they are called on. *)

Inductive Frame : Type :=
| RawFrame (df : DataFrame)
| NormFrame (df : NormalizedFrame).

Definition Store : Type := list Frame.

Definition alloc (h : Store) (f : Frame) : Store * nat := (h ++ [f], length h).

Definition transform_data_at (h : Store) (df : nat) (app_name : string)
  : Store * exc nat :=
  match h !! df with
  | Some (RawFrame d) =>
      let '(h, df_transformed) := alloc h (RawFrame d) in          (* df.copy() *)
      match require ["complaint"; "timestamp_dt"; "upvotes"; "total_comments"]
              (df_columns d) with
      | Raise e => (h, Raise e)
      | Ok _ =>
          let '(h, df_transformed) := alloc h (RawFrame (dropna d)) in
          let lowered := str_lower (dropna d) in
          let h := <[df_transformed := RawFrame lowered]> h in
          match rename_add_drop app_name lowered with
          | Raise e => (h, Raise e)      (* [drop] raised; the frame is garbage *)
          | Ok out => (<[df_transformed := NormFrame out]> h, Ok df_transformed)
          end
      end
  | _ => (h, Raise KeyError)     (* no raw frame there: no [complaint] column *)
  end.

(** ** Sanity tests *)

Definition assert (b : bool) : exc unit :=
  if b then Ok tt else Raise AssertionError.

Definition required_columns : list string :=
  [ "review"; "review_datetime"; "upvote_count"; "total_comments";
    "data_source"; "app_name" ].

Definition short_review (n : NormalizedRecord) : bool :=
  match n_review n with
  | Some t => Text.len t <? 5
  | None => false
  end.

Definition uppercase_review (n : NormalizedRecord) : bool :=
  match n_review n with
  | Some t => negb (Text.no_AZ t)
  | None => false
  end.

Definition isnull {A} (o : option A) : bool :=
  match o with
  | Some _ => false
  | None => true
  end.

Definition run_sanity_tests (df : NormalizedFrame) : exc unit :=
  require ["review"] (nf_columns df) ;;;
  assert (forallb (fun n => negb (isnull (n_review n))) (nf_rows df)) ;;;
  require ["review_datetime"] (nf_columns df) ;;;
  assert (forallb (fun n => negb (isnull (n_review_datetime n))) (nf_rows df)) ;;;
  assert (10 <? Z.of_nat (length (nf_rows df))) ;;;
  assert (forallb (fun c => bool_decide (c ∈ nf_columns df)) required_columns) ;;;
  assert (nf_datetime64 df) ;;;      (* [is_datetime64_any_dtype(df['review_datetime'])] *)
  require ["data_source"; "app_name"] (nf_columns df) ;;;    (* logged *)
  assert (forallb (fun n => negb (short_review n)) (nf_rows df)) ;;;
  assert (forallb (fun n => negb (uppercase_review n)) (nf_rows df)).

(** ** The run *)

(** *** Persistence

    What [save_raw_data] and [load_data] ask of the file system and of the
    writers of the library, and the closing of the client at the end of
    [main].  Whether such a call returns or raises is taken as given; the
    calls of the persistence layer that returned are recorded, in order. *)

Inductive Folder : Type :=
| RawFolder (app_path : string)          (* [data/<app_path>/raw_data] *)
| ProcessedFolder (app_path : string).   (* [data/<app_path>/processed_data] *)

Inductive Content : Type :=
| Raw (df : DataFrame)
| Processed (df : NormalizedFrame).

Inductive Call : Type :=
| mkdir (folder : Folder)                         (* [dir.mkdir(parents=True, exist_ok=True)] *)
| to_csv (folder : Folder) (content : Content)    (* [reddit.csv] *)
| to_excel (folder : Folder) (content : Content)  (* [reddit.xlsx] *)
| connect (folder : Folder)                       (* [sqlite3.connect] on [reddit.db] *)
| to_sql (folder : Folder) (content : Content)
| reddit_close.                                   (* [await reddit.close()] *)

Variable host : Call -> exc unit.

(** The calls made in order, up to the first that raises. *)
Fixpoint calls (cs : list Call) : list Call * exc unit :=
  match cs with
  | [] => ([], Ok tt)
  | c :: rest =>
      match host c with
      | Raise e => ([], Raise e)
      | Ok _ => let '(done, st) := calls rest in (c :: done, st)
      end
  end.

(** The three formats of one folder: the first two writes and the
    connection are outside any [try]; a failure of [to_sql] is logged. *)
Definition save (folder : Folder) (content : Content) : list Call * exc unit :=
  let '(done, st) :=
    calls [mkdir folder; to_csv folder content; to_excel folder content;
           connect folder] in
  match st with
  | Raise e => (done, Raise e)
  | Ok _ =>
      match host (to_sql folder content) with
      | Ok _ => (done ++ [to_sql folder content], Ok tt)
      | Raise _ => (done, Ok tt)
      end
  end.

Definition save_raw_data (df : DataFrame) (app_path : string)
  : list Call * exc unit :=
  save (RawFolder app_path) (Raw df).

Definition load_data (df : NormalizedFrame) (app_path : string)
  : list Call * exc unit :=
  save (ProcessedFolder app_path) (Processed df).

(** What the run has handed to persistence, and the calls of the
    persistence layer that have returned. *)
Record Persisted : Type := {
  raw_data : option DataFrame;
  processed_data : option NormalizedFrame;
  written : list Call
}.

Definition YEAR : Z := 365 * 24 * 60 * 60.

(** [int((datetime.now() - timedelta(days=365)).timestamp())]: 365 days
    are taken from the wall clock, and the result is read back as an
    instant.  The fraction of a second of the clock is left out. *)
Definition one_year_ago (now : Z) : exc Z :=
  local_now <- Datetime.fromtimestamp tz now ;;;
  (if local_now - YEAR <? Datetime.MIN then Raise OverflowError else Ok tt) ;;;
  Ok (Datetime.timestamp tz (local_now - YEAR)).

(** The seven passes of [main], in order, over one shared index, and their
    concatenation.  [now] is the clock at the start of [main]; [now'] is
    what [collect_monthly_paginated] computes for its [end_timestamp]. *)
Definition collect_all (now now' : Z) (subreddit : Subreddit)
  : exc (list RawRecord) :=
  since <- one_year_ago now ;;;
  Datetime.fromtimestamp tz since ;;;        (* [start_date], for the log *)
  let processed_ids : gset string := ∅ in
  monthly <- collect_monthly_paginated now' subreddit since processed_ids ;;;
  let '(monthly_data, processed_ids) := monthly in
  let '(new_data, processed_ids) :=
    collect_sorting subreddit since processed_ids "new" in
  let '(hot_data, processed_ids) :=
    collect_sorting subreddit since processed_ids "hot" in
  let '(top_data, processed_ids) :=
    collect_sorting subreddit since processed_ids "top" in
  let '(controversial_data, processed_ids) :=
    collect_sorting subreddit since processed_ids "controversial" in
  let '(search_data, processed_ids) :=
    collect_search_posts subreddit since processed_ids in
  let '(flair_data, processed_ids) :=
    collect_flair_posts subreddit since processed_ids in
  Ok (monthly_data ++ new_data ++ hot_data ++ top_data ++ controversial_data
        ++ search_data ++ flair_data).

(** [main], from the point where the subreddit has been obtained: the
    loading of the configuration and the creation of the client, which
    come first, are not part of it. *)
Definition main (now now' : Z) (app_name : string) (subreddit : Subreddit)
    (app_path : string) : Persisted * exc unit :=
  match (all_data <- collect_all now now' subreddit ;;; process_dataframe all_data) with
  | Raise e => ({| raw_data := None; processed_data := None; written := [] |}, Raise e)
  | Ok df =>
      let '(raw_calls, saved) := save_raw_data df app_path in
      match saved ;;; transform_data df app_name with
      | Raise e =>
          ({| raw_data := Some df; processed_data := None; written := raw_calls |},
           Raise e)
      | Ok df_transformed =>
          let '(processed_calls, loaded) := load_data df_transformed app_path in
          ({| raw_data := Some df; processed_data := Some df_transformed;
              written := raw_calls ++ processed_calls |},
           loaded ;;; run_sanity_tests df_transformed ;;; host reddit_close)
      end
  end.

End Host.

(** ** Auxiliary notions used in the statements *)

(** Occurrence of the space character. *)
Fixpoint has_space (s : string) : bool :=
  match s with
  | EmptyString => false
  | String c t => bool_decide (c = " "%char) || has_space t
  end.

(** The text the extractor tests and stores for a submission. *)
Definition full_text (s : Submission) : exc string :=
  is_self <- read (s_is_self s) ;;;
  selftext <- (if (is_self : bool) then read (s_selftext s) else Ok "") ;;;
  title <- read (s_title s) ;;;
  Ok (title +:+ " " +:+ selftext).

(** The three item loops differ only in what they decide from the creation
    time of a submission; this is their common shape, used to reason about
    them at once. *)
Inductive Verdict : Type := Take | Skip | Break.

Fixpoint items_loop (tz : Z -> Z) (verdict : Z -> Verdict) (tag : string)
    (l : Listing) (processed_ids : gset string)
  : list RawRecord * gset string * exc unit :=
  match l with
  | [] => ([], processed_ids, Ok tt)
  | Raise e :: _ => ([], processed_ids, Raise e)
  | Ok s :: rest =>
      match read (s_created_utc s) with
      | Raise e => ([], processed_ids, Raise e)
      | Ok created =>
          match verdict created with
          | Break => ([], processed_ids, Ok tt)
          | Skip => items_loop tz verdict tag rest processed_ids
          | Take =>
              let '(out, ids1, st) := collect_submission tz tag s processed_ids in
              match st with
              | Raise e => (out, ids1, Raise e)
              | Ok _ =>
                  let '(more, ids2, st2) := items_loop tz verdict tag rest ids1 in
                  (out ++ more, ids2, st2)
              end
          end
      end
  end.

Definition sorting_verdict (method : string) (since created : Z) : Verdict :=
  if created <? since then
    if bool_decide (method = "new") then Break else Skip
  else Take.

Definition search_verdict (since created : Z) : Verdict :=
  if created <? since then Skip else Take.

Definition monthly_verdict (start month_end created : Z) : Verdict :=
  if (created <? start) || (month_end <? created) then Skip else Take.

(** The records of [out] are new with respect to [ids], pairwise distinct,
    and [ids'] is [ids] with their identifiers added. *)
Definition fresh_from (ids : gset string) (out : list RawRecord)
    (ids' : gset string) : Prop :=
  NoDup (r_id <$> out)
  /\ (forall r, r ∈ out -> r_id r ∉ ids)
  /\ ids' = list_to_set (r_id <$> out) ∪ ids.

(** An accepted record: its text is at least five characters long once
    trimmed and is none of the two sentinels. *)
Definition text_ok (r : RawRecord) : Prop :=
  exists t, r_complaint r = Some t /\ 5 <= Text.len (Text.strip t)
            /\ t <> DELETED /\ t <> REMOVED.

(** *** A sorter

    Merge sort is one [Sorter]; it is the one used to run the model. *)

#[global] Instance newer_first_dec a b : Decision (newer_first a b).
Proof.
  unfold newer_first.
  destruct (r_timestamp_dt a), (r_timestamp_dt b); apply _.
Defined.

#[global] Instance newer_first_trans : Transitive newer_first.
Proof.
  intros a b c. unfold newer_first.
  destruct (r_timestamp_dt a), (r_timestamp_dt b), (r_timestamp_dt c);
    try tauto; lia.
Qed.

#[global] Instance newer_first_total : Total newer_first.
Proof.
  intros a b. unfold newer_first.
  destruct (r_timestamp_dt a), (r_timestamp_dt b); try tauto; lia.
Qed.

Definition merge_sorter : Sorter :=
  {| sort_values := merge_sort newer_first;
     sort_values_perm := merge_sort_Permutation newer_first;
     sort_values_sorted := StronglySorted_merge_sort newer_first |}.

(** *** Sample objects *)

Definition reply (id body : string) (created : Z) : Comment :=
  {| c_id := Val id; c_body := Val body;
     c_author := Val (Some (Val "bob")); c_created_utc := Val created;
     c_score := Val 3; c_replies := Val 0;
     c_permalink := Val ("/r/fooddelivery/comments/_/" +:+ id) |}.

(** A placeholder left in a tree that was not fully expanded. *)
Definition more_comments : Comment :=
  {| c_id := Val "more"; c_body := Missing; c_author := Missing;
     c_created_utc := Missing; c_score := Missing; c_replies := Missing;
     c_permalink := Missing |}.

Definition post (id title selftext : string) (created : Z)
    (comments : attr (option CommentForest)) : Submission :=
  {| s_id := Val id; s_title := Val title; s_is_self := Val true;
     s_selftext := Val selftext; s_author := Val (Some (Val "alice"));
     s_created_utc := Val created; s_score := Val 5;
     s_upvote_ratio := Val 97; s_num_comments := Val 2;
     s_url := Val ("https://www.reddit.com/r/fooddelivery/" +:+ id);
     s_permalink := Val ("/r/fooddelivery/comments/" +:+ id);
     s_link_flair_text := Val None; s_comments := comments |}.

(** A submission and a reply whose [id] cannot be read, otherwise in
    order. *)
Definition no_id : Submission :=
  {| s_id := Missing; s_title := Val "Cold food again"; s_is_self := Val true;
     s_selftext := Val "arrived cold"; s_author := Val None;
     s_created_utc := Val 1699990000; s_score := Val 1;
     s_upvote_ratio := Val 50; s_num_comments := Val 0;
     s_url := Val ""; s_permalink := Val ""; s_link_flair_text := Val None;
     s_comments := Missing |}.

Definition reply_without_id : Comment :=
  {| c_id := Missing; c_body := Val "never arrived";
     c_author := Val (Some (Val "bob")); c_created_utc := Val 1699990000;
     c_score := Val 3; c_replies := Val 0;
     c_permalink := Val "/r/fooddelivery/comments/_/_" |}.

(** A submission without [created_utc], otherwise in order. *)
Definition undated (id : string) : Submission :=
  {| s_id := Val id; s_title := Val "Cold food again"; s_is_self := Val true;
     s_selftext := Val "arrived cold"; s_author := Val None;
     s_created_utc := Missing; s_score := Val 1;
     s_upvote_ratio := Val 50; s_num_comments := Val 0;
     s_url := Val ""; s_permalink := Val ""; s_link_flair_text := Val None;
     s_comments := Missing |}.

Definition sample_now : Z := 1700000000.
Definition sample_since : Z := sample_now - 365 * 24 * 60 * 60.

Definition loaded_tree : CommentForest :=
  {| cf_replace_more := Ok tt;
     cf_list := Ok [ reply "c1" "Same here, an hour late" (sample_now - 3000);
                     reply "c2" "ok" (sample_now - 2000);
                     reply "c3" "[removed]" (sample_now - 1000) ];
     cf__comments := Val (Some [reply "c1" "Same here, an hour late" (sample_now - 3000)]) |}.

(** Expansion fails; one reply and one placeholder were loaded before. *)
Definition failing_tree : CommentForest :=
  {| cf_replace_more := Raise RequestError;
     cf_list := Raise RequestError;
     cf__comments := Val (Some [ reply "c7" "Refund took two weeks" (sample_now - 500);
                                 more_comments ]) |}.

Definition p1 : Submission :=
  post "p1" "Late order" "driver never showed" (sample_now - 40 * 86400)
    (Val (Some loaded_tree)).

Definition p2 : Submission :=
  post "p2" "Wrong address" "courier left it next door" (sample_now - 50 * 86400)
    (Val (Some failing_tree)).

Definition p3 : Submission :=
  post "p3" "Great service" "fast and still warm" (sample_now - 60 * 86400)
    (Val None).

Definition old_post : Submission :=
  post "p0" "Two years ago" "a very old complaint" (sample_now - 800 * 86400)
    (Val None).

Definition no_listing : Listing := [].

Definition sample_subreddit : Subreddit :=
  {| sub_new := [Ok p1; Ok p2; Ok old_post; Ok p3];
     sub_hot := [Ok p2; Ok old_post; Ok p3];
     sub_top := fun _ => [Ok p1];
     sub_controversial := fun _ => [Ok (undated "p9"); Ok p3];
     sub_search := fun _ _ => no_listing |}.

(** *** The body of the window loop, run over a given list of windows *)

Fixpoint monthly_over (tz : Z -> Z) (subreddit : Subreddit) (windows : list (Z * Z))
    (processed_ids : gset string) : exc (list RawRecord * gset string) :=
  match windows with
  | [] => Ok ([], processed_ids)
  | (start_timestamp, month_end) :: windows' =>
      start_dt <- Datetime.fromtimestamp tz start_timestamp ;;;
      end_dt <- Datetime.fromtimestamp tz month_end ;;;
      let query :=
        "timestamp:" +:+ Text.of_Z start_timestamp +:+ ".." +:+ Text.of_Z month_end in
      let '(out, ids1, _) :=
        monthly_items tz ("monthly_" +:+ Datetime.strftime_date start_dt)
          start_timestamp month_end (sub_search subreddit query "all")
          processed_ids in
      rest <- monthly_over tz subreddit windows' ids1 ;;;
      Ok (out ++ rest.1, rest.2)
  end.

(** What [comments._comments] holds when it can be iterated. *)
Definition loaded (comments : CommentForest) : list Comment :=
  match cf__comments comments with
  | Val (Some l) => l
  | _ => []
  end.

(** The replies of [s] extracted from [l], as [process_comments] tags them. *)
Definition harvested (tz : Z -> Z) (s : Submission) (l : list Comment)
  : list RawRecord :=
  (extract_comments tz s l).1.

(** The step [x] of a listing raises in the loop: the page cannot be
    fetched, or the creation time of the submission cannot be read, or the
    submission is taken and its [id] cannot be read. *)
Definition item_raises (verdict : Z -> Verdict) (x : exc Submission) : Prop :=
  match x with
  | Raise _ => True
  | Ok s =>
      match s_created_utc s with
      | Missing => True
      | Val t => verdict t = Take /\ s_id s = Missing
      end
  end.


(** The creation time of a record as the extractors store it: the local
    datetime of its epoch timestamp. *)
Definition dated (tz : Z -> Z) (r : RawRecord) : Prop :=
  r_timestamp_dt r = Some (r_timestamp r + tz (r_timestamp r)).

(** Most recently created first. *)
Definition created_later (a b : RawRecord) : Prop :=
  r_timestamp b <= r_timestamp a.

(** A row of the processed set with its text and its timestamp present
    and its text in lower case: none of [A-Z], and more generally no
    character that [str.lower] would change. *)
Definition present_and_lowercase (n : NormalizedRecord) : Prop :=
  exists t dt, n_review n = Some t /\ n_review_datetime n = Some dt
               /\ Text.no_AZ t = true
               /\ Text.forallb (fun c => negb (Text.isupper c)) t = true.

(** *** Shapes of an output *)

(** A record comes from a strategy: it has a source tag and is a post or a
    comment. *)
Definition tagged (r : RawRecord) : Prop :=
  is_Some (r_source r) /\ (r_type r = "post" \/ r_type r = "comment").

(** Every comment of the list comes after a post of the list to which it
    refers: by [parent_submission_id], by the copy of the title, and by its
    source tag. *)
Definition replies_follow_their_post (out : list RawRecord) : Prop :=
  forall i r, out !! i = Some r -> r_type r = "comment" ->
    exists j p, (j < i)%nat /\ out !! j = Some p /\ r_type p = "post"
                /\ r_parent_submission_id r = Some (r_id p)
                /\ r_parent_submission_title r = r_title p
                /\ r_source r = Some ("comment_in_" +:+ r_id p).

(** A non-empty output starts with a post. *)
Definition starts_with_post (out : list RawRecord) : Prop :=
  match out with
  | [] => True
  | r :: _ => r_type r = "post"
  end.

(** No post of the list was created before [cutoff]. *)
Definition posts_since (cutoff : Z) (out : list RawRecord) : Prop :=
  Forall (fun r => r_type r = "post" -> cutoff <= r_timestamp r) out.

(** The row of a frame with no null in the two columns that normalization
    tests. *)
Definition complete (r : RawRecord) : Prop := notnull r = true.

(** The columns that [transform_data] reads or drops. *)
Definition columns_needed : list string :=
  ["complaint"; "timestamp_dt"; "upvotes"; "total_comments"] ++ dropped_columns.

(** ** Configuration ([load_config] of [reddit_etl.py])

    The file is read and parsed by the YAML library; what [load_config]
    itself does is to replace, in the [reddit_api] section, the values of
    the form [${NAME}] by the value of the environment variable [NAME]. *)

(** A value of the configuration file: a string, or a value of another
    type, of which [load_config] only sees that it is not a string. *)
Inductive Yaml : Type :=
| YStr (s : string)
| YInt (n : Z)
| YNull.

(** A mapping of the file: a dictionary, in insertion order. *)
Definition Dict : Type := list (string * Yaml).

(** [d[key] = value] *)
Fixpoint dict_set (key : string) (value : Yaml) (d : Dict) : Dict :=
  match d with
  | [] => [(key, value)]
  | (k, x) :: rest =>
      if bool_decide (k = key) then (k, value) :: rest
      else (k, x) :: dict_set key value rest
  end.

(** [d.get(key)] *)
Fixpoint dict_get (key : string) (d : Dict) : option Yaml :=
  match d with
  | [] => None
  | (k, x) :: rest => if bool_decide (k = key) then Some x else dict_get key rest
  end.

(** [s.startswith(p)] *)
Definition startswith (p s : string) : bool := String.prefix p s.

(** [s.endswith(p)] *)
Fixpoint endswith (p s : string) : bool :=
  bool_decide (s = p)
  || match s with
     | EmptyString => false
     | String _ t => endswith p t
     end.

(** [s[2:-1]] *)
Definition slice_2_m1 (s : string) : string :=
  String.substring 2 (String.length s - 3) s.

Record Config : Type := {
  reddit_api : option Dict;               (* absent when the file has no such key *)
  apps : option (list (gmap string string))
}.

Inductive ConfigError : Type :=
| ValueError (env_var : string).          (* "Environment variable ... not found" *)

(** The [for key, value in reddit_config.items()] loop, which writes into
    the dictionary it iterates over. *)
Fixpoint resolve_items (environ : gmap string string)
    (items : list (string * Yaml)) (reddit_config : Dict) : ConfigError + Dict :=
  match items with
  | [] => inr reddit_config
  | (key, value) :: rest =>
      match value with
      | YStr s =>
          if startswith "${" s && endswith "}" s then
            let env_var := slice_2_m1 s in
            match environ !! env_var with
            | Some v => resolve_items environ rest (dict_set key (YStr v) reddit_config)
            | None => inl (ValueError env_var)
            end
          else resolve_items environ rest reddit_config
      | _ => resolve_items environ rest reddit_config
      end
  end.

(** [load_config], from the parsed file and [os.environ]. *)
Definition load_config (environ : gmap string string) (config : Config)
  : ConfigError + Config :=
  match reddit_api config with
  | None => inr config                     (* [config.get('reddit_api', {})] *)
  | Some reddit_config =>
      match resolve_items environ reddit_config reddit_config with
      | inl e => inl e
      | inr resolved => inr {| reddit_api := Some resolved; apps := apps config |}
      end
  end.

(** The variable a value refers to, if it is a reference. *)
Definition placeholder (value : Yaml) : option string :=
  match value with
  | YStr s => if startswith "${" s && endswith "}" s then Some (slice_2_m1 s) else None
  | _ => None
  end.

(** What a value of the section becomes. *)
Definition resolved_to (environ : gmap string string) (x y : string * Yaml) : Prop :=
  x.1 = y.1
  /\ match placeholder x.2 with
     | Some env_var => exists v, environ !! env_var = Some v /\ y.2 = YStr v
     | None => y.2 = x.2
     end.

(** ** The controller ([pipeline/run_pipeline.py])

    The three collectors and the combination step are taken as given: what
    the controller sees of them is whether they return or raise, and the
    boolean of the combination.  Their runs are recorded in a trace. *)

Module Pipeline.

Inductive Step : Type :=
| AppStore (app_name : string)
| PlayStore (app_name : string)
| Reddit (app_name : string)
| Combine (app_path : string).

Section Collectors.

Variable app_store_main : string -> string -> string -> exc unit.
Variable play_store_main : string -> string -> string -> exc unit.
Variable reddit_main : string -> string -> string -> exc unit.
Variable combine_main : string -> bool.

(** [app_config[key]] *)
Definition getitem (app_config : gmap string string) (key : string) : exc string :=
  match app_config !! key with
  | Some v => Ok v
  | None => Raise KeyError
  end.

(** The body of the [try] of [process_app]: the steps run, and how it
    ended. *)
Definition process_app_body (app_config : gmap string string)
    (app_name app_path : string) : list Step * exc unit :=
  match getitem app_config "app_store_id" with
  | Raise e => ([], Raise e)
  | Ok app_id =>
      match app_store_main app_name app_path app_id with
      | Raise e => ([AppStore app_name], Raise e)
      | Ok _ =>
          match getitem app_config "play_store_id" with
          | Raise e => ([AppStore app_name], Raise e)
          | Ok play_id =>
              match play_store_main play_id app_path app_name with
              | Raise e => ([AppStore app_name; PlayStore app_name], Raise e)
              | Ok _ =>
                  match getitem app_config "subreddit_name" with
                  | Raise e => ([AppStore app_name; PlayStore app_name], Raise e)
                  | Ok subreddit_name =>
                      match reddit_main app_name subreddit_name app_path with
                      | Raise e =>
                          ([AppStore app_name; PlayStore app_name; Reddit app_name],
                           Raise e)
                      | Ok _ =>
                          let combine_success := combine_main app_path in
                          ([AppStore app_name; PlayStore app_name; Reddit app_name;
                            Combine app_path], Ok tt)
                      end
                  end
              end
          end
      end
  end.

(** [process_app]: the two names are read before the [try]. *)
Definition process_app (app_config : gmap string string)
  : list Step * exc bool :=
  match getitem app_config "app_name" with
  | Raise e => ([], Raise e)
  | Ok app_name =>
      match getitem app_config "app_path" with
      | Raise e => ([], Raise e)
      | Ok app_path =>
          let '(steps, st) := process_app_body app_config app_name app_path in
          match st with
          | Ok _ => (steps, Ok true)
          | Raise _ => (steps, Ok false)
          end
      end
  end.

(** The [for app_config in apps] loop of [main]: the steps run, the
    results appended, and how the loop ended. *)
Fixpoint process_apps (apps : list (gmap string string))
  : list Step * list (string * bool) * exc unit :=
  match apps with
  | [] => ([], [], Ok tt)
  | app_config :: rest =>
      let '(steps, r) := process_app app_config in
      match r with
      | Raise e => (steps, [], Raise e)
      | Ok result =>
          match getitem app_config "app_name" with
          | Raise e => (steps, [], Raise e)
          | Ok app_name =>
              let '(steps', results, st) := process_apps rest in
              (steps ++ steps', (app_name, result) :: results, st)
          end
      end
  end.

End Collectors.

End Pipeline.

(** An entry of [apps] that has the two names [process_app] reads before
    its [try]. *)
Definition named (app_config : gmap string string) : Prop :=
  is_Some (app_config !! "app_name") /\ is_Some (app_config !! "app_path").

(** A value of the section that is not a reference, or whose variable is
    set. *)
Definition resolvable (environ : gmap string string) (x : string * Yaml) : Prop :=
  match placeholder x.2 with
  | Some env_var => is_Some (environ !! env_var)
  | None => True
  end.

(** Sample zones: one without daylight saving time, and the Eastern zone
    of the United States in 2022 and 2023 (five hours behind UTC, four
    from the second Sunday of March to the first Sunday of November). *)
Definition utc : Z -> Z := fun _ => 0.

Definition eastern : Z -> Z := fun t =>
  if ((1647154800 <=? t) && (t <? 1667714400))
     || ((1678604400 <=? t) && (t <? 1699164000))
  then -14400 else -18000.

(** Sample hosts.  A library that stores datetimes in nanoseconds gives a
    column a datetime64 dtype when it holds a datetime and can represent
    all of them; a file system on which every call returns, and one on
    which the spreadsheets cannot be written. *)
Definition datetime64_ns (column : list (option Z)) : bool :=
  existsb (fun x => bool_decide (is_Some x)) column
  && forallb (fun x => match x with
                       | Some dt => (-9223372036 <=? dt) && (dt <=? 9223372036)
                       | None => true
                       end) column.

Definition returning : Call -> exc unit := fun _ => Ok tt.

Definition no_spreadsheet : Call -> exc unit := fun call =>
  match call with
  | to_excel _ _ => Raise OSError
  | _ => Ok tt
  end.

(** The wall clock of the zone keeps the order of the creation times of
    the rows: of two rows, the one created later has the later local
    datetime. *)
Definition local_time_keeps_order (tz : Z -> Z) (rows : list RawRecord) : Prop :=
  forall a b, a ∈ rows -> b ∈ rows -> r_timestamp a < r_timestamp b ->
    r_timestamp a + tz (r_timestamp a) < r_timestamp b + tz (r_timestamp b).

(** Two submissions of the night of 5 November 2023, when the clocks of
    the Eastern zone went from 02:00 back to 01:00 (at 06:00 UTC): one
    made at 01:30 before the change, one at 01:10 after it.  The run is
    made the same day at 11:00. *)
Definition fall_back : Z := 1699164000.

Definition before_fall_back : Submission :=
  post "q1" "Order missing" "nobody picked up the phone" (fall_back - 1800)
    (Val None).

Definition after_fall_back : Submission :=
  post "q2" "Refund denied" "support closed my ticket" (fall_back + 600)
    (Val None).

Definition fall_back_now : Z := fall_back + 36000.

Definition fall_back_subreddit : Subreddit :=
  {| sub_new := [Ok after_fall_back; Ok before_fall_back];
     sub_hot := []; sub_top := fun _ => []; sub_controversial := fun _ => [];
     sub_search := fun _ _ => [] |}.

(** The calls made for one folder that are outside any [try], and all the
    calls made for it. *)
Definition unguarded (folder : Folder) (content : Content) : list Call :=
  [mkdir folder; to_csv folder content; to_excel folder content; connect folder].

Definition files (folder : Folder) (content : Content) : list Call :=
  unguarded folder content ++ [to_sql folder content].

(** Sample configuration. *)
Definition sample_environ : gmap string string :=
  {[ "REDDIT_CLIENT_ID" := "abc123"; "REDDIT_CLIENT_SECRET" := "s3cret" ]}.

Definition sample_reddit_api : Dict :=
  [ ("client_id", YStr "${REDDIT_CLIENT_ID}");
    ("client_secret", YStr "${REDDIT_CLIENT_SECRET}");
    ("user_agent", YStr "review-etl");
    ("timeout", YInt 30) ].

Definition doordash : gmap string string :=
  {[ "app_name" := "DoorDash"; "app_path" := "doordash";
     "app_store_id" := "719972451"; "play_store_id" := "com.dd.doordash";
     "subreddit_name" := "doordash" ]}.

Definition grubhub : gmap string string :=
  {[ "app_name" := "GrubHub"; "app_path" := "grubhub";
     "app_store_id" := "302920553"; "play_store_id" := "com.grubhub.android" ]}.

Definition unnamed : gmap string string :=
  {[ "app_path" := "ubereats"; "app_store_id" := "1058959277" ]}.

(** Collectors that return, and one that fails for one application. *)
Definition returns : string -> string -> string -> exc unit := fun _ _ _ => Ok tt.

Definition fails_for (name : string) : string -> string -> string -> exc unit :=
  fun _ _ app_name => if bool_decide (app_name = name) then Raise RequestError else Ok tt.

(** * Properties *)

(** ** Text *)

Lemma lower_char_not_upper c : Text.isupper (Text.lower_char c) = false.
Proof. destruct c as [[] [] [] [] [] [] [] []]; reflexivity. Qed.

Lemma not_upper_not_AZ c : Text.isupper c = false -> Text.is_AZ c = false.
Proof.
  unfold Text.isupper, Text.is_AZ. intros H.
  apply orb_false_iff in H. tauto.
Qed.

Lemma lower_no_upper s :
  Text.forallb (fun c => negb (Text.isupper c)) (Text.lower s) = true.
Proof.
  induction s as [|c s IH]; simpl; [reflexivity|].
  rewrite lower_char_not_upper, IH. reflexivity.
Qed.

Lemma lower_no_AZ s : Text.no_AZ (Text.lower s) = true.
Proof.
  unfold Text.no_AZ. induction s as [|c s IH]; simpl; [reflexivity|].
  rewrite (not_upper_not_AZ _ (lower_char_not_upper c)), IH. reflexivity.
Qed.

Lemma lower_length s : String.length (Text.lower s) = String.length s.
Proof. induction s; simpl; congruence. Qed.

Lemma has_space_join a b : has_space (a +:+ " " +:+ b) = true.
Proof.
  induction a as [|c a IH]; simpl; [reflexivity|].
  rewrite IH. apply orb_true_r.
Qed.

Lemma join_not_sentinel a b :
  a +:+ " " +:+ b <> DELETED /\ a +:+ " " +:+ b <> REMOVED.
Proof.
  split; intros H; pose proof (has_space_join a b) as Hs;
    rewrite H in Hs; discriminate Hs.
Qed.

(** ** Extraction *)

(** Case analysis on the head of a chain of binds. *)
Ltac exc_step :=
  match goal with
  | H : context [exc_bind (read ?a) _] |- _ => destruct a; simpl in H
  | H : context [exc_bind (Datetime.fromtimestamp ?tz ?t) _] |- _ =>
      destruct (Datetime.fromtimestamp tz t); simpl in H
  | H : context [exc_bind (if ?b then _ else _) _] |- _ => destruct b; simpl in H
  | H : context [if ?b then _ else _] |- _ => destruct b eqn:?; simpl in H
  end.

Lemma submission_record_Some tz s r :
  submission_record tz s = Ok (Some r) ->
  exists t i, full_text s = Ok t /\ r_complaint r = Some t
              /\ 5 <= Text.len (Text.strip t)
              /\ s_id s = Val i /\ r_id r = i /\ r_type r = "post"
              /\ exists dt, r_timestamp_dt r = Some dt.
Proof.
  unfold submission_record, full_text. intros H.
  repeat exc_step; try discriminate; injection H as <-; simpl;
    do 2 eexists; (repeat split; [..|eexists; reflexivity]);
    try reflexivity; lia.
Qed.

Lemma extract_submission_data_Some tz s r :
  extract_submission_data tz s = Ok (Some r) ->
  submission_record tz s = Ok (Some r).
Proof.
  unfold extract_submission_data, try_except.
  destruct (submission_record tz s) as [o|e]; [trivial|].
  destruct (s_id s); simpl; discriminate.
Qed.

Lemma comment_record_Some tz c p r :
  comment_record tz c p = Ok (Some r) ->
  exists b i, c_body c = Val b /\ r_complaint r = Some b
              /\ 5 <= Text.len (Text.strip b)
              /\ b <> DELETED /\ b <> REMOVED
              /\ c_id c = Val i /\ r_id r = i /\ r_type r = "comment"
              /\ exists dt, r_timestamp_dt r = Some dt.
Proof.
  unfold comment_record. intros H.
  destruct (c_body c) as [b|]; simpl in H; [|discriminate].
  destruct (Text.len (Text.strip b) <? 5) eqn:Hlen; simpl in H; [discriminate|].
  destruct (bool_decide (b = DELETED)) eqn:Hd; simpl in H; [discriminate|].
  destruct (bool_decide (b = REMOVED)) eqn:Hr; simpl in H; [discriminate|].
  apply bool_decide_eq_false in Hd, Hr. apply Z.ltb_ge in Hlen.
  destruct (c_created_utc c) as [t|]; simpl in H; [|discriminate].
  destruct (Datetime.fromtimestamp tz t) as [dt|]; simpl in H; [|discriminate].
  destruct (c_id c) as [i|]; simpl in H; [|discriminate].
  destruct (c_score c); simpl in H; [|discriminate].
  destruct (c_replies c); simpl in H;
    destruct (c_permalink c); simpl in H;
    destruct (s_id p); simpl in H; try discriminate;
    destruct (s_title p); simpl in H; try discriminate;
    injection H as <-; simpl; exists b, i; eauto 12.
Qed.

Lemma extract_comment_data_Some tz c p r :
  extract_comment_data tz c p = Ok (Some r) ->
  comment_record tz c p = Ok (Some r).
Proof.
  unfold extract_comment_data, try_except.
  destruct (comment_record tz c p) as [o|e]; [trivial|].
  destruct (c_id c); simpl; discriminate.
Qed.

(** The comment extractor returns, whatever it is given. *)
Lemma extract_comment_data_total tz c p :
  exists o, extract_comment_data tz c p = Ok o.
Proof.
  unfold extract_comment_data, try_except.
  destruct (comment_record tz c p) as [o|e]; [eauto|].
  destruct (c_id c); simpl; eauto.
Qed.

(** The submission extractor returns as soon as [submission.id] can be read. *)
Lemma extract_submission_data_total tz s i :
  s_id s = Val i -> exists o, extract_submission_data tz s = Ok o.
Proof.
  intros Hid. unfold extract_submission_data, try_except.
  destruct (submission_record tz s) as [o|e]; [eauto|].
  rewrite Hid. simpl. eauto.
Qed.

(** An internal failure and a rejection give the same value. *)
Lemma extract_submission_data_failure tz s i e :
  s_id s = Val i -> submission_record tz s = Raise e ->
  extract_submission_data tz s = Ok None.
Proof.
  intros Hid He. unfold extract_submission_data. rewrite He. simpl.
  rewrite Hid. reflexivity.
Qed.


Lemma submission_record_short tz s t :
  full_text s = Ok t -> Text.len (Text.strip t) < 5 ->
  submission_record tz s = Ok None \/ exists e, submission_record tz s = Raise e.
Proof.
  unfold full_text, submission_record. intros Ht Hlen.
  destruct (s_created_utc s) as [u|]; simpl; [|eauto].
  destruct (Datetime.fromtimestamp tz u) as [dt|]; simpl; [|eauto].
  destruct (s_is_self s) as [b|]; simpl in *; [|discriminate].
  destruct (if b then read (s_selftext s) else Ok "") as [x|]; simpl in *;
    [|discriminate].
  destruct (s_title s) as [ti|]; simpl in *; [|discriminate].
  injection Ht as <-. apply Z.ltb_lt in Hlen. rewrite Hlen. auto.
Qed.

Lemma extract_submission_data_short tz s i t :
  s_id s = Val i -> full_text s = Ok t -> Text.len (Text.strip t) < 5 ->
  extract_submission_data tz s = Ok None.
Proof.
  intros Hid Ht Hlen.
  destruct (submission_record_short tz s t Ht Hlen) as [H|[e H]].
  - unfold extract_submission_data. rewrite H. reflexivity.
  - eauto using extract_submission_data_failure.
Qed.

Lemma extract_comment_data_reject tz c p b :
  c_body c = Val b ->
  Text.len (Text.strip b) < 5 \/ b = DELETED \/ b = REMOVED ->
  extract_comment_data tz c p = Ok None.
Proof.
  intros Hb Hrej.
  assert (comment_record tz c p = Ok None) as H.
  { unfold comment_record. rewrite Hb. simpl.
    destruct Hrej as [Hlen|[->| ->]].
    - apply Z.ltb_lt in Hlen. rewrite Hlen. reflexivity.
    - rewrite bool_decide_eq_true_2 by reflexivity.
      rewrite orb_true_r. reflexivity.
    - rewrite (bool_decide_eq_true_2 (REMOVED = REMOVED)) by reflexivity.
      rewrite orb_true_r. reflexivity. }
  unfold extract_comment_data. rewrite H. reflexivity.
Qed.

Lemma extract_comment_data_no_body tz c p :
  c_body c = Missing -> extract_comment_data tz c p = Ok None.
Proof.
  intros Hb. unfold extract_comment_data, comment_record. rewrite Hb.
  reflexivity.
Qed.

(** ** The item loops *)

Lemma sorting_items_loop tz method tag since l ids :
  sorting_items tz method tag since l ids
  = items_loop tz (sorting_verdict method since) tag l ids.
Proof.
  revert ids. induction l as [|[s|e] l IH]; intros ids; simpl; try reflexivity.
  destruct (read (s_created_utc s)) as [created|]; [|reflexivity].
  unfold sorting_verdict at 1.
  destruct (created <? since); [destruct (bool_decide (method = "new"))|];
    rewrite ?IH; try reflexivity.
  destruct (collect_submission tz tag s ids) as [[out ids1] [[]|e]];
    rewrite ?IH; reflexivity.
Qed.

Lemma search_items_loop tz tag since l ids :
  search_items tz tag since l ids = items_loop tz (search_verdict since) tag l ids.
Proof.
  revert ids. induction l as [|[s|e] l IH]; intros ids; simpl; try reflexivity.
  destruct (read (s_created_utc s)) as [created|]; [|reflexivity].
  unfold search_verdict at 1.
  destruct (created <? since); rewrite ?IH; try reflexivity.
  destruct (collect_submission tz tag s ids) as [[out ids1] [[]|e]];
    rewrite ?IH; reflexivity.
Qed.

Lemma monthly_items_loop tz tag start month_end l ids :
  monthly_items tz tag start month_end l ids
  = items_loop tz (monthly_verdict start month_end) tag l ids.
Proof.
  revert ids. induction l as [|[s|e] l IH]; intros ids; simpl; try reflexivity.
  destruct (read (s_created_utc s)) as [created|]; [|reflexivity].
  unfold monthly_verdict at 1.
  destruct ((created <? start) || (month_end <? created)); rewrite ?IH;
    try reflexivity.
  destruct (collect_submission tz tag s ids) as [[out ids1] [[]|e]];
    rewrite ?IH; reflexivity.
Qed.

(** ** What the strategies emit *)

Section Emitted.

Variable tz : Z -> Z.
Variable P : RawRecord -> Prop.
Hypothesis P_source : forall tag r, P r -> P (set_source tag r).
Hypothesis P_post : forall s r, extract_submission_data tz s = Ok (Some r) -> P r.
Hypothesis P_comment :
  forall c p r, extract_comment_data tz c p = Ok (Some r) -> P r.

Lemma extract_comments_Forall s l : Forall P (extract_comments tz s l).1.
Proof.
  induction l as [|c l IH]; simpl; [constructor|].
  destruct (extract_comment_data tz c s) as [[r|]|e] eqn:Hc; simpl;
    [|assumption|constructor].
  destruct (read (s_id s)); simpl; [|constructor].
  destruct (extract_comments tz s l) as [more st]. simpl in *.
  constructor; eauto.
Qed.

Lemma process_comments_Forall s l : process_comments tz s = Ok l -> Forall P l.
Proof.
  unfold process_comments.
  assert (Forall P (process_comments_body tz s).1) as H.
  { unfold process_comments_body.
    destruct (s_comments s) as [[f|]|]; simpl; try constructor.
    destruct (cf_replace_more f ;;; cf_list f).
    - apply extract_comments_Forall.
    - destruct (read (s_id s)); simpl; [|constructor].
      destruct (cf__comments f) as [[loaded|]|]; simpl; try constructor.
      apply extract_comments_Forall. }
  destruct (process_comments_body tz s) as [data [[]|e]]; simpl in *.
  - intros [= <-]. assumption.
  - destruct (read (s_id s)); simpl; [|discriminate].
    intros [= <-]. assumption.
Qed.

Lemma add_comments_Forall l ids : Forall P l -> Forall P (add_comments l ids).1.
Proof.
  intros H. revert ids. induction H as [|r l Hr Hl IH]; intros ids; simpl;
    [constructor|].
  destruct (decide (r_id r ∈ ids)); [apply IH|].
  specialize (IH ({[r_id r]} ∪ ids)).
  destruct (add_comments l ({[r_id r]} ∪ ids)) as [more ids']. simpl in *.
  constructor; assumption.
Qed.

Lemma collect_submission_Forall tag s ids :
  Forall P (collect_submission tz tag s ids).1.1.
Proof.
  unfold collect_submission.
  destruct (read (s_id s)) as [sid|]; simpl; [|constructor].
  destruct (decide (sid ∈ ids)); simpl; [constructor|].
  destruct (extract_submission_data tz s) as [[post|]|] eqn:Hp; simpl;
    try constructor.
  destruct (process_comments tz s) as [cs|] eqn:Hc; simpl.
  - pose proof (add_comments_Forall cs ({[sid]} ∪ ids)
                  (process_comments_Forall _ _ Hc)) as H.
    destruct (add_comments cs ({[sid]} ∪ ids)) as [kept ids2]. simpl in *.
    constructor; eauto.
  - constructor; eauto.
Qed.

Lemma items_loop_Forall verdict tag l ids :
  Forall P (items_loop tz verdict tag l ids).1.1.
Proof.
  revert ids. induction l as [|[s|e] l IH]; intros ids; simpl;
    try constructor.
  destruct (read (s_created_utc s)) as [created|]; simpl; [|constructor].
  destruct (verdict created); simpl; [|apply IH|constructor].
  pose proof (collect_submission_Forall tag s ids) as H.
  destruct (collect_submission tz tag s ids) as [[out ids1] [[]|e]];
    simpl in *; [|assumption].
  specialize (IH ids1).
  destruct (items_loop tz verdict tag l ids1) as [[more ids2] st2].
  simpl in *. apply Forall_app; split; assumption.
Qed.

Lemma sorting_filters_Forall method since fetch filters ids :
  Forall P (sorting_filters tz method since fetch filters ids).1.1.
Proof.
  revert ids. induction filters as [|tf filters IH]; intros ids; simpl;
    [constructor|].
  rewrite sorting_items_loop.
  pose proof (items_loop_Forall (sorting_verdict method since)
                (source_name method tf) (fetch tf) ids) as H.
  destruct (items_loop tz _ _ (fetch tf) ids) as [[out ids1] [[]|e]];
    simpl in *; [|assumption].
  specialize (IH ids1).
  destruct (sorting_filters tz method since fetch filters ids1)
    as [[more ids2] st2].
  simpl in *. apply Forall_app; split; assumption.
Qed.

Lemma collect_sorting_Forall subreddit since ids method :
  Forall P (collect_sorting tz subreddit since ids method).1.
Proof.
  unfold collect_sorting.
  destruct (getattr_listing subreddit method) as [fetch|]; simpl;
    [|constructor].
  pose proof (sorting_filters_Forall method since fetch (time_filters method) ids).
  destruct (sorting_filters tz method since fetch (time_filters method) ids)
    as [[data ids'] st]. assumption.
Qed.

Lemma search_each_Forall query tag subreddit since terms ids :
  Forall P (search_each tz query tag subreddit since terms ids).1.
Proof.
  revert ids. induction terms as [|term terms IH]; intros ids; simpl;
    [constructor|].
  rewrite search_items_loop.
  pose proof (items_loop_Forall (search_verdict since) (tag term)
                (sub_search subreddit (query term) "year") ids) as H.
  destruct (items_loop tz _ _ _ ids) as [[out ids1] st]. simpl in *.
  specialize (IH ids1).
  destruct (search_each tz query tag subreddit since terms ids1) as [more ids2].
  simpl in *. apply Forall_app; split; assumption.
Qed.

Lemma monthly_loop_Forall fuel subreddit start end_ ids r :
  monthly_loop tz fuel subreddit start end_ ids = Ok r -> Forall P r.1.
Proof.
  revert start ids r. induction fuel as [|fuel IH]; intros start ids r; simpl.
  - intros [= <-]. constructor.
  - destruct (start <? end_); [|intros [= <-]; constructor].
    destruct (Datetime.fromtimestamp tz start) as [d1|]; simpl; [|discriminate].
    destruct (Datetime.fromtimestamp tz (Z.min (start + MONTH) end_)) as [d2|];
      simpl; [|discriminate].
    rewrite monthly_items_loop.
    match goal with |- context [items_loop tz ?v ?t ?l ids] =>
      pose proof (items_loop_Forall v t l ids) as H;
      destruct (items_loop tz v t l ids) as [[out ids1] st] end.
    simpl in H.
    destruct (monthly_loop tz fuel subreddit (Z.min (start + MONTH) end_) end_ ids1)
      as [rest|] eqn:Hrest; simpl; [|discriminate].
    intros [= <-]. simpl. apply Forall_app; split; eauto.
Qed.

Lemma collect_search_posts_Forall subreddit since ids :
  Forall P (collect_search_posts tz subreddit since ids).1.
Proof. apply search_each_Forall. Qed.

Lemma collect_flair_posts_Forall subreddit since ids :
  Forall P (collect_flair_posts tz subreddit since ids).1.
Proof. apply search_each_Forall. Qed.

Lemma collect_all_Forall now now' subreddit all_data :
  collect_all tz now now' subreddit = Ok all_data -> Forall P all_data.
Proof.
  unfold collect_all, collect_monthly_paginated.
  destruct (one_year_ago tz now) as [since|]; cbn [exc_bind]; [|discriminate].
  destruct (Datetime.fromtimestamp tz since) as [start_dt|]; cbn [exc_bind];
    [|discriminate].
  destruct (monthly_loop _ _ _ _ _ _) as [[monthly ids0]|] eqn:Hm;
    cbn [exc_bind]; [|discriminate].
  apply monthly_loop_Forall in Hm. cbn [fst] in Hm.
  repeat match goal with
  | |- context [collect_sorting tz ?s ?c ?i ?m] =>
      pose proof (collect_sorting_Forall s c i m);
      destruct (collect_sorting tz s c i m) as [? ?]
  end.
  match goal with
  | |- context [collect_search_posts tz ?s ?c ?i] =>
      pose proof (collect_search_posts_Forall s c i);
      destruct (collect_search_posts tz s c i) as [? ?]
  end.
  match goal with
  | |- context [collect_flair_posts tz ?s ?c ?i] =>
      pose proof (collect_flair_posts_Forall s c i);
      destruct (collect_flair_posts tz s c i) as [? ?]
  end.
  cbn [fst] in *. intros [= <-]. repeat (apply Forall_app; split); assumption.
Qed.

End Emitted.

(** ** The deduplication index *)

Lemma fresh_from_nil ids : fresh_from ids [] ids.
Proof.
  split; [constructor|]. split; [intros r Hr; inversion Hr|].
  simpl. set_solver.
Qed.

Lemma fresh_from_app ids out1 ids1 out2 ids2 :
  fresh_from ids out1 ids1 -> fresh_from ids1 out2 ids2 ->
  fresh_from ids (out1 ++ out2) ids2.
Proof.
  intros (Hnd1 & Hnew1 & ->) (Hnd2 & Hnew2 & ->).
  split; [|split].
  - rewrite fmap_app. apply NoDup_app. split; [assumption|].
    split; [|assumption].
    intros x Hx1 Hx2. apply list_elem_of_fmap in Hx2 as (r & -> & Hr).
    apply (Hnew2 r Hr). set_solver.
  - intros r Hr. apply elem_of_app in Hr as [Hr|Hr]; [auto|].
    specialize (Hnew2 r Hr). set_solver.
  - rewrite fmap_app, list_to_set_app_L. set_solver.
Qed.

Lemma fresh_from_cons ids r out ids' :
  r_id r ∉ ids -> fresh_from ({[r_id r]} ∪ ids) out ids' ->
  fresh_from ids (r :: out) ids'.
Proof.
  intros Hr H. apply (fresh_from_app ids [r] ({[r_id r]} ∪ ids)); [|exact H].
  split; [apply NoDup_singleton|]. split.
  - intros r' Hr'. apply list_elem_of_singleton in Hr' as ->. assumption.
  - simpl. set_solver.
Qed.

Lemma add_comments_fresh l ids :
  fresh_from ids (add_comments l ids).1 (add_comments l ids).2.
Proof.
  revert ids. induction l as [|r l IH]; intros ids; simpl;
    [apply fresh_from_nil|].
  destruct (decide (r_id r ∈ ids)); [apply IH|].
  specialize (IH ({[r_id r]} ∪ ids)).
  destruct (add_comments l ({[r_id r]} ∪ ids)) as [more ids']. simpl in *.
  apply fresh_from_cons; assumption.
Qed.

Lemma r_id_set_source tag r : r_id (set_source tag r) = r_id r.
Proof. reflexivity. Qed.

Lemma collect_submission_fresh tz tag s ids :
  fresh_from ids (collect_submission tz tag s ids).1.1
    (collect_submission tz tag s ids).1.2.
Proof.
  unfold collect_submission.
  destruct (s_id s) as [sid|] eqn:Hid; simpl; [|apply fresh_from_nil].
  destruct (decide (sid ∈ ids)); simpl; [apply fresh_from_nil|].
  destruct (extract_submission_data tz s) as [[post|]|] eqn:Hp; simpl;
    try apply fresh_from_nil.
  apply extract_submission_data_Some, submission_record_Some in Hp
    as (t & i & _ & _ & _ & Hi & Hrid & _).
  rewrite Hid in Hi. injection Hi as <-.
  destruct (process_comments tz s) as [cs|]; simpl.
  - pose proof (add_comments_fresh cs ({[sid]} ∪ ids)) as H.
    destruct (add_comments cs ({[sid]} ∪ ids)) as [kept ids2]. simpl in *.
    apply fresh_from_cons; rewrite r_id_set_source, Hrid; assumption.
  - apply fresh_from_cons; rewrite r_id_set_source, Hrid;
      [assumption|apply fresh_from_nil].
Qed.

Lemma items_loop_fresh tz verdict tag l ids :
  fresh_from ids (items_loop tz verdict tag l ids).1.1
    (items_loop tz verdict tag l ids).1.2.
Proof.
  revert ids. induction l as [|[s|e] l IH]; intros ids; simpl;
    try apply fresh_from_nil.
  destruct (read (s_created_utc s)) as [created|]; simpl;
    [|apply fresh_from_nil].
  destruct (verdict created); simpl; [|apply IH|apply fresh_from_nil].
  pose proof (collect_submission_fresh tz tag s ids) as H.
  destruct (collect_submission tz tag s ids) as [[out ids1] [[]|e]];
    simpl in *; [|assumption].
  specialize (IH ids1).
  destruct (items_loop tz verdict tag l ids1) as [[more ids2] st2].
  simpl in *. eapply fresh_from_app; eassumption.
Qed.

Lemma sorting_filters_fresh tz method since fetch filters ids :
  fresh_from ids (sorting_filters tz method since fetch filters ids).1.1
    (sorting_filters tz method since fetch filters ids).1.2.
Proof.
  revert ids. induction filters as [|tf filters IH]; intros ids; simpl;
    [apply fresh_from_nil|].
  rewrite sorting_items_loop.
  pose proof (items_loop_fresh tz (sorting_verdict method since)
                (source_name method tf) (fetch tf) ids) as H.
  destruct (items_loop tz _ _ (fetch tf) ids) as [[out ids1] [[]|e]];
    simpl in *; [|assumption].
  specialize (IH ids1).
  destruct (sorting_filters tz method since fetch filters ids1)
    as [[more ids2] st2].
  simpl in *. eapply fresh_from_app; eassumption.
Qed.

Lemma collect_sorting_fresh tz subreddit since ids method :
  fresh_from ids (collect_sorting tz subreddit since ids method).1
    (collect_sorting tz subreddit since ids method).2.
Proof.
  unfold collect_sorting.
  destruct (getattr_listing subreddit method) as [fetch|]; simpl;
    [|apply fresh_from_nil].
  pose proof (sorting_filters_fresh tz method since fetch (time_filters method) ids).
  destruct (sorting_filters tz method since fetch (time_filters method) ids)
    as [[data ids'] st]. assumption.
Qed.

Lemma search_each_fresh tz query tag subreddit since terms ids :
  fresh_from ids (search_each tz query tag subreddit since terms ids).1
    (search_each tz query tag subreddit since terms ids).2.
Proof.
  revert ids. induction terms as [|term terms IH]; intros ids; simpl;
    [apply fresh_from_nil|].
  rewrite search_items_loop.
  pose proof (items_loop_fresh tz (search_verdict since) (tag term)
                (sub_search subreddit (query term) "year") ids) as H.
  destruct (items_loop tz _ _ _ ids) as [[out ids1] st]. simpl in *.
  specialize (IH ids1).
  destruct (search_each tz query tag subreddit since terms ids1) as [more ids2].
  simpl in *. eapply fresh_from_app; eassumption.
Qed.

Lemma monthly_loop_fresh tz fuel subreddit start end_ ids r :
  monthly_loop tz fuel subreddit start end_ ids = Ok r -> fresh_from ids r.1 r.2.
Proof.
  revert start ids r. induction fuel as [|fuel IH]; intros start ids r; simpl.
  - intros [= <-]. apply fresh_from_nil.
  - destruct (start <? end_); [|intros [= <-]; apply fresh_from_nil].
    destruct (Datetime.fromtimestamp tz start) as [d1|]; simpl; [|discriminate].
    destruct (Datetime.fromtimestamp tz (Z.min (start + MONTH) end_)) as [d2|];
      simpl; [|discriminate].
    rewrite monthly_items_loop.
    match goal with |- context [items_loop tz ?v ?t ?l ids] =>
      pose proof (items_loop_fresh tz v t l ids) as H;
      destruct (items_loop tz v t l ids) as [[out ids1] st] end.
    simpl in H.
    destruct (monthly_loop tz fuel subreddit (Z.min (start + MONTH) end_) end_ ids1)
      as [rest|] eqn:Hrest; simpl; [|discriminate].
    intros [= <-]. simpl. eapply fresh_from_app; eauto.
Qed.

(** The concatenation made by the orchestrator has no repeated identifier,
    before any clean-up. *)
Lemma collect_all_NoDup tz now now' subreddit all_data :
  collect_all tz now now' subreddit = Ok all_data -> NoDup (r_id <$> all_data).
Proof.
  unfold collect_all, collect_monthly_paginated.
  destruct (one_year_ago tz now) as [since|]; cbn [exc_bind]; [|discriminate].
  destruct (Datetime.fromtimestamp tz since) as [start_dt|]; cbn [exc_bind];
    [|discriminate].
  destruct (monthly_loop _ _ _ _ _ _) as [[monthly ids0]|] eqn:Hm;
    cbn [exc_bind]; [|discriminate].
  apply monthly_loop_fresh in Hm. cbn [fst snd] in Hm.
  repeat match goal with
  | |- context [collect_sorting tz ?s ?c ?i ?m] =>
      pose proof (collect_sorting_fresh tz s c i m);
      destruct (collect_sorting tz s c i m) as [? ?]
  end.
  match goal with
  | |- context [collect_search_posts tz ?s ?c ?i] =>
      pose proof (search_each_fresh tz (fun t => t) (fun t => "search_" +:+ t)
                    s c (search_terms ++ compound_terms) i);
      fold (collect_search_posts tz s c i) in *;
      destruct (collect_search_posts tz s c i) as [? ?]
  end.
  match goal with
  | |- context [collect_flair_posts tz ?s ?c ?i] =>
      pose proof (search_each_fresh tz (fun f => "flair:" +:+ f)
                    (fun f => "flair_" +:+ f) s c flairs i);
      fold (collect_flair_posts tz s c i) in *;
      destruct (collect_flair_posts tz s c i) as [? ?]
  end.
  cbn [fst snd] in *. intros [= <-].
  repeat match goal with
  | H1 : fresh_from ?a ?o1 ?b, H2 : fresh_from ?b ?o2 ?c |- _ =>
      pose proof (fresh_from_app a o1 b o2 c H1 H2); clear H2
  end.
  repeat rewrite <- app_assoc in *.
  match goal with
  | H : fresh_from ∅ ?o _ |- NoDup (r_id <$> ?o) => exact (proj1 H)
  end.
Qed.

(** ** The clean-up pass and the sort *)

Lemma drop_duplicates_sublist seen rows :
  drop_duplicates seen rows `sublist_of` rows.
Proof.
  revert seen. induction rows as [|r rows IH]; intros seen; simpl;
    [constructor|].
  destruct (decide (r_id r ∈ seen)); [apply sublist_cons|apply sublist_skip];
    apply IH.
Qed.

Lemma drop_duplicates_fresh seen rows :
  NoDup (r_id <$> drop_duplicates seen rows)
  /\ forall r, r ∈ drop_duplicates seen rows -> r_id r ∉ seen.
Proof.
  revert seen. induction rows as [|r rows IH]; intros seen; simpl.
  - split; [constructor|]. intros r Hr. inversion Hr.
  - destruct (decide (r_id r ∈ seen)) as [Hin|Hout]; [apply IH|].
    destruct (IH ({[r_id r]} ∪ seen)) as [Hnd Hnew]. split.
    + simpl. constructor; [|assumption].
      intros Hr. apply list_elem_of_fmap in Hr as (r' & Heq & Hr').
      apply (Hnew r' Hr'). set_solver.
    + intros r' Hr'. apply elem_of_cons in Hr' as [->|Hr']; [assumption|].
      specialize (Hnew r' Hr'). set_solver.
Qed.

(** On records whose identifiers are already distinct the pass changes
    nothing. *)
Lemma drop_duplicates_NoDup seen rows :
  NoDup (r_id <$> rows) -> (forall r, r ∈ rows -> r_id r ∉ seen) ->
  drop_duplicates seen rows = rows.
Proof.
  revert seen. induction rows as [|r rows IH]; intros seen Hnd Hnew; simpl;
    [reflexivity|].
  simpl in Hnd. apply NoDup_cons in Hnd as [Hr Hnd].
  destruct (decide (r_id r ∈ seen)) as [Hin|_].
  - exfalso. apply (Hnew r); [left|assumption].
  - f_equal. apply IH; [assumption|].
    intros r' Hr'. intros Hin. apply elem_of_union in Hin as [Hin|Hin].
    + apply elem_of_singleton in Hin. apply Hr. rewrite <- Hin.
      apply list_elem_of_fmap. eauto.
    + apply (Hnew r'); [right|]; assumption.
Qed.

(** A record whose identifier occurred earlier is dropped. *)
Lemma drop_duplicates_repeat seen l1 r l2 :
  r_id r ∈ seen \/ r_id r ∈ r_id <$> l1 ->
  drop_duplicates seen (l1 ++ r :: l2) = drop_duplicates seen (l1 ++ l2).
Proof.
  revert seen. induction l1 as [|x l1 IH]; intros seen H; simpl.
  - destruct H as [H|H]; [|inversion H].
    destruct (decide (r_id r ∈ seen)); [reflexivity|contradiction].
  - destruct (decide (r_id x ∈ seen)).
    + apply IH. destruct H as [H|H]; [auto|].
      simpl in H. apply elem_of_cons in H as [H|H]; [|auto].
      left. rewrite H. assumption.
    + f_equal. apply IH. destruct H as [H|H]; [left; set_solver|].
      simpl in H. apply elem_of_cons in H as [H|H]; [|auto].
      left. set_solver.
Qed.

Lemma StronglySorted_sublist {A} (R : relation A) l1 l2 :
  l1 `sublist_of` l2 -> StronglySorted R l2 -> StronglySorted R l1.
Proof.
  induction 1 as [|x l1 l2 Hsub IH|x l1 l2 Hsub IH]; intros Hs.
  - constructor.
  - apply StronglySorted_cons in Hs as [Hx Hs]. constructor; [auto|].
    apply Forall_forall. intros y Hy.
    rewrite Forall_forall in Hx. apply Hx. eapply elem_of_sublist; eassumption.
  - apply StronglySorted_cons in Hs as [_ Hs]. auto.
Qed.

Lemma require_Ok cs columns u :
  require cs columns = Ok u -> forall c, c ∈ cs -> c ∈ columns.
Proof.
  unfold require. destruct (forallb _ cs) eqn:H; [|discriminate].
  intros _ c Hc. rewrite forallb_forall in H.
  apply list_elem_of_In in Hc. apply H in Hc.
  apply bool_decide_eq_true in Hc. assumption.
Qed.

Lemma process_dataframe_Ok datetime64 sorter data df :
  process_dataframe datetime64 sorter data = Ok df ->
  df_rows df = sort_values sorter (drop_duplicates ∅ data)
  /\ df_columns df = df_columns (pd_DataFrame datetime64 data)
  /\ data <> [].
Proof.
  unfold process_dataframe.
  set (columns := df_columns (pd_DataFrame datetime64 data)).
  destruct (require ["id"] columns) as [[]|] eqn:Hid; cbn [exc_bind];
    [|discriminate].
  destruct (require ["timestamp_dt"] columns) as [[]|]; cbn [exc_bind];
    [|discriminate].
  match goal with |- context [exc_bind ?c _] => destruct c as [[]|] end;
    cbn [exc_bind]; [|discriminate].
  intros [= <-]. cbn [df_rows df_columns pd_DataFrame]. repeat split.
  intros ->. discriminate Hid.
Qed.

Lemma transform_data_Ok df app_name nf :
  transform_data df app_name = Ok nf ->
  nf_rows nf = normalize app_name <$> filter (fun r => notnull r) (df_rows df).
Proof.
  unfold transform_data, rename_add_drop.
  match goal with |- context [exc_bind ?c _] => destruct c as [[]|] end;
    cbn [exc_bind]; [|discriminate].
  match goal with |- context [exc_bind ?c _] => destruct c as [[]|] end;
    cbn [exc_bind]; [|discriminate].
  intros [= <-]. cbn [nf_rows str_lower dropna df_rows].
  rewrite <- list_fmap_compose. reflexivity.
Qed.

(** ** The windows of the time-windowed strategy *)

Lemma month_positive : 0 < MONTH.
Proof. reflexivity. Qed.

(** Extra fuel changes nothing once there is enough of it. *)
Lemma monthly_windows_fuel_stable end_ f1 : forall f2 start,
  (start < end_ -> (end_ - start - 1) / MONTH + 1 <= Z.of_nat f1) ->
  (start < end_ -> (end_ - start - 1) / MONTH + 1 <= Z.of_nat f2) ->
  monthly_windows_fuel f1 start end_ = monthly_windows_fuel f2 start end_.
Proof.
  pose proof month_positive as Hm.
  induction f1 as [|f1 IH]; intros f2 start H1 H2.
  - destruct (Z.ltb_spec start end_) as [Hlt|Hge].
    + specialize (H1 Hlt). exfalso.
      assert (0 <= (end_ - start - 1) / MONTH) by (apply Z.div_pos; lia). lia.
    + destruct f2; simpl; [reflexivity|].
      destruct (Z.ltb_spec start end_); [lia|reflexivity].
  - destruct f2 as [|f2]; simpl.
    + destruct (Z.ltb_spec start end_) as [Hlt|Hge]; [|reflexivity].
      specialize (H2 Hlt). exfalso.
      assert (0 <= (end_ - start - 1) / MONTH) by (apply Z.div_pos; lia). lia.
    + destruct (Z.ltb_spec start end_) as [Hlt|Hge]; [|reflexivity].
      f_equal. specialize (H1 Hlt). specialize (H2 Hlt).
      assert (forall f : nat, (end_ - start - 1) / MONTH + 1 <= Z.of_nat (S f) ->
                Z.min (start + MONTH) end_ < end_ ->
                (end_ - Z.min (start + MONTH) end_ - 1) / MONTH + 1 <= Z.of_nat f)
        as Hstep.
      { intros f Hf Hlt'.
        replace (Z.min (start + MONTH) end_) with (start + MONTH) in * by lia.
        replace (end_ - start - 1) with ((end_ - (start + MONTH) - 1) + 1 * MONTH)
          in Hf by lia.
        rewrite Z.div_add in Hf by lia. lia. }
      apply IH; intros Hlt'; apply Hstep; assumption.
Qed.

Lemma monthly_fuel_bound start end_ :
  start < end_ ->
  (end_ - start - 1) / MONTH + 1 <= Z.of_nat (monthly_fuel start end_).
Proof.
  intros Hlt. pose proof month_positive as Hm. unfold monthly_fuel.
  assert ((end_ - start - 1) / MONTH <= (end_ - start) / MONTH)
    by (apply Z.div_le_mono; lia).
  assert (0 <= (end_ - start - 1) / MONTH) by (apply Z.div_pos; lia).
  lia.
Qed.

(** The fuel given to the loop is enough: the windows are those of the
    [while] loop run to its end. *)
Lemma monthly_fuel_enough fuel start end_ :
  (monthly_fuel start end_ <= fuel)%nat ->
  monthly_windows_fuel fuel start end_ = monthly_windows start end_.
Proof.
  intros Hle. unfold monthly_windows.
  apply monthly_windows_fuel_stable; intros Hlt;
    pose proof (monthly_fuel_bound start end_ Hlt); lia.
Qed.

Lemma monthly_windows_unfold start end_ :
  monthly_windows start end_
  = if start <? end_
    then (start, Z.min (start + MONTH) end_)
           :: monthly_windows (Z.min (start + MONTH) end_) end_
    else [].
Proof.
  destruct (Z.ltb_spec start end_) as [Hlt|Hge].
  - rewrite <- (monthly_fuel_enough (S (monthly_fuel start end_
              + monthly_fuel (Z.min (start + MONTH) end_) end_))) by lia.
    simpl. destruct (Z.ltb_spec start end_); [|lia].
    f_equal. apply monthly_fuel_enough. lia.
  - unfold monthly_windows. destruct (monthly_fuel start end_); simpl;
      [reflexivity|]. destruct (Z.ltb_spec start end_); [lia|reflexivity].
Qed.

Lemma monthly_windows_fuel_head fuel start end_ w :
  monthly_windows_fuel fuel start end_ !! 0%nat = Some w ->
  w = (start, Z.min (start + MONTH) end_) /\ start < end_.
Proof.
  destruct fuel; simpl; [discriminate|].
  destruct (Z.ltb_spec start end_); simpl; [|discriminate].
  intros [= <-]. auto.
Qed.

Lemma monthly_windows_fuel_shape fuel end_ : forall start,
  Forall (fun w => start <= w.1 /\ w.1 < w.2 /\ w.2 <= end_
                   /\ w.2 = Z.min (w.1 + MONTH) end_)
    (monthly_windows_fuel fuel start end_).
Proof.
  pose proof month_positive as Hm.
  induction fuel as [|fuel IH]; intros start; simpl; [constructor|].
  destruct (Z.ltb_spec start end_) as [Hlt|Hge]; [|constructor].
  constructor; [simpl; lia|].
  eapply Forall_impl; [apply IH|]. simpl. intros w Hw. lia.
Qed.

Lemma monthly_windows_fuel_chain fuel end_ : forall start i w w',
  monthly_windows_fuel fuel start end_ !! i = Some w ->
  monthly_windows_fuel fuel start end_ !! S i = Some w' ->
  w.2 = w'.1.
Proof.
  induction fuel as [|fuel IH]; intros start i w w'; simpl; [discriminate|].
  destruct (Z.ltb_spec start end_); [|discriminate].
  destruct i as [|i]; simpl.
  - intros [= <-] H'. apply monthly_windows_fuel_head in H' as [-> _].
    reflexivity.
  - apply IH.
Qed.

(** Windows further apart do not overlap either. *)
Lemma monthly_windows_fuel_apart fuel end_ : forall start,
  StronglySorted (fun w w' : Z * Z => w.2 <= w'.1)
    (monthly_windows_fuel fuel start end_).
Proof.
  induction fuel as [|fuel IH]; intros start; simpl; [constructor|].
  destruct (Z.ltb_spec start end_); [|constructor].
  constructor; [apply IH|].
  eapply Forall_impl; [apply monthly_windows_fuel_shape|].
  simpl. intros w Hw. lia.
Qed.

Lemma monthly_windows_last end_ : forall fuel start,
  start < end_ ->
  (end_ - start - 1) / MONTH + 1 <= Z.of_nat fuel ->
  exists a, last (monthly_windows_fuel fuel start end_) = Some (a, end_).
Proof.
  pose proof month_positive as Hm.
  induction fuel as [|fuel IH]; intros start Hlt Hfuel.
  - exfalso.
    assert (0 <= (end_ - start - 1) / MONTH) by (apply Z.div_pos; lia). lia.
  - simpl. destruct (Z.ltb_spec start end_); [|lia].
    destruct (Z.ltb_spec (Z.min (start + MONTH) end_) end_) as [Hlt'|Hge'].
    + destruct (IH (Z.min (start + MONTH) end_) Hlt') as [a Ha].
      { replace (Z.min (start + MONTH) end_) with (start + MONTH) in * by lia.
        replace (end_ - start - 1) with ((end_ - (start + MONTH) - 1) + 1 * MONTH)
          in Hfuel by lia.
        rewrite Z.div_add in Hfuel by lia. lia. }
      exists a. rewrite last_cons, Ha. reflexivity.
    + exists start. replace (Z.min (start + MONTH) end_) with end_ by lia.
      destruct fuel; simpl; [reflexivity|].
      destruct (Z.ltb_spec end_ end_); [lia|reflexivity].
Qed.

(** The loop of the strategy is its body run over these windows. *)
Lemma monthly_loop_over tz subreddit end_ fuel : forall start ids,
  monthly_loop tz fuel subreddit start end_ ids
  = monthly_over tz subreddit (monthly_windows_fuel fuel start end_) ids.
Proof.
  induction fuel as [|fuel IH]; intros start ids; simpl; [reflexivity|].
  destruct (start <? end_); [|reflexivity]. simpl.
  destruct (Datetime.fromtimestamp tz start); simpl; [|reflexivity].
  destruct (Datetime.fromtimestamp tz (Z.min (start + MONTH) end_)); simpl;
    [|reflexivity].
  destruct (monthly_items _ _ _ _ _ _) as [[out ids1] st].
  rewrite IH. reflexivity.
Qed.

(** ** The reply harvester *)

Lemma extract_comments_ok tz s i l :
  s_id s = Val i -> (extract_comments tz s l).2 = Ok tt.
Proof.
  intros Hid. induction l as [|c l IH]; simpl; [reflexivity|].
  destruct (extract_comment_data_total tz c s) as [[r|] ->]; [|assumption].
  rewrite Hid. simpl. destruct (extract_comments tz s l). assumption.
Qed.

Lemma extract_comments_from tz s i l r :
  s_id s = Val i -> r ∈ (extract_comments tz s l).1 ->
  exists c r0, c ∈ l /\ extract_comment_data tz c s = Ok (Some r0)
               /\ r = set_source ("comment_in_" +:+ i) r0.
Proof.
  intros Hid. induction l as [|c l IH]; simpl; [intros H; inversion H|].
  destruct (extract_comment_data tz c s) as [[r0|]|e] eqn:Hc; simpl.
  - rewrite Hid. simpl. destruct (extract_comments tz s l) as [more st].
    simpl in *. intros H. apply elem_of_cons in H as [->|H].
    + exists c, r0. split; [left|]. auto.
    + destruct (IH H) as (c' & r' & Hc' & He & Hr).
      exists c', r'. split; [right; assumption|]. auto.
  - intros H. destruct (IH H) as (c' & r' & Hc' & He & Hr).
    exists c', r'. split; [right; assumption|]. auto.
  - intros H. inversion H.
Qed.

Lemma process_comments_total tz s i :
  s_id s = Val i -> exists l, process_comments tz s = Ok l.
Proof.
  intros Hid. unfold process_comments.
  destruct (process_comments_body tz s) as [data [[]|e]]; [eauto|].
  rewrite Hid. simpl. eauto.
Qed.

Lemma process_comments_fallback tz s i comments e :
  s_id s = Val i -> s_comments s = Val (Some comments) ->
  (cf_replace_more comments ;;; cf_list comments) = Raise e ->
  process_comments tz s = Ok (harvested tz s (loaded comments)).
Proof.
  intros Hid Hc He. unfold process_comments, process_comments_body, harvested, loaded.
  rewrite Hc, He, Hid. simpl.
  destruct (cf__comments comments) as [[l|]|]; simpl; try reflexivity.
  pose proof (extract_comments_ok tz s i l Hid) as Hok.
  destruct (extract_comments tz s l) as [data st]. simpl in *. rewrite Hok.
  reflexivity.
Qed.

Lemma process_comments_expanded tz s i comments all_comments :
  s_id s = Val i -> s_comments s = Val (Some comments) ->
  (cf_replace_more comments ;;; cf_list comments) = Ok all_comments ->
  process_comments tz s = Ok (harvested tz s all_comments).
Proof.
  intros Hid Hc He. unfold process_comments, process_comments_body, harvested.
  rewrite Hc, He.
  pose proof (extract_comments_ok tz s i all_comments Hid) as Hok.
  destruct (extract_comments tz s all_comments) as [data st]. simpl in *.
  rewrite Hok. reflexivity.
Qed.

(** With a readable [id], the loop body never raises. *)
Lemma collect_submission_ok tz tag s i ids :
  s_id s = Val i -> (collect_submission tz tag s ids).2 = Ok tt.
Proof.
  intros Hid. unfold collect_submission. rewrite Hid. simpl.
  destruct (decide (i ∈ ids)); [reflexivity|].
  destruct (extract_submission_data_total tz s i Hid) as [[r|] ->];
    [|reflexivity].
  destruct (process_comments_total tz s i Hid) as [l ->].
  destruct (add_comments l ({[i]} ∪ ids)). reflexivity.
Qed.

Lemma items_loop_take tz verdict tag s i t rest ids :
  s_id s = Val i -> s_created_utc s = Val t -> verdict t = Take ->
  items_loop tz verdict tag (Ok s :: rest) ids
  = let '(out, ids1, _) := collect_submission tz tag s ids in
    let '(more, ids2, st) := items_loop tz verdict tag rest ids1 in
    (out ++ more, ids2, st).
Proof.
  intros Hid Ht Hv. simpl. rewrite Ht. simpl. rewrite Hv.
  pose proof (collect_submission_ok tz tag s i ids Hid) as Hok.
  destruct (collect_submission tz tag s ids) as [[out ids1] st].
  simpl in Hok. rewrite Hok. reflexivity.
Qed.

(** ** Early exit and skipping *)

Lemma items_loop_break tz verdict tag pre old post ids t :
  s_created_utc old = Val t -> verdict t = Break ->
  items_loop tz verdict tag (pre ++ Ok old :: post) ids
  = items_loop tz verdict tag pre ids.
Proof.
  intros Ht Hv. revert ids. induction pre as [|[s|e] pre IH]; intros ids; simpl.
  - rewrite Ht. simpl. rewrite Hv. reflexivity.
  - destruct (read (s_created_utc s)) as [created|]; [|reflexivity].
    destruct (verdict created); [|apply IH|reflexivity].
    destruct (collect_submission tz tag s ids) as [[out ids1] [[]|e]];
      [|reflexivity].
    rewrite IH. reflexivity.
  - reflexivity.
Qed.

Lemma items_loop_skip tz verdict tag pre old post ids t :
  s_created_utc old = Val t -> verdict t = Skip ->
  items_loop tz verdict tag (pre ++ Ok old :: post) ids
  = items_loop tz verdict tag (pre ++ post) ids.
Proof.
  intros Ht Hv. revert ids. induction pre as [|[s|e] pre IH]; intros ids; simpl.
  - rewrite Ht. simpl. rewrite Hv. reflexivity.
  - destruct (read (s_created_utc s)) as [created|]; [|reflexivity].
    destruct (verdict created); [|apply IH|reflexivity].
    destruct (collect_submission tz tag s ids) as [[out ids1] [[]|e]];
      [|reflexivity].
    rewrite IH. reflexivity.
  - reflexivity.
Qed.

(** Nothing after the first failure of a listing is looked at. *)
Lemma items_loop_page_failure tz verdict tag pre e post ids :
  items_loop tz verdict tag (pre ++ Raise e :: post) ids
  = items_loop tz verdict tag (pre ++ [Raise e]) ids.
Proof.
  revert ids. induction pre as [|[s|e'] pre IH]; intros ids; simpl;
    try reflexivity.
  destruct (read (s_created_utc s)) as [created|]; [|reflexivity].
  destruct (verdict created); [|apply IH|reflexivity].
  destruct (collect_submission tz tag s ids) as [[out ids1] [[]|e']];
    [|reflexivity].
  rewrite IH. reflexivity.
Qed.

Lemma items_loop_stops tz verdict tag pre x post ids :
  item_raises verdict x ->
  (items_loop tz verdict tag (pre ++ x :: post) ids).1
  = (items_loop tz verdict tag pre ids).1.
Proof.
  intros Hx. revert ids. induction pre as [|[s|e'] pre IH]; intros ids; simpl.
  - destruct x as [bad|e]; [|reflexivity]. simpl in Hx.
    destruct (s_created_utc bad) as [t|]; simpl; [|reflexivity].
    destruct Hx as [-> Hid]. unfold collect_submission. rewrite Hid.
    reflexivity.
  - destruct (read (s_created_utc s)) as [created|]; [|reflexivity].
    destruct (verdict created); [|apply IH|reflexivity].
    destruct (collect_submission tz tag s ids) as [[out ids1] [[]|e']];
      [|reflexivity].
    specialize (IH ids1).
    destruct (items_loop tz verdict tag (pre ++ x :: post) ids1) as [[? ?] ?].
    destruct (items_loop tz verdict tag pre ids1) as [[? ?] ?].
    simpl in *. congruence.
  - reflexivity.
Qed.

(** An item that does not raise is an item that is dealt with. *)
Lemma item_raises_not tz verdict tag s i t ids :
  s_id s = Val i -> s_created_utc s = Val t ->
  ~ item_raises verdict (Ok s)
  /\ (verdict t = Take -> (collect_submission tz tag s ids).2 = Ok tt).
Proof.
  intros Hid Ht. split.
  - simpl. rewrite Ht, Hid. intros [_ H]. discriminate H.
  - intros _. eapply collect_submission_ok; eassumption.
Qed.

(** ** Accepted text *)

Lemma full_text_join s t :
  full_text s = Ok t -> exists a b, t = a +:+ " " +:+ b.
Proof.
  unfold full_text. intros H.
  destruct (s_is_self s) as [b|]; simpl in H; [|discriminate].
  destruct (if b then read (s_selftext s) else Ok "") as [x|]; simpl in H;
    [|discriminate].
  destruct (s_title s) as [ti|]; simpl in H; [|discriminate].
  injection H as <-. eauto.
Qed.

Lemma text_ok_set_source tag r : text_ok r -> text_ok (set_source tag r).
Proof. intros H. exact H. Qed.

Lemma extract_submission_data_text tz s r :
  extract_submission_data tz s = Ok (Some r) ->
  (exists t, full_text s = Ok t /\ r_complaint r = Some t) /\ text_ok r.
Proof.
  intros H. apply extract_submission_data_Some, submission_record_Some in H
    as (t & i & Ht & Hc & Hlen & _).
  split; [eauto|].
  destruct (full_text_join s t Ht) as (a & b & ->).
  destruct (join_not_sentinel a b). exists (a +:+ " " +:+ b). auto.
Qed.

Lemma extract_comment_data_text tz c p r :
  extract_comment_data tz c p = Ok (Some r) ->
  (exists b, c_body c = Val b /\ r_complaint r = Some b) /\ text_ok r.
Proof.
  intros H. apply extract_comment_data_Some, comment_record_Some in H
    as (b & i & Hb & Hc & Hlen & Hd & Hr & _).
  split; [eauto|]. exists b. auto.
Qed.

(** C2: every accepted record, that is every non-null result of
    [extract_submission_data] or [extract_comment_data], and hence every
    record of the concatenated output of the strategies, carries the text
    of its candidate, whose trimmed length is at least 5 and which is
    neither ['[deleted]'] nor ['[removed]']; a candidate whose combined
    text (for a submission) or body (for a comment) is shorter than 5 once
    trimmed, or whose body is one of the sentinels, is rejected by
    returning null. *)
Theorem accepted_records_have_text (tz : Z -> Z) :
  (forall s r, extract_submission_data tz s = Ok (Some r) ->
     (exists t, full_text s = Ok t /\ r_complaint r = Some t) /\ text_ok r)
  /\ (forall c p r, extract_comment_data tz c p = Ok (Some r) ->
     (exists b, c_body c = Val b /\ r_complaint r = Some b) /\ text_ok r)
  /\ (forall now now' subreddit all_data,
     collect_all tz now now' subreddit = Ok all_data -> Forall text_ok all_data)
  /\ (forall s i t, s_id s = Val i -> full_text s = Ok t ->
     Text.len (Text.strip t) < 5 -> extract_submission_data tz s = Ok None)
  /\ (forall c p b, c_body c = Val b ->
     Text.len (Text.strip b) < 5 \/ b = DELETED \/ b = REMOVED ->
     extract_comment_data tz c p = Ok None).
Proof.
  split; [apply extract_submission_data_text|].
  split; [apply extract_comment_data_text|].
  split; [|split].
  - intros now now' subreddit all_data.
    apply collect_all_Forall.
    + apply text_ok_set_source.
    + intros s r H. apply (extract_submission_data_text tz s r H).
    + intros c p r H. apply (extract_comment_data_text tz c p r H).
  - apply extract_submission_data_short.
  - apply extract_comment_data_reject.
Qed.

Lemma accepted_records_have_text_witness :
  (exists r, extract_submission_data utc p1 = Ok (Some r)
             /\ r_complaint r = Some "Late order driver never showed"
             /\ text_ok r)
  /\ extract_comment_data utc (reply "c2" "ok" 0) p1 = Ok None
  /\ extract_comment_data utc (reply "c3" "[removed]" 0) p1 = Ok None
  /\ extract_submission_data utc (post "p4" "hm" "" 0 Missing) = Ok None.
Proof.
  destruct (accepted_records_have_text utc) as (Hs & _ & _ & Hshort & Hrej).
  split; [|split; [|split]].
  - destruct (extract_submission_data utc p1) as [[r|]|] eqn:Hr;
      [|vm_compute in Hr; discriminate Hr..].
    exists r. split; [reflexivity|].
    destruct (Hs p1 r Hr) as [_ Hok]. split; [|exact Hok].
    vm_compute in Hr. injection Hr as <-. reflexivity.
  - apply (Hrej _ _ "ok"); [reflexivity|]. left. reflexivity.
  - apply (Hrej _ _ "[removed]"); [reflexivity|]. right. right. reflexivity.
  - apply (Hshort _ "p4" "hm "); reflexivity.
Defined.

(** ** Totality of the extractors *)



(** X18: the handler of [extract_submission_data] builds its log message
    from [submission.id] without a guard, where the handler of
    [extract_comment_data] tests [hasattr(comment, 'id')].  So on a
    submission whose [id] cannot be read nothing is ever extracted: the
    extractor returns null when it rejects the text as too short, and in
    every other case the body fails, the handler raises in its turn and
    [AttributeError] leaves the extractor. *)
Theorem submission_handler_raises_without_id (tz : Z -> Z) (s : Submission) :
  s_id s = Missing ->
  (forall e, submission_record tz s = Raise e ->
     extract_submission_data tz s = Raise AttributeError)
  /\ (forall o, submission_record tz s = Ok o ->
        o = None /\ extract_submission_data tz s = Ok None)
  /\ (extract_submission_data tz s = Ok None
      \/ extract_submission_data tz s = Raise AttributeError).
Proof.
  intros Hid.
  assert (forall e, submission_record tz s = Raise e ->
            extract_submission_data tz s = Raise AttributeError) as Hraise.
  { intros e He. unfold extract_submission_data. rewrite He. simpl.
    rewrite Hid. reflexivity. }
  assert (forall o, submission_record tz s = Ok o -> o = None) as Hnone.
  { intros o. unfold submission_record. rewrite Hid. cbn [read].
    repeat match goal with
           | |- context [exc_bind (Raise _) _] => progress cbn [exc_bind]
           | |- context [exc_bind ?c _] =>
               destruct c; cbn [exc_bind]; try discriminate
           end.
    destruct (Text.len _ <? 5); [|discriminate].
    intros [= <-]. reflexivity. }
  split; [exact Hraise|]. split.
  - intros o Ho. pose proof (Hnone o Ho) as ->. split; [reflexivity|].
    unfold extract_submission_data. rewrite Ho. reflexivity.
  - destruct (submission_record tz s) as [o|e] eqn:Hs.
    + left. pose proof (Hnone o eq_refl) as ->.
      unfold extract_submission_data. rewrite Hs. reflexivity.
    + right. eauto.
Qed.

Lemma submission_handler_raises_without_id_witness :
  s_id no_id = Missing
  /\ extract_submission_data utc no_id = Raise AttributeError
  /\ extract_comment_data utc reply_without_id p1 = Ok None.
Proof.
  split; [reflexivity|].
  destruct (submission_handler_raises_without_id utc no_id eq_refl)
    as (Hraise & _ & _).
  split; [|reflexivity].
  apply (Hraise AttributeError). reflexivity.
Defined.

(** C9: the reply harvester, given a submission whose [id] can be read (an
    accepted submission: the strategy has read it and the extractor has
    stored it), always returns a list.  When the expansion of the tree
    raises, the list is made of the replies extracted from what
    [comments._comments] holds, the empty list when there is nothing to
    iterate; each of its records is the extraction of one of these
    replies.  The loop body of the strategy then ends normally and the
    loop goes on with the rest of the listing. *)
Theorem harvester_never_raises (tz : Z -> Z) (s : Submission) (i : string) :
  s_id s = Val i ->
  (exists l, process_comments tz s = Ok l)
  /\ (forall comments e, s_comments s = Val (Some comments) ->
        (cf_replace_more comments ;;; cf_list comments) = Raise e ->
        process_comments tz s = Ok (harvested tz s (loaded comments))
        /\ forall r, r ∈ harvested tz s (loaded comments) ->
             exists c r0, c ∈ loaded comments
                          /\ extract_comment_data tz c s = Ok (Some r0)
                          /\ r = set_source ("comment_in_" +:+ i) r0)
  /\ (forall tag ids, (collect_submission tz tag s ids).2 = Ok tt)
  /\ (forall t method tag since rest ids,
        s_created_utc s = Val t -> since <= t ->
        sorting_items tz method tag since (Ok s :: rest) ids
        = let '(out, ids1, _) := collect_submission tz tag s ids in
          let '(more, ids2, st) := sorting_items tz method tag since rest ids1 in
          (out ++ more, ids2, st)).
Proof.
  intros Hid. split; [eapply process_comments_total; eassumption|].
  split; [|split].
  - intros comments e Hc He. split.
    + eapply process_comments_fallback; eassumption.
    + intros r Hr. eapply extract_comments_from; eassumption.
  - intros tag ids. eapply collect_submission_ok; eassumption.
  - intros t method tag since rest ids Ht Hle.
    rewrite !sorting_items_loop.
    rewrite (items_loop_take tz _ tag s i t rest ids Hid Ht).
    + destruct (collect_submission tz tag s ids) as [[out ids1] st].
      rewrite sorting_items_loop. reflexivity.
    + unfold sorting_verdict. destruct (Z.ltb_spec t since); [lia|reflexivity].
Qed.

Lemma harvester_never_raises_witness :
  s_id p2 = Val "p2"
  /\ (exists r, process_comments utc p2 = Ok [r] /\ r_id r = "c7")
  /\ (collect_submission utc "new" p2 ∅).2 = Ok tt.
Proof.
  destruct (harvester_never_raises utc p2 "p2" eq_refl) as (_ & Hfall & Hok & _).
  split; [reflexivity|]. split; [|apply Hok].
  destruct (Hfall failing_tree RequestError eq_refl eq_refl) as [-> _].
  eexists. split; [vm_compute; reflexivity|reflexivity].
Defined.

(** ** One listing per method *)

Lemma collect_sorting_single tz subreddit since ids method fetch :
  getattr_listing subreddit method = Ok fetch ->
  time_filters method = [None] ->
  collect_sorting tz subreddit since ids method
  = (sorting_items tz method method since (fetch None) ids).1.
Proof.
  intros Hfetch Hfilters. unfold collect_sorting.
  rewrite Hfetch, Hfilters. cbn [sorting_filters source_name].
  destruct (sorting_items tz method method since (fetch None) ids)
    as [[out ids1] [[]|e]]; cbn [fst]; rewrite ?app_nil_r; reflexivity.
Qed.

(** ** Claims on the windows and on the sort orders *)

(** C4: the windows that the time-windowed strategy goes through, from
    [start_timestamp] (the cutoff) to [now], are contiguous: the end of
    each is the start of the next; the end of each is
    [min(start + 30 days, now)]; each is non-empty, so the windows advance;
    a later window starts no earlier than an earlier one ends; the first
    starts at the cutoff and the last ends at [now].  The loop reaches its
    end within its fuel, and the strategy is its body run over exactly
    these windows. *)
Theorem monthly_windows_contiguous (start_timestamp now : Z) :
  let windows := monthly_windows start_timestamp now in
  (forall i w w', windows !! i = Some w -> windows !! S i = Some w' ->
     w.2 = w'.1)
  /\ Forall (fun w => w.1 < w.2 /\ w.2 = Z.min (w.1 + MONTH) now) windows
  /\ StronglySorted (fun w w' : Z * Z => w.2 <= w'.1) windows
  /\ (start_timestamp < now ->
      (exists b, head windows = Some (start_timestamp, b))
      /\ (exists a, last windows = Some (a, now)))
  /\ (forall fuel, (monthly_fuel start_timestamp now <= fuel)%nat ->
        monthly_windows_fuel fuel start_timestamp now = windows)
  /\ (forall tz subreddit ids,
        collect_monthly_paginated tz now subreddit start_timestamp ids
        = monthly_over tz subreddit windows ids).
Proof.
  simpl. split; [apply monthly_windows_fuel_chain|].
  split.
  { eapply Forall_impl; [apply monthly_windows_fuel_shape|].
    simpl. intros w Hw. tauto. }
  split; [apply monthly_windows_fuel_apart|].
  split; [|split].
  - intros Hlt. split.
    + rewrite monthly_windows_unfold.
      destruct (Z.ltb_spec start_timestamp now); [|lia]. simpl. eauto.
    + apply monthly_windows_last; [assumption|].
      apply monthly_fuel_bound. assumption.
  - intros fuel. apply monthly_fuel_enough.
  - intros tz subreddit ids. apply monthly_loop_over.
Qed.

Lemma monthly_windows_contiguous_witness :
  sample_since < sample_now
  /\ (exists b, head (monthly_windows sample_since sample_now)
                = Some (sample_since, b))
  /\ (exists a, last (monthly_windows sample_since sample_now)
                = Some (a, sample_now))
  /\ length (monthly_windows sample_since sample_now) = 13%nat.
Proof.
  assert (sample_since < sample_now) as Hlt by reflexivity.
  destruct (monthly_windows_contiguous sample_since sample_now)
    as (_ & _ & _ & Hends & _).
  destruct (Hends Hlt) as [Hhead Hlast].
  split; [exact Hlt|]. split; [exact Hhead|]. split; [exact Hlast|].
  vm_compute. reflexivity.
Defined.

(** C5: in [collect_sorting] with the ['new'] order, once a submission
    older than the cutoff is met the iteration stops: whatever follows it
    in the listing has no effect, on the loop and on the strategy.  With
    any other order such a submission is skipped and the iteration goes on
    with what follows it. *)
Theorem newest_order_exits_early (tz : Z -> Z) (since t : Z) (old : Submission)
    (pre post : Listing) :
  s_created_utc old = Val t -> t < since ->
  (forall tag ids,
     sorting_items tz "new" tag since (pre ++ Ok old :: post) ids
     = sorting_items tz "new" tag since pre ids)
  /\ (forall subreddit subreddit' ids,
        sub_new subreddit = pre ++ Ok old :: post -> sub_new subreddit' = pre ->
        collect_sorting tz subreddit since ids "new"
        = collect_sorting tz subreddit' since ids "new")
  /\ (forall method tag ids, method <> "new" ->
        sorting_items tz method tag since (pre ++ Ok old :: post) ids
        = sorting_items tz method tag since (pre ++ post) ids).
Proof.
  intros Ht Hlt.
  assert (forall tag ids,
            sorting_items tz "new" tag since (pre ++ Ok old :: post) ids
            = sorting_items tz "new" tag since pre ids) as Hnew.
  { intros tag ids. rewrite !sorting_items_loop.
    apply (items_loop_break tz _ tag pre old post ids t Ht).
    unfold sorting_verdict. destruct (Z.ltb_spec t since); [|lia].
    reflexivity. }
  split; [exact Hnew|]. split.
  - intros subreddit subreddit' ids Hsub Hsub'.
    rewrite !(collect_sorting_single tz _ since ids "new" _ eq_refl eq_refl).
    cbn beta. rewrite Hsub, Hsub', Hnew. reflexivity.
  - intros method tag ids Hm. rewrite !sorting_items_loop.
    apply (items_loop_skip tz _ tag pre old post ids t Ht).
    unfold sorting_verdict. destruct (Z.ltb_spec t since); [|lia].
    rewrite bool_decide_eq_false_2 by assumption. reflexivity.
Qed.

Lemma newest_order_exits_early_witness :
  s_created_utc old_post = Val (sample_now - 800 * 86400)
  /\ sample_now - 800 * 86400 < sample_since
  /\ (r_id <$> (collect_sorting utc sample_subreddit sample_since ∅ "new").1)
     = ["p1"; "c1"; "p2"; "c7"]
  /\ (r_id <$> (collect_sorting utc sample_subreddit sample_since ∅ "hot").1)
     = ["p2"; "c7"; "p3"].
Proof.
  assert (sample_now - 800 * 86400 < sample_since) as Hlt by reflexivity.
  destruct (newest_order_exits_early utc sample_since _ old_post
              [Ok p1; Ok p2] [Ok p3] eq_refl Hlt) as (_ & Hnew & _).
  split; [reflexivity|]. split; [exact Hlt|]. split.
  - rewrite (Hnew sample_subreddit
               {| sub_new := [Ok p1; Ok p2]; sub_hot := [];
                  sub_top := fun _ => []; sub_controversial := fun _ => [];
                  sub_search := fun _ _ => [] |} ∅ eq_refl eq_refl).
    vm_compute. reflexivity.
  - vm_compute. reflexivity.
Defined.

(** ** The orchestrator *)

Lemma main_raw_data tz datetime64 sorter host now now' app_name subreddit
    app_path df :
  raw_data (main tz datetime64 sorter host now now' app_name subreddit app_path).1
  = Some df ->
  exists all_data, collect_all tz now now' subreddit = Ok all_data
                   /\ process_dataframe datetime64 sorter all_data = Ok df.
Proof.
  unfold main.
  destruct (collect_all tz now now' subreddit) as [all_data|]; cbn [exc_bind];
    [|discriminate].
  destruct (process_dataframe datetime64 sorter all_data) as [df'|] eqn:Hdf;
    [|discriminate].
  destruct (save_raw_data host df' app_path) as [raw_calls saved].
  destruct (exc_bind saved _) as [nf|].
  - destruct (load_data host nf app_path). cbn. intros [= <-]. eauto.
  - cbn. intros [= <-]. eauto.
Qed.

Lemma main_processed_data tz datetime64 sorter host now now' app_name subreddit
    app_path nf :
  processed_data
    (main tz datetime64 sorter host now now' app_name subreddit app_path).1
  = Some nf ->
  exists df,
    raw_data (main tz datetime64 sorter host now now' app_name subreddit app_path).1
    = Some df
    /\ transform_data df app_name = Ok nf.
Proof.
  unfold main.
  destruct (collect_all tz now now' subreddit) as [all_data|]; cbn [exc_bind];
    [|discriminate].
  destruct (process_dataframe datetime64 sorter all_data) as [df'|];
    [|discriminate].
  destruct (save_raw_data host df' app_path) as [raw_calls [[]|e]];
    cbn [exc_bind]; [|discriminate].
  destruct (transform_data df' app_name) as [nf'|] eqn:Ht; [|discriminate].
  destruct (load_data host nf' app_path). cbn. intros [= <-]. eauto.
Qed.

Lemma process_dataframe_NoDup datetime64 sorter data df :
  process_dataframe datetime64 sorter data = Ok df -> NoDup (r_id <$> df_rows df).
Proof.
  intros H. apply process_dataframe_Ok in H as (-> & _).
  rewrite (sort_values_perm sorter). apply drop_duplicates_fresh.
Qed.

Lemma process_dataframe_sorted datetime64 sorter data df :
  process_dataframe datetime64 sorter data = Ok df ->
  StronglySorted newer_first (df_rows df).
Proof.
  intros H. apply process_dataframe_Ok in H as (-> & _).
  apply sort_values_sorted.
Qed.

(** The rows of the raw snapshot are rows of the data, each once. *)
Lemma process_dataframe_rows datetime64 sorter data df r :
  process_dataframe datetime64 sorter data = Ok df -> r ∈ df_rows df -> r ∈ data.
Proof.
  intros H. apply process_dataframe_Ok in H as (-> & _).
  rewrite (sort_values_perm sorter). intros Hr.
  eapply elem_of_sublist; [exact Hr|apply drop_duplicates_sublist].
Qed.

Lemma transform_data_sublist df app_name nf :
  transform_data df app_name = Ok nf ->
  exists kept, kept `sublist_of` df_rows df
               /\ Forall (fun r => notnull r = true) kept
               /\ nf_rows nf = normalize app_name <$> kept.
Proof.
  intros H. apply transform_data_Ok in H.
  exists (filter (fun r => notnull r) (df_rows df)).
  split; [apply sublist_filter|]. split; [|assumption].
  apply Forall_forall. intros r Hr. apply list_elem_of_filter in Hr as [Hr _].
  destruct (notnull r); [reflexivity|contradiction].
Qed.

(** C1: a strategy leaves out, before extracting it, a candidate whose
    [id] is in the shared index; the concatenation of the outputs of the
    seven passes has pairwise distinct identifiers; the pass made on the
    concatenation drops a record whose identifier occurred earlier; the
    rows of the processed record set have pairwise distinct identifiers;
    and the rows of the normalized output of a run are the images, in
    order, of rows of the raw snapshot of that run that have pairwise
    distinct identifiers (the normalized rows themselves have no [id]
    column any more). *)
Theorem output_ids_distinct (tz : Z -> Z) (datetime64 : list (option Z) -> bool)
    (sorter : Sorter) (host : Call -> exc unit) :
  (forall tag s sid ids, s_id s = Val sid -> sid ∈ ids ->
     collect_submission tz tag s ids = ([], ids, Ok tt))
  /\ (forall now now' subreddit all_data,
        collect_all tz now now' subreddit = Ok all_data ->
        NoDup (r_id <$> all_data))
  /\ (forall l1 r l2, r_id r ∈ r_id <$> l1 ->
        drop_duplicates ∅ (l1 ++ r :: l2) = drop_duplicates ∅ (l1 ++ l2))
  /\ (forall data df, process_dataframe datetime64 sorter data = Ok df ->
        NoDup (r_id <$> df_rows df))
  /\ (forall now now' app_name subreddit app_path nf,
        processed_data
          (main tz datetime64 sorter host now now' app_name subreddit app_path).1
        = Some nf ->
        exists df kept,
          raw_data
            (main tz datetime64 sorter host now now' app_name subreddit app_path).1
          = Some df
          /\ kept `sublist_of` df_rows df
          /\ NoDup (r_id <$> kept)
          /\ nf_rows nf = normalize app_name <$> kept).
Proof.
  split.
  { intros tag s sid ids Hid Hin. unfold collect_submission.
    rewrite Hid. simpl. destruct (decide (sid ∈ ids)); [reflexivity|].
    contradiction. }
  split; [apply collect_all_NoDup|].
  split; [intros; apply drop_duplicates_repeat; auto|].
  split; [apply process_dataframe_NoDup|].
  intros now now' app_name subreddit app_path nf Hnf.
  apply main_processed_data in Hnf as (df & Hraw & Hnf).
  destruct (main_raw_data _ _ _ _ _ _ _ _ _ _ Hraw) as (all_data & _ & Hdf).
  apply process_dataframe_NoDup in Hdf.
  apply transform_data_sublist in Hnf as (kept & Hsub & _ & Hrows).
  exists df, kept. split; [assumption|]. split; [assumption|].
  split; [|assumption].
  eapply sublist_NoDup; [exact Hdf|]. apply fmap_sublist. assumption.
Qed.

Lemma output_ids_distinct_witness :
  collect_submission utc "hot" p2 {["p2"]} = ([], {["p2"]}, Ok tt)
  /\ (exists df nf kept,
        raw_data (main utc datetime64_ns merge_sorter returning sample_now
                    sample_now "DoorDash" sample_subreddit "doordash").1 = Some df
        /\ processed_data (main utc datetime64_ns merge_sorter returning sample_now
                             sample_now "DoorDash" sample_subreddit "doordash").1
           = Some nf
        /\ (r_id <$> df_rows df) = ["c7"; "c1"; "p1"; "p2"; "p3"]
        /\ NoDup (r_id <$> df_rows df)
        /\ kept `sublist_of` df_rows df
        /\ NoDup (r_id <$> kept)
        /\ nf_rows nf = normalize "DoorDash" <$> kept).
Proof.
  destruct (output_ids_distinct utc datetime64_ns merge_sorter returning)
    as (Hskip & _ & _ & Hnd & Hrun).
  split.
  - apply (Hskip "hot" p2 "p2"); [reflexivity|]. apply elem_of_singleton.
    reflexivity.
  - destruct (processed_data (main utc datetime64_ns merge_sorter returning
                                sample_now sample_now "DoorDash" sample_subreddit
                                "doordash").1) as [nf|] eqn:Hnf;
      [|vm_compute in Hnf; discriminate Hnf].
    destruct (Hrun _ _ _ _ _ _ Hnf) as (df & kept & Hraw & Hsub & Hkept & Hrows).
    exists df, nf, kept. split; [exact Hraw|]. split; [reflexivity|].
    destruct (main_raw_data _ _ _ _ _ _ _ _ _ _ Hraw) as (all_data & _ & Hdf).
    split; [|split; [exact (Hnd all_data df Hdf)|auto]].
    vm_compute in Hraw. injection Hraw as <-. reflexivity.
Defined.

(** ** Columns of a frame built from records *)

Lemma elem_of_add_columns k columns ks :
  k ∈ add_columns columns ks <-> k ∈ columns \/ k ∈ ks.
Proof.
  unfold add_columns. rewrite elem_of_app, list_elem_of_filter.
  destruct (decide (k ∈ columns)); tauto.
Qed.

Lemma elem_of_columns k data : forall columns,
  k ∈ foldl (fun cols r => add_columns cols (keys r)) columns data
  <-> k ∈ columns \/ exists r, r ∈ data /\ k ∈ keys r.
Proof.
  induction data as [|r data IH]; intros columns; simpl.
  - split; [auto|]. intros [H|(r & Hr & _)]; [assumption|inversion Hr].
  - rewrite IH, elem_of_add_columns. split.
    + intros [[H|H]|(r' & Hr' & H)]; [auto| |].
      * right. exists r. split; [left|assumption].
      * right. exists r'. split; [right|]; assumption.
    + intros [H|(r' & Hr' & H)]; [auto|].
      apply elem_of_cons in Hr' as [->|Hr']; [auto|].
      right. eauto.
Qed.

Lemma elem_of_pd_DataFrame datetime64 k data :
  k ∈ df_columns (pd_DataFrame datetime64 data)
  <-> exists r, r ∈ data /\ k ∈ keys r.
Proof.
  unfold pd_DataFrame. simpl. rewrite elem_of_columns. split.
  - intros [H|H]; [inversion H|assumption].
  - auto.
Qed.

Lemma forallb_true_Forall {A} (p : A -> bool) l :
  Forall (fun x => p x = true) l -> forallb p l = true.
Proof.
  intros H. apply forallb_forall. intros x Hx.
  rewrite Forall_forall in H. apply H, list_elem_of_In, Hx.
Qed.

(** ** Order of the snapshots *)

Lemma fromtimestamp_Ok tz t dt :
  Datetime.fromtimestamp tz t = Ok dt -> dt = t + tz t.
Proof.
  unfold Datetime.fromtimestamp.
  destruct ((Datetime.MIN <=? t + tz t) && (t + tz t <=? Datetime.MAX));
    [|discriminate].
  intros [= <-]. reflexivity.
Qed.

Lemma submission_record_dated tz s r :
  submission_record tz s = Ok (Some r) -> dated tz r.
Proof.
  unfold submission_record, dated. intros H.
  destruct (s_created_utc s) as [t|]; simpl in H; [|discriminate].
  destruct (Datetime.fromtimestamp tz t) as [dt|] eqn:Hdt; simpl in H;
    [|discriminate].
  apply fromtimestamp_Ok in Hdt as ->.
  repeat exc_step; try discriminate; injection H as <-; reflexivity.
Qed.

Lemma comment_record_dated tz c p r :
  comment_record tz c p = Ok (Some r) -> dated tz r.
Proof.
  unfold comment_record, dated. intros H.
  destruct (c_body c) as [b|]; simpl in H; [|discriminate].
  destruct ((Text.len (Text.strip b) <? 5) || bool_decide (b = DELETED)
            || bool_decide (b = REMOVED)); [discriminate|].
  destruct (c_created_utc c) as [t|]; simpl in H; [|discriminate].
  destruct (Datetime.fromtimestamp tz t) as [dt|] eqn:Hdt; simpl in H;
    [|discriminate].
  apply fromtimestamp_Ok in Hdt as ->.
  destruct (c_id c); simpl in H; [|discriminate].
  destruct (c_score c); simpl in H; [|discriminate].
  destruct (c_replies c); simpl in H;
    destruct (c_permalink c); simpl in H;
    destruct (s_id p); simpl in H; try discriminate;
    destruct (s_title p); simpl in H; try discriminate;
    injection H as <-; reflexivity.
Qed.

Lemma collect_all_dated tz now now' subreddit all_data :
  collect_all tz now now' subreddit = Ok all_data -> Forall (dated tz) all_data.
Proof.
  apply collect_all_Forall.
  - intros tag r H. exact H.
  - intros s r H. eapply submission_record_dated, extract_submission_data_Some, H.
  - intros c p r H. eapply comment_record_dated, extract_comment_data_Some, H.
Qed.

(** Sorted by local datetime is sorted by creation time where the wall
    clock keeps the order of the creation times. *)
Lemma newer_first_created_later tz rows :
  Forall (dated tz) rows -> local_time_keeps_order tz rows ->
  StronglySorted newer_first rows -> StronglySorted created_later rows.
Proof.
  intros Hd Hk Hs. induction Hs as [|a rows Hs IH Ha]; [constructor|].
  apply Forall_cons in Hd as [Hda Hd]. constructor.
  - apply IH; [assumption|]. intros x y Hx Hy. apply Hk; right; assumption.
  - rewrite Forall_forall in *. intros b Hb.
    specialize (Ha b Hb). specialize (Hd b Hb).
    unfold newer_first, created_later, dated in *. rewrite Hda, Hd in Ha.
    destruct (Z.le_gt_cases (r_timestamp b) (r_timestamp a)) as [|Hlt];
      [assumption|].
    specialize (Hk a b ltac:(left) ltac:(right; exact Hb) Hlt). lia.
Qed.

Lemma normalize_datetime app_name r :
  n_review_datetime (normalize app_name r) = r_timestamp_dt r.
Proof. reflexivity. Qed.

Lemma main_raw_data_of tz datetime64 sorter host now now' app_name subreddit
    app_path all_data df :
  collect_all tz now now' subreddit = Ok all_data ->
  process_dataframe datetime64 sorter all_data = Ok df ->
  raw_data (main tz datetime64 sorter host now now' app_name subreddit app_path).1
  = Some df.
Proof.
  intros Hall Hdf. unfold main. rewrite Hall. cbn [exc_bind]. rewrite Hdf.
  destruct (save_raw_data host df app_path) as [raw_calls saved].
  destruct (exc_bind saved _) as [nf|]; [|reflexivity].
  destruct (load_data host nf app_path). reflexivity.
Qed.

(** Two rows of which one must come first come out in that order. *)
Lemma sort_values_pair sorter a b :
  ~ newer_first b a -> sort_values sorter [b; a] = [a; b].
Proof.
  intros Hn. pose proof (sort_values_sorted sorter [b; a]) as Hs.
  pose proof (sort_values_perm sorter [b; a]) as Hp.
  symmetry in Hp. apply Permutation_length_2_inv in Hp as [Hp|Hp];
    rewrite Hp in *; [|reflexivity].
  apply StronglySorted_inv in Hs as [_ Hs]. apply Forall_cons in Hs as [Hs _].
  contradiction.
Qed.

(** C7: on a host whose zone has daylight saving time, the raw snapshot is
    not sorted by creation timestamp, most recent first.  Of two
    submissions made in the night the clocks go back, at 01:30 before the
    change and forty minutes later, at 01:10 after it, the sort on
    [timestamp_dt], which holds the reading of the wall clock, puts the
    older first, whatever the sorting algorithm. *)
Theorem fall_back_puts_the_older_record_first :
  forall sorter : Sorter, exists df,
    raw_data (main eastern datetime64_ns sorter returning fall_back_now
                fall_back_now "DoorDash" fall_back_subreddit "doordash").1
    = Some df
    /\ (r_id <$> df_rows df) = ["q1"; "q2"]
    /\ (r_timestamp <$> df_rows df) = [fall_back - 1800; fall_back + 600]
    /\ (r_time <$> df_rows df) = ["01:30:00"; "01:10:00"]
    /\ ~ StronglySorted created_later (df_rows df).
Proof.
  intros sorter.
  destruct (collect_all eastern fall_back_now fall_back_now fall_back_subreddit)
    as [all_data|] eqn:Hall; [|vm_compute in Hall; discriminate Hall].
  assert (exists a b, all_data = [b; a] /\ ~ newer_first b a
                      /\ r_id a = "q1" /\ r_id b = "q2"
                      /\ r_timestamp a = fall_back - 1800
                      /\ r_timestamp b = fall_back + 600
                      /\ r_time a = "01:30:00" /\ r_time b = "01:10:00"
                      /\ r_source a = Some "new" /\ r_type a = "post"
                      /\ r_type b = "post")
    as (a & b & -> & Hn & Ha & Hb & Hta & Htb & Hma & Hmb & Hsrc & Hpa & Hpb).
  { vm_compute in Hall. injection Hall as <-. eexists _, _.
    split; [reflexivity|]. split; [|repeat split].
    vm_compute. intros H. apply H. reflexivity. }
  assert (exists df, process_dataframe datetime64_ns sorter [b; a] = Ok df
                     /\ df_rows df = [a; b]) as (df & Hdf & Hrows).
  { unfold process_dataframe.
    assert (forall cs,
              Forall (fun c => c ∈ common_keys ++ ["title"; "source"]) cs ->
              require cs (df_columns (pd_DataFrame datetime64_ns [b; a])) = Ok tt)
      as Hreq.
    { intros cs Hcs. unfold require.
      rewrite forallb_true_Forall; [reflexivity|].
      eapply Forall_impl; [exact Hcs|]. intros c Hc. apply bool_decide_eq_true.
      apply elem_of_pd_DataFrame. exists a. split; [right; left|].
      unfold keys. rewrite Hpa, Hsrc. exact Hc. }
    rewrite !Hreq by (repeat constructor; compute_done). cbn [exc_bind].
    eexists. split; [reflexivity|]. cbn [df_rows pd_DataFrame].
    assert (drop_duplicates ∅ [b; a] = [b; a]) as ->.
    { simpl. rewrite Ha, Hb. reflexivity. }
    apply sort_values_pair. assumption. }
  exists df. split; [eapply main_raw_data_of; eassumption|].
  rewrite Hrows. cbn [fmap list_fmap]. rewrite Ha, Hb, Hta, Htb, Hma, Hmb.
  repeat (split; [reflexivity|]).
  intros Hs. apply StronglySorted_inv in Hs as [_ Hs].
  apply Forall_cons in Hs as [Hs _]. unfold created_later in Hs.
  rewrite Hta, Htb in Hs. vm_compute in Hs. apply Hs. reflexivity.
Qed.

(** X17: the raw snapshot that [process_dataframe] returns is sorted by
    [timestamp_dt], later first (nulls last); on the records of a run
    [timestamp_dt] is the reading of the wall clock at the creation time,
    so that the snapshot is in the order of the creation timestamps, most
    recent first, when the wall clock keeps the order of the creation
    times of its rows.  The rows of the normalized output are the images,
    in the same order, of a sublist of the rows of the raw snapshot:
    normalization filters rows and rewrites columns and does not sort. *)
Theorem raw_sorted_by_local_time_normalized_in_order (tz : Z -> Z)
    (datetime64 : list (option Z) -> bool) (sorter : Sorter)
    (host : Call -> exc unit) :
  (forall data df, process_dataframe datetime64 sorter data = Ok df ->
     StronglySorted newer_first (df_rows df))
  /\ (forall df app_name nf, transform_data df app_name = Ok nf ->
        exists kept, kept `sublist_of` df_rows df
                     /\ nf_rows nf = normalize app_name <$> kept)
  /\ (forall now now' app_name subreddit app_path df,
        raw_data
          (main tz datetime64 sorter host now now' app_name subreddit app_path).1
        = Some df ->
        Forall (dated tz) (df_rows df)
        /\ (local_time_keeps_order tz (df_rows df) ->
            StronglySorted created_later (df_rows df))
        /\ forall nf,
             processed_data
               (main tz datetime64 sorter host now now' app_name subreddit
                  app_path).1 = Some nf ->
             exists kept, kept `sublist_of` df_rows df
                          /\ nf_rows nf = normalize app_name <$> kept).
Proof.
  split; [apply process_dataframe_sorted|].
  split.
  { intros df app_name nf H.
    apply transform_data_sublist in H as (kept & Hsub & _ & Hrows). eauto. }
  intros now now' app_name subreddit app_path df Hraw.
  destruct (main_raw_data _ _ _ _ _ _ _ _ _ _ Hraw) as (all_data & Hall & Hdf).
  assert (Forall (dated tz) (df_rows df)) as Hdated.
  { apply collect_all_dated in Hall. rewrite Forall_forall in *.
    intros r Hr. apply Hall. eapply process_dataframe_rows; eassumption. }
  split; [assumption|]. split.
  - intros Hk. apply (newer_first_created_later tz); [assumption..|].
    eapply process_dataframe_sorted; eassumption.
  - intros nf Hnf. apply main_processed_data in Hnf as (df' & Hraw' & Hnf).
    rewrite Hraw in Hraw'. injection Hraw' as <-.
    apply transform_data_sublist in Hnf as (kept & Hsub & _ & Hrows). eauto.
Qed.

Lemma raw_sorted_by_local_time_normalized_in_order_witness :
  exists df nf,
    raw_data (main eastern datetime64_ns merge_sorter returning sample_now
                sample_now "DoorDash" sample_subreddit "doordash").1 = Some df
    /\ processed_data (main eastern datetime64_ns merge_sorter returning
                         sample_now sample_now "DoorDash" sample_subreddit
                         "doordash").1 = Some nf
    /\ (r_timestamp <$> df_rows df)
       = [1699999500; 1699997000; 1696544000; 1695680000; 1694816000]
    /\ local_time_keeps_order eastern (df_rows df)
    /\ StronglySorted created_later (df_rows df)
    /\ exists kept, kept `sublist_of` df_rows df
                    /\ nf_rows nf = normalize "DoorDash" <$> kept.
Proof.
  destruct (raw_sorted_by_local_time_normalized_in_order eastern datetime64_ns
              merge_sorter returning) as (_ & _ & H).
  destruct (raw_data (main eastern datetime64_ns merge_sorter returning
                        sample_now sample_now "DoorDash" sample_subreddit
                        "doordash").1) as [df|] eqn:Hraw;
    [|vm_compute in Hraw; discriminate Hraw].
  destruct (processed_data (main eastern datetime64_ns merge_sorter returning
                              sample_now sample_now "DoorDash" sample_subreddit
                              "doordash").1) as [nf|] eqn:Hnf;
    [|vm_compute in Hnf; discriminate Hnf].
  exists df, nf. split; [reflexivity|]. split; [reflexivity|].
  destruct (H _ _ _ _ _ _ Hraw) as (_ & Hsorted & Hkept).
  assert ((r_timestamp <$> df_rows df)
          = [1699999500; 1699997000; 1696544000; 1695680000; 1694816000])
    as Htimes by (vm_compute in Hraw; injection Hraw as <-; reflexivity).
  assert (local_time_keeps_order eastern (df_rows df)) as Hkeeps.
  { intros a b Ha Hb. apply (list_elem_of_fmap_2 r_timestamp) in Ha, Hb.
    rewrite Htimes in Ha, Hb. revert Ha Hb.
    generalize (r_timestamp a) (r_timestamp b). intros x y Hx Hy.
    rewrite !elem_of_cons, elem_of_nil in Hx, Hy.
    destruct Hx as [-> | [-> | [-> | [-> | [-> | []]]]]];
      destruct Hy as [-> | [-> | [-> | [-> | [-> | []]]]]];
      vm_compute; congruence. }
  split; [exact Htimes|]. split; [exact Hkeeps|].
  split; [exact (Hsorted Hkeeps)|exact (Hkept nf Hnf)].
Defined.

(** ** The processed set *)

Lemma add_columns_elem c columns ks :
  c ∈ columns -> c ∈ add_columns columns ks.
Proof. intros H. unfold add_columns. apply elem_of_app. auto. Qed.

Lemma add_columns_new c columns ks :
  c ∈ ks -> c ∈ add_columns columns ks.
Proof.
  intros H. unfold add_columns. apply elem_of_app.
  destruct (decide (c ∈ columns)); [auto|].
  right. apply list_elem_of_filter. auto.
Qed.

Lemma transform_data_columns df app_name nf :
  transform_data df app_name = Ok nf ->
  Forall (fun c => c ∈ nf_columns nf) required_columns.
Proof.
  unfold transform_data, rename_add_drop.
  destruct (require _ (df_columns df)) as [[]|] eqn:Hreq; cbn [exc_bind];
    [|discriminate].
  match goal with |- context [exc_bind ?c _] => destruct c as [[]|] end;
    cbn [exc_bind]; [|discriminate].
  intros [= <-]. cbn [nf_columns str_lower dropna df_columns].
  pose proof (require_Ok _ _ _ Hreq) as Hcols.
  assert (forall c, c ∈ ["complaint"; "timestamp_dt"; "upvotes"; "total_comments"] ->
            rename_column c ∈ renamed_columns (df_columns df)) as Hren.
  { intros c Hc. unfold renamed_columns. do 2 apply add_columns_elem.
    apply list_elem_of_fmap. exists c. auto. }
  assert ("data_source" ∈ renamed_columns (df_columns df)) as Hsrc.
  { unfold renamed_columns. apply add_columns_elem, add_columns_new.
    set_solver. }
  assert ("app_name" ∈ renamed_columns (df_columns df)) as Happ.
  { unfold renamed_columns. apply add_columns_new. set_solver. }
  pose proof (Hren "complaint" ltac:(set_solver)) as H1.
  pose proof (Hren "timestamp_dt" ltac:(set_solver)) as H2.
  pose proof (Hren "upvotes" ltac:(set_solver)) as H3.
  pose proof (Hren "total_comments" ltac:(set_solver)) as H4.
  apply Forall_forall. intros c Hc. apply list_elem_of_filter.
  unfold required_columns in Hc.
  repeat (apply elem_of_cons in Hc as [->|Hc]);
    try (split; [compute_done|
                 first [exact H1|exact H2|exact H3|exact H4|exact Hsrc|exact Happ]]).
  inversion Hc.
Qed.

Lemma normalize_present app_name r :
  notnull r = true -> present_and_lowercase (normalize app_name r).
Proof.
  unfold notnull. intros H. apply andb_true_iff in H as [Hc Ht].
  apply bool_decide_eq_true in Hc as [t Hc], Ht as [dt Ht].
  exists (Text.lower t), dt. simpl. rewrite Hc, Ht. simpl.
  auto using lower_no_AZ, lower_no_upper.
Qed.

Lemma transform_data_present df app_name nf :
  transform_data df app_name = Ok nf ->
  Forall present_and_lowercase (nf_rows nf).
Proof.
  intros H. apply transform_data_sublist in H as (kept & _ & Hkept & ->).
  apply Forall_fmap. eapply Forall_impl; [exact Hkept|].
  intros r Hr. apply normalize_present. assumption.
Qed.

(** C6: every row of the processed set that [transform_data] returns, and
    so every row handed to [load_data] by a run, has a non-null [review]
    and a non-null [review_datetime] (the rows with a null in one of the
    two columns were removed, before anything is persisted) and a [review]
    in lower case; the two columns are among the columns of the set, and
    the assertions of [run_sanity_tests] on nulls and on upper case hold
    of it. *)
Theorem processed_rows_present_and_lowercase (tz : Z -> Z)
    (datetime64 : list (option Z) -> bool) (sorter : Sorter)
    (host : Call -> exc unit) :
  (forall df app_name nf, transform_data df app_name = Ok nf ->
     Forall present_and_lowercase (nf_rows nf)
     /\ Forall (fun c => c ∈ nf_columns nf) required_columns
     /\ forallb (fun n => negb (isnull (n_review n))) (nf_rows nf) = true
     /\ forallb (fun n => negb (isnull (n_review_datetime n))) (nf_rows nf) = true
     /\ forallb (fun n => negb (uppercase_review n)) (nf_rows nf) = true)
  /\ (forall now now' app_name subreddit app_path nf,
        processed_data
          (main tz datetime64 sorter host now now' app_name subreddit app_path).1
        = Some nf ->
        Forall present_and_lowercase (nf_rows nf)).
Proof.
  assert (forall df app_name nf, transform_data df app_name = Ok nf ->
            Forall present_and_lowercase (nf_rows nf)) as Hrows
    by apply transform_data_present.
  split.
  - intros df app_name nf H. pose proof (Hrows _ _ _ H) as Hp.
    split; [exact Hp|]. split; [eapply transform_data_columns; eassumption|].
    rewrite Forall_forall in Hp.
    repeat split; apply forallb_forall; intros n Hn;
      apply list_elem_of_In, Hp in Hn as (t & dt & Ht & Hdt & Haz & _);
      unfold uppercase_review; rewrite ?Ht, ?Hdt, ?Haz; reflexivity.
  - intros now now' app_name subreddit app_path nf Hnf.
    apply main_processed_data in Hnf as (df & _ & Hnf). eauto.
Qed.

Lemma processed_rows_present_and_lowercase_witness :
  exists nf,
    processed_data (main utc datetime64_ns merge_sorter returning sample_now
                      sample_now "DoorDash" sample_subreddit "doordash").1
    = Some nf
    /\ (n_review <$> nf_rows nf)
       = [ Some "refund took two weeks"; Some "same here, an hour late";
           Some "late order driver never showed";
           Some "wrong address courier left it next door";
           Some "great service fast and still warm" ]
    /\ Forall present_and_lowercase (nf_rows nf).
Proof.
  destruct (processed_rows_present_and_lowercase utc datetime64_ns merge_sorter
              returning) as [_ H].
  destruct (processed_data (main utc datetime64_ns merge_sorter returning
                              sample_now sample_now "DoorDash" sample_subreddit
                              "doordash").1) as [nf|] eqn:Hnf;
    [|vm_compute in Hnf; discriminate Hnf].
  exists nf. split; [reflexivity|].
  split; [|exact (H _ _ _ _ _ _ Hnf)].
  vm_compute in Hnf. injection Hnf as <-. reflexivity.
Defined.

(** ** Running the normalization again *)

Lemma alloc_lookup (h : Store) f :
  (alloc h f).1 !! (alloc h f).2 = Some f.
Proof. unfold alloc. simpl. apply list_lookup_middle. reflexivity. Qed.

(** A run of [transform_data] on the frame at [df] only adds frames to the
    store; when it returns, it returns the address of a new frame that
    holds the value computed by [transform_data]. *)
Lemma transform_data_at_Raw (h : Store) df d app_name :
  h !! df = Some (RawFrame d) ->
  exists added,
    (transform_data_at h df app_name).1 = h ++ added
    /\ match transform_data d app_name with
       | Ok nf =>
           exists a, (transform_data_at h df app_name).2 = Ok a
                     /\ (length h <= a)%nat
                     /\ (h ++ added) !! a = Some (NormFrame nf)
       | Raise e => (transform_data_at h df app_name).2 = Raise e
       end.
Proof.
  intros Hdf. unfold transform_data_at, transform_data, alloc, Store in *.
  rewrite Hdf.
  destruct (require _ (df_columns d)) as [[]|e]; cbn [exc_bind].
  - destruct (rename_add_drop app_name (str_lower (dropna d))) as [nf|e].
    + exists [RawFrame d; NormFrame nf]. cbn [fst snd]. split.
      * rewrite <- app_assoc. cbn [app].
        rewrite !insert_app_r_alt by (rewrite ?length_app; simpl; lia).
        rewrite length_app. simpl.
        replace (length h + 1 - length h)%nat with 1%nat by lia.
        reflexivity.
      * exists (length (h ++ [RawFrame d])). split; [reflexivity|].
        rewrite length_app. simpl. split; [lia|].
        rewrite lookup_app_r by lia.
        replace (length h + 1 - length h)%nat with 1%nat by lia.
        reflexivity.
    + exists [RawFrame d; RawFrame (str_lower (dropna d))]. cbn [fst snd].
      split; [|reflexivity].
      rewrite <- app_assoc. cbn [app].
      rewrite insert_app_r_alt by (rewrite ?length_app; simpl; lia).
      rewrite length_app. simpl.
      replace (length h + 1 - length h)%nat with 1%nat by lia.
      reflexivity.
  - exists [RawFrame d]. split; reflexivity.
Qed.

(** C8: running the normalization twice on the same raw snapshot gives the
    same output as running it once.  The snapshot is a mutable frame and
    the normalization works in place, but on a copy: a run leaves the frame
    it is given, and every frame that existed before, as they were; the
    second run therefore reads what the first read and either returns a
    new frame with the same content as the frame the first returned, which
    is still there unchanged, or raises the same exception. *)
Theorem normalization_is_repeatable (h : Store) (df : nat) (app_name : string) :
  let run1 := transform_data_at h df app_name in
  let run2 := transform_data_at run1.1 df app_name in
  (forall a, (a < length h)%nat -> run2.1 !! a = h !! a)
  /\ match run1.2, run2.2 with
     | Ok out1, Ok out2 =>
         run2.1 !! out2 = run1.1 !! out1
         /\ run2.1 !! out1 = run1.1 !! out1
         /\ exists d nf, h !! df = Some (RawFrame d)
                         /\ transform_data d app_name = Ok nf
                         /\ run1.1 !! out1 = Some (NormFrame nf)
     | Raise e1, Raise e2 => e1 = e2
     | _, _ => False
     end.
Proof.
  cbn zeta.
  destruct (h !! df) as [[d|nf]|] eqn:Hdf.
  - destruct (transform_data_at_Raw h df d app_name Hdf) as (added & Hh1 & Hr1).
    assert ((h ++ added) !! df = Some (RawFrame d)) as Hdf1.
    { rewrite lookup_app_l by (eapply lookup_lt_Some; eassumption).
      assumption. }
    rewrite Hh1.
    destruct (transform_data_at_Raw (h ++ added) df d app_name Hdf1)
      as (added' & Hh2 & Hr2).
    rewrite Hh2. split.
    { intros a Ha. rewrite <- app_assoc. apply lookup_app_l. assumption. }
    destruct (transform_data d app_name) as [nf|e] eqn:Ht.
    + destruct Hr1 as (a1 & -> & Hle1 & Ha1).
      destruct Hr2 as (a2 & -> & Hle2 & Ha2).
      unfold Store in *. rewrite Ha2, Ha1. split; [reflexivity|].
      split; [|eauto].
      rewrite lookup_app_l by (eapply lookup_lt_Some; eassumption).
      assumption.
    + rewrite Hr1, Hr2. reflexivity.
  - assert (forall h', h' !! df = Some (NormFrame nf) ->
              transform_data_at h' df app_name = (h', Raise KeyError)) as Hn
      by (intros h' Hh'; unfold transform_data_at; rewrite Hh'; reflexivity).
    rewrite (Hn h Hdf). cbn [fst snd]. rewrite (Hn h Hdf). cbn [fst snd].
    auto.
  - assert (transform_data_at h df app_name = (h, Raise KeyError)) as Hn
      by (unfold transform_data_at; rewrite Hdf; reflexivity).
    rewrite Hn. cbn [fst snd]. rewrite Hn. cbn [fst snd]. auto.
Qed.

(** ** Exceptions inside the strategies *)






(** * Further properties of the collector *)

(** ** Properties of an output as a whole

    A property of lists of records that holds of the empty list, is kept by
    concatenation and holds of what one accepted submission contributes,
    holds of the output of every pass and of their concatenation.  [ok]
    bounds the creation times of the submissions a pass takes. *)

Section Composed.

Variable tz : Z -> Z.
Variable Q : list RawRecord -> Prop.
Variable ok : Z -> Prop.
Hypothesis Q_nil : Q [].
Hypothesis Q_app : forall a b, Q a -> Q b -> Q (a ++ b).
Hypothesis Q_item : forall tag s t ids,
  s_created_utc s = Val t -> ok t -> Q (collect_submission tz tag s ids).1.1.

Lemma items_loop_composed verdict tag l ids :
  (forall t, verdict t = Take -> ok t) ->
  Q (items_loop tz verdict tag l ids).1.1.
Proof.
  intros Hv. revert ids. induction l as [|[s|e] l IH]; intros ids; simpl;
    try apply Q_nil.
  destruct (s_created_utc s) as [created|] eqn:Hc; simpl; [|apply Q_nil].
  destruct (verdict created) eqn:Hvc; simpl; [|apply IH|apply Q_nil].
  pose proof (Q_item tag s created ids Hc (Hv _ Hvc)) as H.
  destruct (collect_submission tz tag s ids) as [[out ids1] [[]|e]];
    simpl in *; [|assumption].
  specialize (IH ids1).
  destruct (items_loop tz verdict tag l ids1) as [[more ids2] st2].
  simpl in *. apply Q_app; assumption.
Qed.

Lemma sorting_filters_composed method since fetch filters ids :
  (forall t, since <= t -> ok t) ->
  Q (sorting_filters tz method since fetch filters ids).1.1.
Proof.
  intros Hok.
  assert (forall t, sorting_verdict method since t = Take -> ok t) as Hv.
  { intros t. unfold sorting_verdict. destruct (Z.ltb_spec t since).
    - destruct (bool_decide (method = "new")); discriminate.
    - auto. }
  revert ids. induction filters as [|tf filters IH]; intros ids; simpl;
    [apply Q_nil|].
  rewrite sorting_items_loop.
  pose proof (items_loop_composed (sorting_verdict method since)
                (source_name method tf) (fetch tf) ids Hv) as H.
  destruct (items_loop tz _ _ (fetch tf) ids) as [[out ids1] [[]|e]];
    simpl in *; [|assumption].
  specialize (IH ids1).
  destruct (sorting_filters tz method since fetch filters ids1)
    as [[more ids2] st2].
  simpl in *. apply Q_app; assumption.
Qed.

Lemma collect_sorting_composed subreddit since ids method :
  (forall t, since <= t -> ok t) ->
  Q (collect_sorting tz subreddit since ids method).1.
Proof.
  intros Hok. unfold collect_sorting.
  destruct (getattr_listing subreddit method) as [fetch|]; simpl;
    [|apply Q_nil].
  pose proof (sorting_filters_composed method since fetch
                (time_filters method) ids Hok).
  destruct (sorting_filters tz method since fetch (time_filters method) ids)
    as [[data ids'] st]. assumption.
Qed.

Lemma search_each_composed query tag subreddit since terms ids :
  (forall t, since <= t -> ok t) ->
  Q (search_each tz query tag subreddit since terms ids).1.
Proof.
  intros Hok.
  assert (forall t, search_verdict since t = Take -> ok t) as Hv.
  { intros t. unfold search_verdict. destruct (Z.ltb_spec t since);
      [discriminate|auto]. }
  revert ids. induction terms as [|term terms IH]; intros ids; simpl;
    [apply Q_nil|].
  rewrite search_items_loop.
  pose proof (items_loop_composed (search_verdict since) (tag term)
                (sub_search subreddit (query term) "year") ids Hv) as H.
  destruct (items_loop tz _ _ _ ids) as [[out ids1] st]. simpl in *.
  specialize (IH ids1).
  destruct (search_each tz query tag subreddit since terms ids1) as [more ids2].
  simpl in *. apply Q_app; assumption.
Qed.

Lemma monthly_loop_composed since fuel subreddit end_ : forall start ids r,
  (forall t, since <= t -> ok t) -> since <= start ->
  monthly_loop tz fuel subreddit start end_ ids = Ok r -> Q r.1.
Proof.
  pose proof month_positive as Hm.
  induction fuel as [|fuel IH]; intros start ids r Hok Hle; simpl.
  - intros [= <-]. apply Q_nil.
  - destruct (Z.ltb_spec start end_); [|intros [= <-]; apply Q_nil].
    destruct (Datetime.fromtimestamp tz start) as [d1|]; simpl; [|discriminate].
    destruct (Datetime.fromtimestamp tz (Z.min (start + MONTH) end_)) as [d2|];
      simpl; [|discriminate].
    rewrite monthly_items_loop.
    match goal with |- context [items_loop tz ?v ?t ?l ids] =>
      assert (Q (items_loop tz v t l ids).1.1) as Hitems;
      [|destruct (items_loop tz v t l ids) as [[out ids1] st]] end.
    { apply items_loop_composed. intros t. unfold monthly_verdict.
      destruct (Z.ltb_spec t start); simpl; [discriminate|].
      intros _. apply Hok. lia. }
    simpl in Hitems.
    destruct (monthly_loop tz fuel subreddit (Z.min (start + MONTH) end_) end_ ids1)
      as [rest|] eqn:Hrest; simpl; [|discriminate].
    intros [= <-]. simpl. apply Q_app; [assumption|].
    eapply IH; [exact Hok| |exact Hrest]. lia.
Qed.

Lemma collect_all_composed now now' subreddit all_data :
  (forall since t, one_year_ago tz now = Ok since -> since <= t -> ok t) ->
  collect_all tz now now' subreddit = Ok all_data -> Q all_data.
Proof.
  intros Hsince. unfold collect_all, collect_monthly_paginated.
  destruct (one_year_ago tz now) as [since|]; cbn [exc_bind]; [|discriminate].
  pose proof (fun t => Hsince since t eq_refl) as Hok. clear Hsince.
  destruct (Datetime.fromtimestamp tz since) as [start_dt|]; cbn [exc_bind];
    [|discriminate].
  destruct (monthly_loop _ _ _ _ _ _) as [[monthly ids0]|] eqn:Hm;
    cbn [exc_bind]; [|discriminate].
  apply (monthly_loop_composed since) in Hm; [|exact Hok|lia].
  cbn [fst] in Hm.
  repeat match goal with
  | |- context [collect_sorting tz ?s ?c ?i ?m] =>
      pose proof (collect_sorting_composed s c i m Hok);
      destruct (collect_sorting tz s c i m) as [? ?]
  end.
  match goal with
  | |- context [collect_search_posts tz ?s ?c ?i] =>
      pose proof (search_each_composed (fun t => t) (fun t => "search_" +:+ t)
                    s c (search_terms ++ compound_terms) i Hok);
      fold (collect_search_posts tz s c i) in *;
      destruct (collect_search_posts tz s c i) as [? ?]
  end.
  match goal with
  | |- context [collect_flair_posts tz ?s ?c ?i] =>
      pose proof (search_each_composed (fun f => "flair:" +:+ f)
                    (fun f => "flair_" +:+ f) s c flairs i Hok);
      fold (collect_flair_posts tz s c i) in *;
      destruct (collect_flair_posts tz s c i) as [? ?]
  end.
  cbn [fst] in *. intros [= <-]. repeat apply Q_app; assumption.
Qed.

End Composed.

(** ** What one accepted submission contributes *)

Lemma submission_record_fields tz s r :
  submission_record tz s = Ok (Some r) ->
  exists i t title,
    s_id s = Val i /\ s_created_utc s = Val t /\ s_title s = Val title
    /\ r_id r = i /\ r_timestamp r = t /\ r_title r = Some title
    /\ r_type r = "post" /\ r_source r = None.
Proof.
  unfold submission_record. intros H.
  destruct (s_created_utc s) as [t|]; simpl in H; [|discriminate].
  destruct (Datetime.fromtimestamp tz t) as [dt|]; simpl in H; [|discriminate].
  destruct (s_is_self s) as [b|]; simpl in H; [|discriminate].
  destruct (if b then read (s_selftext s) else Ok "") as [x|]; simpl in H;
    [|discriminate].
  destruct (s_title s) as [title|]; simpl in H; [|discriminate].
  destruct (Text.len (Text.strip (title +:+ " " +:+ x)) <? 5); [discriminate|].
  destruct (s_id s) as [i|]; simpl in H; [|discriminate].
  repeat exc_step; try discriminate. injection H as <-. simpl.
  exists i, t, title. repeat split; reflexivity.
Qed.

Lemma comment_record_fields tz c p r :
  comment_record tz c p = Ok (Some r) ->
  exists i title,
    s_id p = Val i /\ s_title p = Val title /\ r_type r = "comment"
    /\ r_parent_submission_id r = Some i
    /\ r_parent_submission_title r = Some title
    /\ r_source r = None.
Proof.
  unfold comment_record. intros H.
  destruct (c_body c) as [b|]; simpl in H; [|discriminate].
  destruct ((Text.len (Text.strip b) <? 5) || bool_decide (b = DELETED)
            || bool_decide (b = REMOVED)); [discriminate|].
  destruct (c_created_utc c) as [t|]; simpl in H; [|discriminate].
  destruct (Datetime.fromtimestamp tz t) as [dt|]; simpl in H; [|discriminate].
  destruct (c_id c); simpl in H; [|discriminate].
  destruct (c_score c); simpl in H; [|discriminate].
  destruct (c_replies c); simpl in H;
    destruct (c_permalink c); simpl in H;
    destruct (s_id p) as [i|]; simpl in H; try discriminate;
    destruct (s_title p) as [title|]; simpl in H; try discriminate;
    injection H as <-; simpl; exists i, title; repeat split; reflexivity.
Qed.

Lemma add_comments_sublist l ids : (add_comments l ids).1 `sublist_of` l.
Proof.
  revert ids. induction l as [|r l IH]; intros ids; simpl; [constructor|].
  destruct (decide (r_id r ∈ ids)); [apply sublist_cons, IH|].
  specialize (IH ({[r_id r]} ∪ ids)).
  destruct (add_comments l ({[r_id r]} ∪ ids)) as [more ids'].
  simpl in *. apply sublist_skip. assumption.
Qed.

(** Whatever [process_comments] returns is made of extracted comments of
    the submission, in the order of the list they were read from. *)
Lemma process_comments_sublist tz s i l :
  s_id s = Val i -> process_comments tz s = Ok l ->
  exists comments, l = harvested tz s comments.
Proof.
  intros Hid. unfold process_comments, process_comments_body, harvested.
  destruct (s_comments s) as [[f|]|]; simpl.
  - destruct (cf_replace_more f ;;; cf_list f) as [all|e].
    + pose proof (extract_comments_ok tz s i all Hid) as Hok.
      destruct (extract_comments tz s all) as [data st] eqn:He.
      simpl in Hok. subst st. intros [= <-]. exists all. rewrite He.
      reflexivity.
    + rewrite Hid. simpl.
      destruct (cf__comments f) as [[loaded|]|]; simpl.
      * pose proof (extract_comments_ok tz s i loaded Hid) as Hok.
        destruct (extract_comments tz s loaded) as [data st] eqn:He.
        simpl in Hok. subst st. intros [= <-]. exists loaded. rewrite He.
        reflexivity.
      * intros [= <-]. exists []. reflexivity.
      * intros [= <-]. exists []. reflexivity.
  - rewrite Hid. simpl. intros [= <-]. exists []. reflexivity.
  - rewrite Hid. simpl. intros [= <-]. exists []. reflexivity.
Qed.

(** The contribution of one submission: nothing, or its post followed by
    some of its extracted replies, in their order. *)
Lemma collect_submission_shape tz tag s ids :
  (collect_submission tz tag s ids).1.1 = []
  \/ exists sid post comments kept,
       s_id s = Val sid
       /\ submission_record tz s = Ok (Some post)
       /\ kept `sublist_of` harvested tz s comments
       /\ (collect_submission tz tag s ids).1.1 = set_source tag post :: kept.
Proof.
  unfold collect_submission.
  destruct (s_id s) as [sid|] eqn:Hid; simpl; [|auto].
  destruct (decide (sid ∈ ids)); simpl; [auto|].
  destruct (extract_submission_data tz s) as [[post|]|] eqn:Hp; simpl; auto.
  apply extract_submission_data_Some in Hp. right.
  destruct (process_comments_total tz s sid Hid) as [cs Hcs]. rewrite Hcs.
  destruct (process_comments_sublist tz s sid cs Hid Hcs) as [comments ->].
  pose proof (add_comments_sublist (harvested tz s comments) ({[sid]} ∪ ids)).
  destruct (add_comments (harvested tz s comments) ({[sid]} ∪ ids))
    as [kept ids2]. simpl in *.
  exists sid, post, comments, kept. auto.
Qed.

Lemma harvested_fields tz s i title comments r :
  s_id s = Val i -> s_title s = Val title -> r ∈ harvested tz s comments ->
  r_type r = "comment" /\ r_parent_submission_id r = Some i
  /\ r_parent_submission_title r = Some title
  /\ r_source r = Some ("comment_in_" +:+ i).
Proof.
  intros Hid Ht Hr.
  destruct (extract_comments_from tz s i comments r Hid Hr)
    as (c & r0 & _ & Hc & ->).
  apply extract_comment_data_Some, comment_record_fields in Hc
    as (i' & title' & Hid' & Ht' & Hty & Hpid & Hpt & _).
  rewrite Hid in Hid'. rewrite Ht in Ht'. injection Hid' as <-.
  injection Ht' as <-. simpl. auto.
Qed.

(** ** Replies and their post *)

Lemma replies_follow_app a b :
  replies_follow_their_post a -> replies_follow_their_post b ->
  replies_follow_their_post (a ++ b).
Proof.
  intros Ha Hb i r Hi Hr.
  destruct (decide (i < length a)%nat) as [Hlt|Hge].
  - rewrite lookup_app_l in Hi by assumption.
    destruct (Ha i r Hi Hr) as (j & p & Hj & Hp & H).
    exists j, p. split; [assumption|]. split; [|assumption].
    rewrite lookup_app_l by lia. assumption.
  - rewrite lookup_app_r in Hi by lia.
    destruct (Hb _ r Hi Hr) as (j & p & Hj & Hp & H).
    exists (length a + j)%nat, p. split; [lia|]. split; [|assumption].
    rewrite lookup_app_r by lia.
    replace (length a + j - length a)%nat with j by lia. assumption.
Qed.

Lemma replies_follow_item tz tag s ids :
  replies_follow_their_post (collect_submission tz tag s ids).1.1.
Proof.
  destruct (collect_submission_shape tz tag s ids)
    as [->|(sid & post & comments & kept & Hid & Hpost & Hkept & ->)].
  { intros i r Hi. destruct i; discriminate Hi. }
  apply submission_record_fields in Hpost
    as (i' & t & title & Hid' & _ & Ht & Hrid & _ & Hrt & Hty & _).
  rewrite Hid in Hid'. injection Hid' as <-.
  intros [|i] r Hi Hr; simpl in Hi.
  - injection Hi as <-. simpl in Hr. rewrite Hty in Hr. discriminate Hr.
  - assert (r ∈ harvested tz s comments) as Hin.
    { eapply elem_of_sublist; [|exact Hkept].
      eapply list_elem_of_lookup_2. exact Hi. }
    destruct (harvested_fields tz s sid title comments r Hid Ht Hin)
      as (_ & Hpid & Hpt & Hsrc).
    exists 0%nat, (set_source tag post). split; [lia|].
    split; [reflexivity|]. simpl. rewrite Hrid, Hrt. auto.
Qed.

Lemma tagged_item tz tag s ids :
  Forall tagged (collect_submission tz tag s ids).1.1.
Proof.
  destruct (collect_submission_shape tz tag s ids)
    as [->|(sid & post & comments & kept & Hid & Hpost & Hkept & ->)];
    [constructor|].
  apply submission_record_fields in Hpost
    as (i' & t & title & Hid' & _ & Ht & Hrid & _ & Hrt & Hty & _).
  constructor.
  - split; [simpl; eauto|]. left. exact Hty.
  - apply Forall_forall. intros r Hr.
    assert (r ∈ harvested tz s comments) as Hin
      by (eapply elem_of_sublist; eassumption).
    destruct (harvested_fields tz s sid title comments r Hid Ht Hin)
      as (Hc & _ & _ & Hsrc).
    split; [rewrite Hsrc; eauto|]. right. exact Hc.
Qed.

Lemma posts_since_item tz cutoff tag s t ids :
  s_created_utc s = Val t -> cutoff <= t ->
  posts_since cutoff (collect_submission tz tag s ids).1.1.
Proof.
  intros Hc Hle.
  destruct (collect_submission_shape tz tag s ids)
    as [->|(sid & post & comments & kept & Hid & Hpost & Hkept & ->)];
    [constructor|].
  apply submission_record_fields in Hpost
    as (i' & t' & title & Hid' & Hc' & Ht & Hrid & Hts & Hrt & Hty & _).
  rewrite Hc in Hc'. injection Hc' as <-.
  constructor.
  - intros _. simpl. rewrite Hts. assumption.
  - apply Forall_forall. intros r Hr.
    assert (r ∈ harvested tz s comments) as Hin
      by (eapply elem_of_sublist; eassumption).
    destruct (harvested_fields tz s sid title comments r Hid Ht Hin)
      as (Hcm & _). rewrite Hcm. discriminate.
Qed.

Lemma starts_with_post_item tz tag s ids :
  starts_with_post (collect_submission tz tag s ids).1.1.
Proof.
  destruct (collect_submission_shape tz tag s ids)
    as [->|(sid & post & comments & kept & Hid & Hpost & Hkept & ->)];
    [exact I|].
  apply submission_record_fields in Hpost
    as (i' & t & title & _ & _ & _ & _ & _ & _ & Hty & _).
  exact Hty.
Qed.

Lemma starts_with_post_app a b :
  starts_with_post a -> starts_with_post b -> starts_with_post (a ++ b).
Proof. destruct a; simpl; auto. Qed.

(** In a run nothing is removed by the clean-up pass: the raw snapshot is
    a rearrangement of the records collected. *)
Lemma run_snapshot_permutation tz datetime64 sorter now now' subreddit
    all_data df :
  collect_all tz now now' subreddit = Ok all_data ->
  process_dataframe datetime64 sorter all_data = Ok df ->
  df_rows df ≡ₚ all_data.
Proof.
  intros Hall Hdf. apply process_dataframe_Ok in Hdf as (-> & _).
  rewrite (sort_values_perm sorter).
  rewrite drop_duplicates_NoDup; [reflexivity| |].
  - eapply collect_all_NoDup. eassumption.
  - intros r _. apply not_elem_of_empty.
Qed.

(** X1: in the records collected by a run, every comment comes after a
    post of the run to which it refers (its [parent_submission_id] is the
    [id] of that post, its [parent_submission_title] the title of that
    post, its source tag [comment_in_<id>]), and every record carries a
    source tag and is a post or a comment.  The raw snapshot, which holds
    the same records in another order, contains the post of each of its
    comments. *)
Theorem replies_refer_to_a_collected_post (tz : Z -> Z)
    (datetime64 : list (option Z) -> bool) (sorter : Sorter)
    (now now' : Z) (subreddit : Subreddit) (all_data : list RawRecord) :
  collect_all tz now now' subreddit = Ok all_data ->
  replies_follow_their_post all_data
  /\ Forall tagged all_data
  /\ forall df, process_dataframe datetime64 sorter all_data = Ok df ->
       forall r, r ∈ df_rows df -> r_type r = "comment" ->
         exists p, p ∈ df_rows df /\ r_type p = "post"
                   /\ r_parent_submission_id r = Some (r_id p)
                   /\ r_parent_submission_title r = r_title p.
Proof.
  intros Hall.
  assert (replies_follow_their_post all_data) as Hfollow.
  { apply (collect_all_composed tz replies_follow_their_post (fun _ => True))
      with (now := now) (now' := now') (subreddit := subreddit); auto.
    - intros i r Hi. destruct i; discriminate Hi.
    - apply replies_follow_app.
    - intros; apply replies_follow_item. }
  split; [exact Hfollow|]. split.
  - apply (collect_all_composed tz (Forall tagged) (fun _ => True))
      with (now := now) (now' := now') (subreddit := subreddit); auto.
    + intros a b Ha Hb. apply Forall_app. auto.
    + intros; apply tagged_item.
  - intros df Hdf r Hr Hc.
    pose proof (run_snapshot_permutation _ _ _ _ _ _ _ _ Hall Hdf) as Hperm.
    rewrite Hperm in Hr. apply list_elem_of_lookup in Hr as [i Hi].
    destruct (Hfollow i r Hi Hc) as (j & p & _ & Hp & Hty & Hpid & Hpt & _).
    exists p. split; [|auto]. rewrite Hperm.
    eapply list_elem_of_lookup_2. exact Hp.
Qed.

Lemma replies_refer_to_a_collected_post_witness :
  exists all_data,
    collect_all utc sample_now sample_now sample_subreddit = Ok all_data
    /\ (r_id <$> all_data) = ["p1"; "c1"; "p2"; "c7"; "p3"]
    /\ (r_parent_submission_id <$> all_data)
       = [None; Some "p1"; None; Some "p2"; None]
    /\ replies_follow_their_post all_data.
Proof.
  destruct (collect_all utc sample_now sample_now sample_subreddit)
    as [all_data|] eqn:Hall; [|vm_compute in Hall; discriminate Hall].
  exists all_data. split; [reflexivity|].
  destruct (replies_refer_to_a_collected_post utc datetime64_ns merge_sorter
              _ _ _ _ Hall) as [Hfollow _].
  split; [|split; [|exact Hfollow]];
    vm_compute in Hall; injection Hall as <-; reflexivity.
Defined.

(** *** The cutoff *)

(** Where the zone has one offset, reading a wall-clock time back gives
    the instant it was read at. *)
Lemma timestamp_fixed_offset tz offset dt :
  (forall t, tz t = offset) -> Datetime.timestamp tz dt = dt - offset.
Proof.
  intros H. unfold Datetime.timestamp. rewrite !H.
  replace (dt + offset - dt) with offset by lia.
  replace (dt - offset + offset =? dt) with true
    by (symmetry; apply Z.eqb_eq; lia).
  replace (dt - offset - 86400 + offset - (dt - offset - 86400))
    with offset by lia.
  rewrite Z.eqb_refl. reflexivity.
Qed.

(** The cutoff is the clock less 365 days when the zone has the same
    offset now, at the cutoff, a day before it, and at the instant whose
    reading in UTC is the wall clock less 365 days. *)
Lemma one_year_ago_same_offset tz now since :
  one_year_ago tz now = Ok since ->
  tz (now - YEAR) = tz now ->
  tz (now - YEAR - 86400) = tz now ->
  tz (now + tz now - YEAR) = tz now ->
  since = now - YEAR.
Proof.
  unfold one_year_ago. intros H H1 H2 H3.
  destruct (Datetime.fromtimestamp tz now) as [local_now|] eqn:Hnow;
    cbn [exc_bind] in H; [|discriminate].
  apply fromtimestamp_Ok in Hnow as ->.
  destruct (now + tz now - YEAR <? Datetime.MIN); cbn [exc_bind] in H;
    [discriminate|].
  injection H as <-. unfold Datetime.timestamp. rewrite H3.
  replace (now + tz now - YEAR + tz now - (now + tz now - YEAR))
    with (tz now) by lia.
  replace (now + tz now - YEAR - tz now) with (now - YEAR) by lia.
  rewrite H1.
  replace (now - YEAR + tz now =? now + tz now - YEAR) with true
    by (symmetry; apply Z.eqb_eq; lia).
  rewrite H2.
  replace (now - YEAR - 86400 + tz now - (now - YEAR - 86400))
    with (tz now) by lia.
  rewrite Z.eqb_refl. reflexivity.
Qed.

(** X2: no post collected by a run was created before the cutoff that
    [main] computes, which is the instant found for the wall clock of the
    start of the run less 365 days.  It is 365 days before the clock when
    the offset of the zone is the same at the instants the computation
    looks at, and otherwise may differ from it by the change of the
    offset.  (Replies are not tested against the cutoff.) *)
Theorem posts_are_not_older_than_the_cutoff (tz : Z -> Z) (now now' : Z)
    (subreddit : Subreddit) (all_data : list RawRecord) :
  collect_all tz now now' subreddit = Ok all_data ->
  exists since,
    one_year_ago tz now = Ok since
    /\ posts_since since all_data
    /\ (tz (now - YEAR) = tz now ->
        tz (now - YEAR - 86400) = tz now ->
        tz (now + tz now - YEAR) = tz now ->
        since = now - YEAR).
Proof.
  intros Hall.
  destruct (one_year_ago tz now) as [since|] eqn:Hsince.
  2:{ unfold collect_all in Hall. rewrite Hsince in Hall. discriminate Hall. }
  exists since. split; [reflexivity|]. split.
  - revert Hall.
    apply (collect_all_composed tz (posts_since since) (fun t => since <= t)).
    + constructor.
    + intros a b Ha Hb. apply Forall_app. auto.
    + intros tag s t ids Hc Hle.
      apply (posts_since_item tz since tag s t ids Hc Hle).
    + intros since' t Hs Hle. rewrite Hsince in Hs. injection Hs as <-.
      exact Hle.
  - apply one_year_ago_same_offset. assumption.
Qed.

Lemma posts_are_not_older_than_the_cutoff_witness :
  one_year_ago eastern fall_back_now = Ok (fall_back_now - YEAR - 3600)
  /\ exists all_data,
       collect_all eastern fall_back_now fall_back_now
         {| sub_new := [Ok after_fall_back; Ok before_fall_back; Ok old_post];
            sub_hot := [Ok old_post; Ok before_fall_back];
            sub_top := fun _ => []; sub_controversial := fun _ => [];
            sub_search := fun _ _ => [] |} = Ok all_data
       /\ (r_id <$> all_data) = ["q2"; "q1"]
       /\ posts_since (fall_back_now - YEAR - 3600) all_data.
Proof.
  split; [vm_compute; reflexivity|].
  match goal with |- exists all_data, ?run = _ /\ _ =>
    destruct run as [all_data|] eqn:Hall;
      [|vm_compute in Hall; discriminate Hall];
    destruct (posts_are_not_older_than_the_cutoff _ _ _ _ _ Hall)
      as (since & Hsince & Hposts & _)
  end.
  exists all_data. split; [reflexivity|].
  split; [vm_compute in Hall; injection Hall as <-; reflexivity|].
  vm_compute in Hsince. injection Hsince as <-. exact Hposts.
Defined.

(** ** Columns *)

Lemma common_keys_keys k r : k ∈ common_keys -> k ∈ keys r.
Proof. intros H. unfold keys. apply elem_of_app. auto. Qed.

Lemma source_key r : "source" ∈ keys r <-> is_Some (r_source r).
Proof.
  unfold keys. rewrite !elem_of_app. split.
  - intros [H|[H|H]].
    + exfalso. revert H. compute_done.
    + exfalso. destruct (bool_decide (r_type r = "post")); revert H;
        compute_done.
    + destruct (r_source r); [eauto|inversion H].
  - intros [tag ->]. right. right. left.
Qed.

Lemma title_key r : "title" ∈ keys r <-> r_type r = "post".
Proof.
  unfold keys. rewrite !elem_of_app. split.
  - intros [H|[H|H]].
    + exfalso. revert H. compute_done.
    + destruct (bool_decide (r_type r = "post")) eqn:Hb.
      * apply bool_decide_eq_true in Hb. assumption.
      * exfalso. revert H. compute_done.
    + exfalso. destruct (r_source r); revert H; compute_done.
  - intros Hp. right. left. rewrite bool_decide_eq_true_2 by assumption.
    left.
Qed.

Lemma require_cases cs columns :
  (require cs columns = Ok tt /\ Forall (fun c => c ∈ columns) cs)
  \/ (require cs columns = Raise KeyError
      /\ exists c, c ∈ cs /\ c ∉ columns).
Proof.
  unfold require.
  destruct (forallb (fun c => bool_decide (c ∈ columns)) cs) eqn:H.
  - left. split; [reflexivity|]. apply Forall_forall. intros c Hc.
    rewrite forallb_forall in H. apply list_elem_of_In in Hc.
    apply H in Hc. apply bool_decide_eq_true in Hc. assumption.
  - right. split; [reflexivity|].
    apply not_true_iff_false in H. rewrite forallb_forall in H.
    destruct (decide (Forall (fun c => c ∈ columns) cs)) as [Hall|Hnot].
    + exfalso. apply H. intros c Hc. apply bool_decide_eq_true.
      rewrite Forall_forall in Hall. apply Hall, list_elem_of_In, Hc.
    + apply not_Forall_Exists in Hnot; [|intros c; apply _].
      apply Exists_exists in Hnot as (c & Hc & Hn). eauto.
Qed.

(** Case analysis on a column taken from an explicit list. *)
Ltac each_column H :=
  repeat (apply elem_of_cons in H as [->|H]); [..|inversion H].

(** On data without a source tag [process_dataframe] raises. *)
Lemma process_dataframe_untagged (datetime64 : list (option Z) -> bool)
    (sorter : Sorter) (data : list RawRecord) :
  Forall (fun r => r_source r = None) data ->
  process_dataframe datetime64 sorter data = Raise KeyError.
Proof.
  intros Hnone. unfold process_dataframe.
  destruct (require_cases ["id"] (df_columns (pd_DataFrame datetime64 data)))
    as [[-> _]|[-> _]]; [|reflexivity].
  destruct (require_cases ["timestamp_dt"]
              (df_columns (pd_DataFrame datetime64 data)))
    as [[-> _]|[-> _]]; [|reflexivity].
  cbn [exc_bind].
  match goal with |- context [require ?cs ?cols] =>
    destruct (require_cases cs cols) as [[_ Hall]|[-> _]] end;
    [|reflexivity].
  exfalso. rewrite Forall_forall in Hall.
  specialize (Hall "source" ltac:(compute_done)).
  apply elem_of_pd_DataFrame in Hall as (r & Hr & Hk).
  apply source_key in Hk as [tag Htag].
  rewrite Forall_forall in Hnone. rewrite (Hnone r Hr) in Htag.
  discriminate Htag.
Qed.

(** On data of which a record has a source tag it returns. *)
Lemma process_dataframe_tagged (datetime64 : list (option Z) -> bool)
    (sorter : Sorter) (data : list RawRecord) (r : RawRecord) :
  r ∈ data -> is_Some (r_source r) ->
  exists df, process_dataframe datetime64 sorter data = Ok df
             /\ df_rows df ≡ₚ drop_duplicates ∅ data.
Proof.
  intros Hr Hsrc.
  assert (forall c, c ∈ common_keys \/ c = "source" ->
            c ∈ df_columns (pd_DataFrame datetime64 data)) as Hcols.
  { intros c [Hc| ->]; apply elem_of_pd_DataFrame; exists r;
      (split; [assumption|]).
    - apply common_keys_keys. assumption.
    - apply source_key. assumption. }
  unfold process_dataframe.
  destruct (require_cases ["id"] (df_columns (pd_DataFrame datetime64 data)))
    as [[-> _]|[_ (c & Hc & Hn)]].
  2:{ exfalso. apply Hn, Hcols. each_column Hc; left; compute_done. }
  destruct (require_cases ["timestamp_dt"]
              (df_columns (pd_DataFrame datetime64 data)))
    as [[-> _]|[_ (c & Hc & Hn)]].
  2:{ exfalso. apply Hn, Hcols. each_column Hc; left; compute_done. }
  cbn [exc_bind].
  match goal with |- context [require ?cs ?cols] =>
    destruct (require_cases cs cols) as [[-> _]|[_ (c & Hc & Hn)]] end.
  2:{ exfalso. apply Hn, Hcols.
      each_column Hc; first [right; reflexivity|left; compute_done]. }
  cbn [exc_bind]. eexists. split; [reflexivity|].
  cbn [df_rows pd_DataFrame]. apply sort_values_perm.
Qed.

(** X3: [process_dataframe] returns exactly when some record of the data
    carries a source tag; on data without one, and so on the empty list, it
    raises [KeyError] (the frame has no [id] column, or no [source]
    column).  When it returns, its rows are the first occurrences of the
    identifiers, rearranged. *)
Theorem process_dataframe_needs_data (datetime64 : list (option Z) -> bool)
    (sorter : Sorter) (data : list RawRecord) :
  (Forall (fun r => r_source r = None) data ->
     process_dataframe datetime64 sorter data = Raise KeyError)
  /\ (forall r, r ∈ data -> is_Some (r_source r) ->
        exists df, process_dataframe datetime64 sorter data = Ok df
                   /\ df_rows df ≡ₚ drop_duplicates ∅ data).
Proof.
  split.
  - apply process_dataframe_untagged.
  - intros r. apply process_dataframe_tagged.
Qed.

Lemma process_dataframe_needs_data_witness :
  process_dataframe datetime64_ns merge_sorter [] = Raise KeyError
  /\ exists df, process_dataframe datetime64_ns merge_sorter
                  (collect_sorting utc sample_subreddit sample_since ∅ "new").1
                = Ok df.
Proof.
  destruct (process_dataframe_needs_data datetime64_ns merge_sorter [])
    as [Hempty _].
  split; [apply Hempty; constructor|].
  destruct (process_dataframe_needs_data datetime64_ns merge_sorter
              (collect_sorting utc sample_subreddit sample_since ∅ "new").1)
    as [_ Hsome].
  destruct (head (collect_sorting utc sample_subreddit sample_since ∅ "new").1)
    as [r|] eqn:Hr; [|vm_compute in Hr; discriminate Hr].
  destruct (Hsome r) as (df & Hdf & _).
  - apply head_Some_elem_of. exact Hr.
  - vm_compute in Hr. injection Hr as <-. eexists. reflexivity.
  - eauto.
Defined.

(** ** When normalization returns *)

Lemma rename_column_dropped c : c ∈ dropped_columns -> rename_column c = c.
Proof. intros Hc. unfold dropped_columns in Hc. each_column Hc; reflexivity. Qed.

Lemma rename_column_cases c :
  rename_column c = c \/ rename_column c ∈ ["review"; "review_datetime"; "upvote_count"].
Proof.
  unfold rename_column.
  repeat match goal with
         | |- context [bool_decide ?P] => destruct (bool_decide P)
         end; auto; right; compute_done.
Qed.

Lemma dropped_in_renamed c columns :
  c ∈ dropped_columns -> (c ∈ renamed_columns columns <-> c ∈ columns).
Proof.
  intros Hc. unfold renamed_columns.
  rewrite !elem_of_add_columns, list_elem_of_fmap. split.
  - intros [[(c' & Heq & Hc')|H]|H].
    + destruct (rename_column_cases c') as [Hid|Hren].
      * rewrite Hid in Heq. subst c'. assumption.
      * exfalso. rewrite <- Heq in Hren. unfold dropped_columns in Hc.
        each_column Hc; revert Hren; compute_done.
    + exfalso. unfold dropped_columns in Hc.
      each_column Hc; revert H; compute_done.
    + exfalso. unfold dropped_columns in Hc.
      each_column Hc; revert H; compute_done.
  - intros H. left. left. exists c. split; [|assumption].
    symmetry. apply rename_column_dropped. assumption.
Qed.

(** [transform_data] returns exactly when the frame has the columns it
    reads and the columns it drops; otherwise it raises [KeyError]. *)
Lemma transform_data_cases df app_name :
  (Forall (fun c => c ∈ df_columns df) columns_needed
   /\ exists nf, transform_data df app_name = Ok nf)
  \/ (transform_data df app_name = Raise KeyError
      /\ exists c, c ∈ columns_needed /\ c ∉ df_columns df).
Proof.
  unfold transform_data, rename_add_drop, columns_needed.
  match goal with |- context [require ?cs (df_columns df)] =>
    destruct (require_cases cs (df_columns df)) as [[-> H1]|[-> (c & Hc & Hn)]]
  end; cbn [exc_bind].
  2:{ right. split; [reflexivity|]. exists c. split; [|assumption].
      apply elem_of_app. auto. }
  cbn [str_lower dropna df_columns].
  destruct (require_cases dropped_columns (renamed_columns (df_columns df)))
    as [[-> H2]|[-> (c & Hc & Hn)]]; cbn [exc_bind].
  - left. split; [|eauto]. apply Forall_app. split; [assumption|].
    rewrite Forall_forall in *. intros c Hc.
    apply (dropped_in_renamed c _ Hc). auto.
  - right. split; [reflexivity|]. exists c. split.
    + apply elem_of_app. auto.
    + intros H. apply Hn. apply (dropped_in_renamed c _ Hc). assumption.
Qed.

Lemma strip_length s : (String.length (Text.strip s) <= String.length s)%nat.
Proof.
  assert (forall u, (String.length (Text.rstrip u) <= String.length u)%nat) as Hr.
  { induction u as [|c u IH]; simpl; [lia|].
    destruct (Text.rstrip u); [destruct (Text.isspace c)|]; simpl in *; lia. }
  assert (forall u, (String.length (Text.lstrip u) <= String.length u)%nat) as Hl.
  { induction u as [|c u IH]; simpl; [lia|].
    destruct (Text.isspace c); simpl; lia. }
  unfold Text.strip. specialize (Hr (Text.lstrip s)). specialize (Hl s). lia.
Qed.

Lemma complete_set_source tag r : complete r -> complete (set_source tag r).
Proof. intros H. exact H. Qed.

Lemma collect_all_complete tz now now' subreddit all_data :
  collect_all tz now now' subreddit = Ok all_data -> Forall complete all_data.
Proof.
  apply collect_all_Forall.
  - apply complete_set_source.
  - intros s r H. apply extract_submission_data_Some, submission_record_Some in H
      as (t & i & _ & Hc & _ & _ & _ & _ & dt & Hdt).
    unfold complete, notnull. rewrite Hc, Hdt. reflexivity.
  - intros c p r H. apply extract_comment_data_Some, comment_record_Some in H
      as (b & i & _ & Hc & _ & _ & _ & _ & _ & _ & dt & Hdt).
    unfold complete, notnull. rewrite Hc, Hdt. reflexivity.
Qed.

Lemma filter_complete rows :
  Forall complete rows -> filter (fun r => notnull r) rows = rows.
Proof.
  induction 1 as [|r rows Hr Hrows IH]; [reflexivity|].
  rewrite filter_cons. unfold complete in Hr.
  destruct (decide (notnull r)) as [_|Hn]; [f_equal; assumption|].
  rewrite Hr in Hn. exfalso. apply Hn. exact I.
Qed.

(** ** Persistence *)

Lemma calls_prefix host cs : (calls host cs).1 `prefix_of` cs.
Proof.
  induction cs as [|c cs IH]; simpl; [reflexivity|].
  destruct (host c) as [[]|e]; [|apply prefix_nil].
  destruct (calls host cs) as [done st]. simpl in *.
  apply prefix_cons. assumption.
Qed.

Lemma calls_returned host cs :
  Forall (fun c => host c = Ok tt) (calls host cs).1.
Proof.
  induction cs as [|c cs IH]; simpl; [constructor|].
  destruct (host c) as [[]|e] eqn:Hc; [|constructor].
  destruct (calls host cs) as [done st]. simpl in *.
  constructor; assumption.
Qed.

Lemma calls_Ok host cs :
  (calls host cs).2 = Ok tt ->
  (calls host cs).1 = cs /\ Forall (fun c => host c = Ok tt) cs.
Proof.
  induction cs as [|c cs IH]; simpl; [split; [reflexivity|constructor]|].
  destruct (host c) as [[]|e] eqn:Hc; [|discriminate].
  destruct (calls host cs) as [done st]. simpl in *.
  intros H. destruct (IH H) as [-> Hall]. split; [reflexivity|].
  constructor; assumption.
Qed.

Lemma calls_all_return host cs :
  Forall (fun c => host c = Ok tt) cs -> calls host cs = (cs, Ok tt).
Proof.
  induction 1 as [|c cs Hc _ IH]; simpl; [reflexivity|].
  rewrite Hc, IH. reflexivity.
Qed.

Lemma calls_Raise host cs c e :
  c ∈ cs -> host c = Raise e -> exists e', (calls host cs).2 = Raise e'.
Proof.
  induction cs as [|c' cs IH]; intros Hc He; [inversion Hc|]. simpl.
  destruct (host c') as [[]|e'] eqn:Hc'; [|eauto].
  apply elem_of_cons in Hc as [->|Hc]; [congruence|].
  destruct (calls host cs) as [done st]. simpl in *. auto.
Qed.

Lemma calls_app host a b :
  (calls host (a ++ b)).2 = ((calls host a).2 ;;; (calls host b).2).
Proof.
  induction a as [|c a IH]; simpl.
  - destruct (calls host b) as [done [[]|e]]; reflexivity.
  - destruct (host c) as [[]|e]; [|reflexivity].
    destruct (calls host (a ++ b)) as [done st].
    destruct (calls host a) as [done' st']. simpl in *. assumption.
Qed.

(** What [save_raw_data] and [load_data] do on their folder: the outcome
    is that of the calls outside the [try]; what is written is an initial
    part of them, all of them when they return, with the database when it
    could be written too. *)
Lemma save_cases host folder content :
  (save host folder content).2 = (calls host (unguarded folder content)).2
  /\ Forall (fun c => host c = Ok tt) (save host folder content).1
  /\ (save host folder content).1 `sublist_of` files folder content
  /\ match (save host folder content).2 with
     | Ok _ => unguarded folder content `prefix_of` (save host folder content).1
     | Raise _ =>
         (save host folder content).1
         = (calls host (unguarded folder content)).1
     end.
Proof.
  unfold save, files. fold (unguarded folder content).
  pose proof (calls_prefix host (unguarded folder content)) as Hp.
  pose proof (calls_returned host (unguarded folder content)) as Hr.
  pose proof (calls_Ok host (unguarded folder content)) as Hok.
  destruct (calls host (unguarded folder content)) as [done [[]|e]];
    cbn [fst snd] in *.
  - destruct (Hok eq_refl) as [-> _].
    destruct (host (to_sql folder content)) as [[]|e] eqn:Hsql; cbn [fst snd].
    + split; [reflexivity|]. split.
      * apply Forall_app. split; [assumption|]. constructor; [assumption|].
        constructor.
      * split; [reflexivity|]. apply prefix_app_r. reflexivity.
    + split; [reflexivity|]. split; [assumption|].
      split; [|reflexivity]. apply sublist_inserts_r. reflexivity.
  - split; [reflexivity|]. split; [assumption|].
    split; [|reflexivity]. apply sublist_inserts_r.
    destruct Hp as [rest ->]. apply sublist_inserts_r. reflexivity.
Qed.

Lemma process_dataframe_dtype datetime64 sorter data df :
  process_dataframe datetime64 sorter data = Ok df ->
  df_datetime64 df = datetime64 (r_timestamp_dt <$> data).
Proof.
  unfold process_dataframe.
  repeat (match goal with |- context [exc_bind ?c _] => destruct c as [[]|] end;
          cbn [exc_bind]; [|discriminate]).
  intros [= <-]. reflexivity.
Qed.

Lemma transform_data_dtype df app_name nf :
  transform_data df app_name = Ok nf -> nf_datetime64 nf = df_datetime64 df.
Proof.
  unfold transform_data, rename_add_drop.
  repeat (match goal with |- context [exc_bind ?c _] => destruct c as [[]|] end;
          cbn [exc_bind]; [|discriminate]).
  intros [= <-]. reflexivity.
Qed.

(** What a run does, from what it collected. *)
Lemma main_of_collected tz datetime64 sorter host now now' app_name subreddit
    app_path all_data :
  collect_all tz now now' subreddit = Ok all_data ->
  (all_data = [] ->
     main tz datetime64 sorter host now now' app_name subreddit app_path
     = ({| raw_data := None; processed_data := None; written := [] |},
        Raise KeyError))
  /\ (all_data <> [] ->
        exists df nf,
          process_dataframe datetime64 sorter all_data = Ok df
          /\ transform_data df app_name = Ok nf
          /\ df_rows df ≡ₚ all_data
          /\ nf_rows nf = normalize app_name <$> df_rows df
          /\ nf_datetime64 nf = datetime64 (r_timestamp_dt <$> all_data)
          /\ main tz datetime64 sorter host now now' app_name subreddit app_path
             = let '(raw_calls, saved) := save_raw_data host df app_path in
               match saved with
               | Raise e =>
                   ({| raw_data := Some df; processed_data := None;
                       written := raw_calls |}, Raise e)
               | Ok _ =>
                   let '(processed_calls, loaded) := load_data host nf app_path in
                   ({| raw_data := Some df; processed_data := Some nf;
                       written := raw_calls ++ processed_calls |},
                    loaded ;;; run_sanity_tests nf ;;; host reddit_close)
               end).
Proof.
  intros Hall. split.
  - intros ->. unfold main. rewrite Hall. cbn [exc_bind].
    rewrite process_dataframe_untagged by constructor. reflexivity.
  - intros Hne.
    assert (Forall tagged all_data /\ starts_with_post all_data) as [Htag Hpost].
    { split.
      - apply (collect_all_composed tz (Forall tagged) (fun _ => True))
          with (now := now) (now' := now') (subreddit := subreddit); auto.
        + intros a b Ha Hb. apply Forall_app. auto.
        + intros; apply tagged_item.
      - apply (collect_all_composed tz starts_with_post (fun _ => True))
          with (now := now) (now' := now') (subreddit := subreddit); auto.
        + exact I.
        + apply starts_with_post_app.
        + intros; apply starts_with_post_item. }
    destruct all_data as [|r0 rest]; [contradiction|]. simpl in Hpost.
    apply Forall_cons in Htag as [[Hsrc _] _].
    destruct (process_dataframe_tagged datetime64 sorter (r0 :: rest) r0
                ltac:(left) Hsrc) as (df & Hdf & _).
    pose proof (run_snapshot_permutation _ _ _ _ _ _ _ _ Hall Hdf) as Hperm.
    destruct (transform_data_cases df app_name)
      as [[_ [nf Hnf]]|[_ (c & Hc & Hn)]].
    + exists df, nf. split; [assumption|]. split; [assumption|].
      split; [assumption|]. split; [|split].
      * rewrite (transform_data_Ok _ _ _ Hnf). f_equal.
        apply filter_complete. rewrite Hperm.
        eapply collect_all_complete. eassumption.
      * rewrite (transform_data_dtype _ _ _ Hnf).
        apply process_dataframe_dtype in Hdf. exact Hdf.
      * unfold main. rewrite Hall. cbn [exc_bind]. rewrite Hdf.
        destruct (save_raw_data host df app_path) as [raw_calls [[]|e]];
          cbn [exc_bind]; [|reflexivity].
        rewrite Hnf. reflexivity.
    + exfalso. apply Hn.
      apply process_dataframe_Ok in Hdf as (_ & -> & _).
      apply elem_of_pd_DataFrame. exists r0. split; [left|].
      unfold columns_needed, dropped_columns in Hc. rewrite elem_of_app in Hc.
      destruct Hc as [Hc|Hc]; each_column Hc;
        first [ apply common_keys_keys; compute_done
              | apply source_key; assumption
              | apply title_key; assumption ].
Qed.

(** X4: a run writes the raw snapshot, then normalizes, then writes the
    processed set; in each folder the order is directory, CSV, Excel,
    database.  Only a failure of the write to the database is caught: any
    other call that raises ends the run, and what was written before it
    stays.  So the raw files can be there without the processed set, never
    the converse: a file of the processed set is written only after the
    directory, the CSV and the Excel file of the raw snapshot.  When the
    strategies have collected nothing, [process_dataframe] raises
    [KeyError] and nothing is written.  Otherwise the raw snapshot holds
    every collected record once, the normalization cannot raise, and it
    removes no row. *)
Theorem run_writes_raw_before_processed (tz : Z -> Z)
    (datetime64 : list (option Z) -> bool) (sorter : Sorter)
    (host : Call -> exc unit) (now now' : Z) (app_name : string)
    (subreddit : Subreddit) (app_path : string) (all_data : list RawRecord) :
  collect_all tz now now' subreddit = Ok all_data ->
  let run := main tz datetime64 sorter host now now' app_name subreddit app_path in
  (all_data = [] ->
     run = ({| raw_data := None; processed_data := None; written := [] |},
            Raise KeyError))
  /\ (all_data <> [] ->
        exists df nf,
          raw_data run.1 = Some df
          /\ df_rows df ≡ₚ all_data
          /\ transform_data df app_name = Ok nf
          /\ length (nf_rows nf) = length all_data
          /\ written run.1
             `sublist_of` files (RawFolder app_path) (Raw df)
                          ++ files (ProcessedFolder app_path) (Processed nf)
          /\ Forall (fun c => host c = Ok tt) (written run.1)
          /\ (forall c e, c ∈ unguarded (RawFolder app_path) (Raw df) ->
                host c = Raise e ->
                processed_data run.1 = None
                /\ written run.1 `prefix_of` unguarded (RawFolder app_path) (Raw df)
                /\ exists e', run.2 = Raise e')
          /\ (forall c, c ∈ files (ProcessedFolder app_path) (Processed nf) ->
                c ∈ written run.1 ->
                processed_data run.1 = Some nf
                /\ unguarded (RawFolder app_path) (Raw df)
                   `prefix_of` written run.1)).
Proof.
  intros Hall run.
  destruct (main_of_collected tz datetime64 sorter host now now' app_name
              subreddit app_path all_data Hall) as [Hnil Hsome].
  split; [exact Hnil|]. intros Hne.
  destruct (Hsome Hne) as (df & nf & _ & Hnf & Hperm & Hrows & _ & Hmain).
  exists df, nf. subst run. rewrite Hmain. clear Hmain Hnil Hsome.
  unfold save_raw_data, load_data.
  destruct (save_cases host (RawFolder app_path) (Raw df))
    as (Hst & Hret & Hsub & Hcase).
  destruct (save_cases host (ProcessedFolder app_path) (Processed nf))
    as (Hst' & Hret' & Hsub' & Hcase').
  assert (forall c, c ∈ files (ProcessedFolder app_path) (Processed nf) ->
            c ∉ files (RawFolder app_path) (Raw df)) as Hdisjoint.
  { intros c Hc Hc'. unfold files, unguarded in Hc, Hc'.
    rewrite !elem_of_app, !elem_of_cons, !elem_of_nil in Hc, Hc'.
    intuition (subst; discriminate). }
  destruct (save host (RawFolder app_path) (Raw df)) as [raw_calls [[]|e]];
    cbn [fst snd] in *.
  - destruct (save host (ProcessedFolder app_path) (Processed nf))
      as [processed_calls loaded]; cbn [fst snd raw_data processed_data written]
      in *.
    split; [reflexivity|]. split; [assumption|]. split; [assumption|].
    split; [rewrite Hrows, length_fmap, Hperm; reflexivity|].
    split; [apply sublist_app; assumption|].
    split; [apply Forall_app; split; assumption|]. split.
    + intros c e' Hc He. exfalso.
      destruct (calls_Raise host _ c e' Hc He) as [e'' He''].
      rewrite <- Hst in He''. discriminate He''.
    + intros c Hc Hw. split; [reflexivity|].
      apply prefix_app_r. assumption.
  - cbn [fst snd raw_data processed_data written].
    split; [reflexivity|]. split; [assumption|]. split; [assumption|].
    split; [rewrite Hrows, length_fmap, Hperm; reflexivity|].
    split; [apply sublist_inserts_r; assumption|].
    split; [assumption|]. split.
    + intros c e' Hc He. split; [reflexivity|]. split; [|eauto].
      rewrite Hcase. apply calls_prefix.
    + intros c Hc Hw. exfalso. apply (Hdisjoint c Hc).
      eapply elem_of_sublist; eassumption.
Qed.

Lemma run_writes_raw_before_processed_witness :
  exists df,
    let run := main utc datetime64_ns merge_sorter no_spreadsheet sample_now
                 sample_now "DoorDash" sample_subreddit "doordash" in
    raw_data run.1 = Some df
    /\ length (df_rows df) = 5%nat
    /\ processed_data run.1 = None
    /\ written run.1 = [ mkdir (RawFolder "doordash");
                         to_csv (RawFolder "doordash") (Raw df) ]
    /\ run.2 = Raise OSError.
Proof.
  destruct (collect_all utc sample_now sample_now sample_subreddit)
    as [all_data|] eqn:Hall; [|vm_compute in Hall; discriminate Hall].
  assert (length all_data = 5%nat) as Hlen
    by (vm_compute in Hall; injection Hall as <-; reflexivity).
  destruct (run_writes_raw_before_processed utc datetime64_ns merge_sorter
              no_spreadsheet _ _ "DoorDash" _ "doordash" _ Hall) as [_ Hsome].
  destruct Hsome as (df & nf & Hraw & Hperm & _ & _ & _ & _ & Hfail & _).
  { intros ->. discriminate Hlen. }
  exists df. intros run. split; [exact Hraw|].
  split; [rewrite Hperm; exact Hlen|].
  destruct (Hfail (to_excel (RawFolder "doordash") (Raw df)) OSError)
    as (Hnone & _ & _); [do 2 right; left|reflexivity|].
  split; [exact Hnone|].
  vm_compute in Hraw. injection Hraw as <-.
  split; vm_compute; reflexivity.
Defined.

(** ** The sanity tests on a run *)

Lemma normalize_not_short app_name r :
  text_ok r -> short_review (normalize app_name r) = false.
Proof.
  intros (t & Ht & Hlen & _). unfold short_review. simpl. rewrite Ht. simpl.
  apply Z.ltb_ge. unfold Text.len in *. rewrite lower_length.
  pose proof (strip_length t). lia.
Qed.

(** On a frame that has the required columns and whose rows have their
    text and timestamp, a text of five characters at least and no capital,
    the assertions left are the one on the number of rows and the one on
    the dtype of [review_datetime]. *)
Lemma run_sanity_tests_rows nf :
  Forall (fun c => c ∈ nf_columns nf) required_columns ->
  Forall present_and_lowercase (nf_rows nf) ->
  Forall (fun n => short_review n = false) (nf_rows nf) ->
  run_sanity_tests nf
  = if 10 <? Z.of_nat (length (nf_rows nf)) then assert (nf_datetime64 nf)
    else Raise AssertionError.
Proof.
  intros Hcols Hrows Hshort. unfold run_sanity_tests.
  assert (forall cs, Forall (fun c => c ∈ required_columns) cs ->
            require cs (nf_columns nf) = Ok tt) as Hreq.
  { intros cs Hcs. destruct (require_cases cs (nf_columns nf))
      as [[-> _]|[_ (c & Hc & Hn)]]; [reflexivity|].
    rewrite Forall_forall in Hcols, Hcs. exfalso. apply Hn, Hcols, Hcs, Hc. }
  rewrite (Hreq ["review"]) by (repeat constructor; compute_done).
  cbn [exc_bind].
  rewrite (forallb_true_Forall (fun n => negb (isnull (n_review n)))).
  2:{ eapply Forall_impl; [exact Hrows|].
      intros n (t & dt & -> & _). reflexivity. }
  cbn [assert exc_bind].
  rewrite (Hreq ["review_datetime"]) by (repeat constructor; compute_done).
  cbn [exc_bind].
  rewrite (forallb_true_Forall (fun n => negb (isnull (n_review_datetime n)))).
  2:{ eapply Forall_impl; [exact Hrows|].
      intros n (t & dt & _ & -> & _). reflexivity. }
  cbn [assert exc_bind].
  destruct (10 <? Z.of_nat (length (nf_rows nf))); cbn [assert exc_bind];
    [|reflexivity].
  rewrite (forallb_true_Forall (fun c => bool_decide (c ∈ nf_columns nf))).
  2:{ eapply Forall_impl; [exact Hcols|].
      intros c Hc. apply bool_decide_eq_true. exact Hc. }
  cbn [assert exc_bind].
  destruct (nf_datetime64 nf); cbn [assert exc_bind]; [|reflexivity].
  rewrite (Hreq ["data_source"; "app_name"])
    by (repeat constructor; compute_done).
  cbn [exc_bind].
  rewrite (forallb_true_Forall (fun n => negb (short_review n))).
  2:{ eapply Forall_impl; [exact Hshort|]. intros n ->. reflexivity. }
  cbn [assert exc_bind].
  rewrite (forallb_true_Forall (fun n => negb (uppercase_review n))).
  2:{ eapply Forall_impl; [exact Hrows|].
      intros n (t & dt & Ht & _ & Haz & _). unfold uppercase_review.
      rewrite Ht, Haz. reflexivity. }
  reflexivity.
Qed.

(** X5: the outcome of a run that has collected something.  The first call
    of the persistence layer that raises, the write to the database apart,
    ends the run with its exception, and the sanity tests are not run.
    When none raises, the sanity tests are run, of which a run can fail
    two only: the one on the number of rows, when ten records or fewer
    were collected, and the one on the dtype of [review_datetime], when
    the library did not give the datetimes of the collected records a
    datetime64 dtype.  The assertions on nulls, on the required columns,
    on short reviews and on upper case hold of every run.  When the tests
    pass, the outcome is that of the closing of the client. *)
Theorem run_ends_with_first_failure_or_tests (tz : Z -> Z)
    (datetime64 : list (option Z) -> bool) (sorter : Sorter)
    (host : Call -> exc unit) (now now' : Z) (app_name : string)
    (subreddit : Subreddit) (app_path : string) (all_data : list RawRecord) :
  collect_all tz now now' subreddit = Ok all_data -> all_data <> [] ->
  let run := main tz datetime64 sorter host now now' app_name subreddit app_path in
  exists df nf,
    raw_data run.1 = Some df
    /\ transform_data df app_name = Ok nf
    /\ run.2
       = ((calls host (unguarded (RawFolder app_path) (Raw df)
                         ++ unguarded (ProcessedFolder app_path) (Processed nf))).2 ;;;
          (if 10 <? Z.of_nat (length all_data)
           then assert (datetime64 (r_timestamp_dt <$> all_data))
           else Raise AssertionError) ;;;
          host reddit_close).
Proof.
  intros Hall Hne run.
  destruct (main_of_collected tz datetime64 sorter host now now' app_name
              subreddit app_path all_data Hall) as [_ Hsome].
  destruct (Hsome Hne) as (df & nf & Hdf & Hnf & Hperm & Hrows & Hdtype & Hmain).
  exists df, nf. subst run. rewrite Hmain. clear Hmain Hsome.
  rewrite calls_app. unfold save_raw_data, load_data.
  destruct (save_cases host (RawFolder app_path) (Raw df)) as (Hst & _).
  destruct (save_cases host (ProcessedFolder app_path) (Processed nf))
    as (Hst' & _).
  rewrite <- Hst, <- Hst'.
  destruct (save host (RawFolder app_path) (Raw df)) as [raw_calls [[]|e]];
    cbn [fst snd exc_bind raw_data]; [|auto].
  destruct (save host (ProcessedFolder app_path) (Processed nf))
    as [processed_calls [[]|e]]; cbn [fst snd exc_bind raw_data]; [|auto].
  split; [reflexivity|]. split; [assumption|].
  rewrite run_sanity_tests_rows.
  - rewrite Hrows, length_fmap, Hperm, Hdtype. reflexivity.
  - eapply transform_data_columns. eassumption.
  - eapply transform_data_present. eassumption.
  - rewrite Hrows. apply Forall_fmap. rewrite Hperm.
    eapply Forall_impl;
      [apply (collect_all_Forall tz text_ok) with (now := now) (now' := now')
         (subreddit := subreddit) (all_data := all_data)|].
    + apply text_ok_set_source.
    + intros s r H. apply (extract_submission_data_text tz s r H).
    + intros c p r H. apply (extract_comment_data_text tz c p r H).
    + assumption.
    + intros r Hr. apply normalize_not_short. assumption.
Qed.

Lemma run_ends_with_first_failure_or_tests_witness :
  (main utc datetime64_ns merge_sorter returning sample_now sample_now
     "DoorDash" sample_subreddit "doordash").2 = Raise AssertionError
  /\ (main utc datetime64_ns merge_sorter no_spreadsheet sample_now sample_now
        "DoorDash" sample_subreddit "doordash").2 = Raise OSError.
Proof.
  destruct (collect_all utc sample_now sample_now sample_subreddit)
    as [all_data|] eqn:Hall; [|vm_compute in Hall; discriminate Hall].
  assert (length all_data = 5%nat) as Hlen
    by (vm_compute in Hall; injection Hall as <-; reflexivity).
  assert (all_data <> []) as Hne by (intros ->; discriminate Hlen).
  split.
  - destruct (run_ends_with_first_failure_or_tests utc datetime64_ns
                merge_sorter returning _ _ "DoorDash" _ "doordash" _ Hall Hne)
      as (df & nf & _ & _ & ->).
    rewrite Hlen. reflexivity.
  - destruct (run_ends_with_first_failure_or_tests utc datetime64_ns
                merge_sorter no_spreadsheet _ _ "DoorDash" _ "doordash" _
                Hall Hne) as (df & nf & _ & _ & ->).
    reflexivity.
Defined.

(** ** First occurrences *)

Lemma drop_duplicates_first seen rows r :
  r ∈ drop_duplicates seen rows ->
  exists l1 l2, rows = l1 ++ r :: l2 /\ (r_id r ∉ seen)
                /\ (r_id r ∉ r_id <$> l1).
Proof.
  revert seen. induction rows as [|x rows IH]; intros seen; simpl.
  - intros H. inversion H.
  - destruct (decide (r_id x ∈ seen)) as [Hin|Hout].
    + intros H. destruct (IH seen H) as (l1 & l2 & -> & Hs & Hl).
      exists (x :: l1), l2. split; [reflexivity|]. split; [assumption|].
      simpl. intros Hx. apply elem_of_cons in Hx as [Hx|Hx]; [|auto].
      apply Hs. rewrite Hx. assumption.
    + intros H. apply elem_of_cons in H as [->|H].
      * exists [], rows. split; [reflexivity|]. split; [assumption|].
        intros Hx. inversion Hx.
      * destruct (IH _ H) as (l1 & l2 & -> & Hs & Hl).
        exists (x :: l1), l2. split; [reflexivity|].
        split; [set_solver|].
        simpl. intros Hx. apply elem_of_cons in Hx as [Hx|Hx]; [|auto].
        apply Hs. set_solver.
Qed.

Lemma drop_duplicates_ids seen rows i :
  i ∈ r_id <$> rows -> i ∉ seen -> i ∈ r_id <$> drop_duplicates seen rows.
Proof.
  revert seen. induction rows as [|x rows IH]; intros seen; simpl.
  - intros H. inversion H.
  - intros Hi Hs. destruct (decide (r_id x ∈ seen)) as [Hin|Hout].
    + apply elem_of_cons in Hi as [->|Hi]; [contradiction|]. auto.
    + simpl. destruct (decide (i = r_id x)) as [->|Hne]; [left|].
      right. apply elem_of_cons in Hi as [Hi|Hi]; [contradiction|].
      apply IH; [assumption|]. set_solver.
Qed.

(** X6: the raw snapshot that [process_dataframe] returns has exactly the
    identifiers of the data it was given, one row for each, and the row
    kept for an identifier is the first record of the data that has it. *)
Theorem snapshot_keeps_first_occurrences (datetime64 : list (option Z) -> bool)
    (sorter : Sorter) (data : list RawRecord) (df : DataFrame) :
  process_dataframe datetime64 sorter data = Ok df ->
  (forall i, i ∈ r_id <$> df_rows df <-> i ∈ r_id <$> data)
  /\ (forall r, r ∈ df_rows df ->
        exists l1 l2, data = l1 ++ r :: l2 /\ r_id r ∉ (r_id <$> l1))
  /\ length (df_rows df) = size (list_to_set (r_id <$> data) : gset string).
Proof.
  intros Hdf. pose proof (process_dataframe_NoDup _ _ _ _ Hdf) as Hnd.
  apply process_dataframe_Ok in Hdf as (Hrows & _).
  assert (forall i, i ∈ r_id <$> df_rows df <-> i ∈ r_id <$> data) as Hids.
  { intros i. rewrite Hrows, (sort_values_perm sorter). split.
    - intros Hi. apply list_elem_of_fmap in Hi as (r & -> & Hr).
      apply list_elem_of_fmap. exists r. split; [reflexivity|].
      eapply elem_of_sublist; [exact Hr|apply drop_duplicates_sublist].
    - intros Hi. apply drop_duplicates_ids; [assumption|].
      apply not_elem_of_empty. }
  split; [exact Hids|]. split.
  - intros r Hr. rewrite Hrows, (sort_values_perm sorter) in Hr.
    destruct (drop_duplicates_first ∅ data r Hr) as (l1 & l2 & Heq & _ & Hl).
    eauto.
  - rewrite <- (length_fmap r_id), <- (size_list_to_set (C := gset string))
      by assumption.
    f_equal. apply set_eq. intros i. rewrite !elem_of_list_to_set. apply Hids.
Qed.

Lemma snapshot_keeps_first_occurrences_witness :
  exists df,
    process_dataframe datetime64_ns merge_sorter
      (let out := (collect_sorting utc sample_subreddit sample_since ∅ "new").1 in
       out ++ out) = Ok df
    /\ length (df_rows df) = 4%nat.
Proof.
  destruct (process_dataframe datetime64_ns merge_sorter
              (let out := (collect_sorting utc sample_subreddit sample_since ∅ "new").1 in
               out ++ out)) as [df|] eqn:Hdf;
    [|vm_compute in Hdf; discriminate Hdf].
  exists df. split; [reflexivity|].
  destruct (snapshot_keeps_first_occurrences _ _ _ _ Hdf) as (_ & _ & ->).
  vm_compute. reflexivity.
Defined.

(** ** The index after a pass *)

Lemma fresh_from_index ids out ids' :
  fresh_from ids out ids' ->
  ids ⊆ ids' /\ forall i, i ∈ ids' <-> i ∈ ids \/ i ∈ r_id <$> out.
Proof.
  intros (_ & _ & ->). split; [set_solver|].
  intros i. rewrite elem_of_union, elem_of_list_to_set. tauto.
Qed.

(** X7: the index only grows.  After a pass of any strategy it holds what
    it held before and, besides, exactly the identifiers of the records
    the pass has emitted. *)
Theorem index_grows_by_the_emitted_ids (tz : Z -> Z) (subreddit : Subreddit)
    (since : Z) (ids : gset string) :
  (forall method,
     let r := collect_sorting tz subreddit since ids method in
     ids ⊆ r.2 /\ forall i, i ∈ r.2 <-> i ∈ ids \/ i ∈ r_id <$> r.1)
  /\ (let r := collect_search_posts tz subreddit since ids in
      ids ⊆ r.2 /\ forall i, i ∈ r.2 <-> i ∈ ids \/ i ∈ r_id <$> r.1)
  /\ (let r := collect_flair_posts tz subreddit since ids in
      ids ⊆ r.2 /\ forall i, i ∈ r.2 <-> i ∈ ids \/ i ∈ r_id <$> r.1)
  /\ (forall now r,
        collect_monthly_paginated tz now subreddit since ids = Ok r ->
        ids ⊆ r.2 /\ forall i, i ∈ r.2 <-> i ∈ ids \/ i ∈ r_id <$> r.1).
Proof.
  split; [|split; [|split]].
  - intros method. apply fresh_from_index, collect_sorting_fresh.
  - apply fresh_from_index, search_each_fresh.
  - apply fresh_from_index, search_each_fresh.
  - intros now r Hr. apply fresh_from_index.
    eapply monthly_loop_fresh. exact Hr.
Qed.

Lemma index_grows_by_the_emitted_ids_witness :
  exists r, collect_monthly_paginated utc sample_now sample_subreddit
              sample_since {["p1"]} = Ok r
            /\ "p1" ∈ r.2.
Proof.
  destruct (collect_monthly_paginated utc sample_now sample_subreddit
              sample_since {["p1"]}) as [r|] eqn:Hr;
    [|vm_compute in Hr; discriminate Hr].
  exists r. split; [reflexivity|].
  destruct (index_grows_by_the_emitted_ids utc sample_subreddit sample_since
              {["p1"]}) as (_ & _ & _ & Hm).
  destruct (Hm sample_now r Hr) as [Hsub _]. apply Hsub.
  apply elem_of_singleton. reflexivity.
Defined.

(** ** Coverage *)




Lemma items_loop_index_grows tz verdict tag l ids :
  ids ⊆ (items_loop tz verdict tag l ids).1.2.
Proof.
  exact (proj1 (fresh_from_index _ _ _ (items_loop_fresh tz verdict tag l ids))).
Qed.

(** A listing read to its end by a loop that never breaks: every
    submission of it that the loop takes and the extractor accepts is in
    the index afterwards. *)
Lemma items_loop_complete tz verdict tag s sid t : forall l ids,
  (forall u, verdict u <> Break) ->
  (items_loop tz verdict tag l ids).2 = Ok tt ->
  Ok s ∈ l -> s_id s = Val sid -> s_created_utc s = Val t ->
  verdict t = Take ->
  (exists r, extract_submission_data tz s = Ok (Some r)) ->
  sid ∈ (items_loop tz verdict tag l ids).1.2.
Proof.
  intros l ids Hnb. revert ids.
  induction l as [|[x|e] l IH]; intros ids Hst Hin Hid Ht Hv Hacc.
  - inversion Hin.
  - simpl in *.
    destruct (s_created_utc x) as [created|] eqn:Hcx; simpl in *;
      [|discriminate Hst].
    apply elem_of_cons in Hin as [Heq|Hin].
    + injection Heq as <-. rewrite Ht in Hcx. injection Hcx as <-.
      rewrite Hv in *.
      assert (sid ∈ (collect_submission tz tag s ids).1.2) as Hsid.
      { unfold collect_submission. rewrite Hid. simpl.
        destruct (decide (sid ∈ ids)); [assumption|].
        destruct Hacc as [r ->].
        destruct (process_comments tz s) as [cs|]; simpl; [|set_solver].
        pose proof (add_comments_fresh cs ({[sid]} ∪ ids)) as Hf.
        destruct (add_comments cs ({[sid]} ∪ ids)) as [kept ids2].
        simpl in *. apply fresh_from_index in Hf as [Hsub _]. set_solver. }
      destruct (collect_submission tz tag s ids) as [[out ids1] [[]|e]];
        simpl in *; [|discriminate Hst].
      pose proof (items_loop_index_grows tz verdict tag l ids1) as Hsub.
      destruct (items_loop tz verdict tag l ids1) as [[more ids2] st2].
      simpl in *. set_solver.
    + destruct (verdict created) eqn:Hvc.
      * destruct (collect_submission tz tag x ids) as [[out ids1] [[]|e]];
          simpl in *; [|discriminate Hst].
        specialize (IH ids1).
        destruct (items_loop tz verdict tag l ids1) as [[more ids2] st2].
        simpl in *. auto.
      * auto.
      * exfalso. exact (Hnb _ Hvc).
  - simpl in Hst. discriminate Hst.
Qed.

(** X9: when a listing is read to its end without an exception, no
    acceptable submission of it is missed: in the keyword and flair
    searches, and in the sort orders other than ['new'], every submission
    of the listing that is not older than the cutoff and that the
    extractor accepts is in the index when the loop ends, either because
    it was there before or because the loop has emitted its record. *)
Theorem completed_listing_misses_nothing (tz : Z -> Z) (tag : string) (since : Z)
    (l : Listing) (ids : gset string) (s : Submission) (sid : string) (t : Z)
    (r : RawRecord) :
  Ok s ∈ l -> s_id s = Val sid -> s_created_utc s = Val t -> since <= t ->
  extract_submission_data tz s = Ok (Some r) ->
  ((search_items tz tag since l ids).2 = Ok tt ->
     sid ∈ ids \/ sid ∈ r_id <$> (search_items tz tag since l ids).1.1)
  /\ (forall method, method <> "new" ->
        (sorting_items tz method tag since l ids).2 = Ok tt ->
        sid ∈ ids \/ sid ∈ r_id <$> (sorting_items tz method tag since l ids).1.1).
Proof.
  intros Hin Hid Ht Hle Hacc. split.
  - rewrite search_items_loop. intros Hst.
    apply (fresh_from_index _ _ _ (items_loop_fresh tz _ tag l ids)).
    eapply items_loop_complete; eauto.
    + intros u. unfold search_verdict. destruct (u <? since); discriminate.
    + unfold search_verdict. destruct (Z.ltb_spec t since); [lia|reflexivity].
  - intros method Hm. rewrite sorting_items_loop. intros Hst.
    apply (fresh_from_index _ _ _ (items_loop_fresh tz _ tag l ids)).
    eapply items_loop_complete; eauto.
    + intros u. unfold sorting_verdict. destruct (u <? since); [|discriminate].
      rewrite bool_decide_eq_false_2 by assumption. discriminate.
    + unfold sorting_verdict. destruct (Z.ltb_spec t since); [lia|reflexivity].
Qed.

Lemma completed_listing_misses_nothing_witness :
  "p3" ∈ r_id <$> (search_items utc "search_late" sample_since
                     [Ok p2; Ok old_post; Ok p3] ∅).1.1.
Proof.
  destruct (extract_submission_data utc p3) as [[r|]|] eqn:Hr;
    [|vm_compute in Hr; discriminate Hr..].
  destruct (completed_listing_misses_nothing utc "search_late" sample_since
              [Ok p2; Ok old_post; Ok p3] ∅ p3 "p3" (sample_now - 60 * 86400) r)
    as [Hsearch _].
  - right. right. left.
  - reflexivity.
  - reflexivity.
  - vm_compute. discriminate.
  - exact Hr.
  - destruct Hsearch as [Hin|Hin]; [vm_compute; reflexivity| |exact Hin].
    exfalso. revert Hin. apply not_elem_of_empty.
Defined.

(** ** The harvest of a fully expanded tree *)

Lemma harvested_complete tz s i l c r0 :
  s_id s = Val i -> c ∈ l -> extract_comment_data tz c s = Ok (Some r0) ->
  set_source ("comment_in_" +:+ i) r0 ∈ harvested tz s l.
Proof.
  intros Hid Hc He. unfold harvested.
  induction l as [|x l IH]; [inversion Hc|]. simpl.
  pose proof (extract_comments_ok tz s i l Hid) as Hok.
  apply elem_of_cons in Hc as [<-|Hc].
  - rewrite He, Hid. simpl. destruct (extract_comments tz s l). left.
  - destruct (extract_comment_data_total tz x s) as [[r|] ->]; [|auto].
    rewrite Hid. simpl. destruct (extract_comments tz s l). simpl in *.
    right. auto.
Qed.

Lemma harvested_length tz s l : (length (harvested tz s l) <= length l)%nat.
Proof.
  unfold harvested. induction l as [|c l IH]; simpl; [lia|].
  destruct (extract_comment_data tz c s) as [[r|]|e]; simpl; [|lia|lia].
  destruct (read (s_id s)); simpl; [|lia].
  destruct (extract_comments tz s l). simpl in *. lia.
Qed.

(** X10: when the reply tree of a submission expands, [process_comments]
    returns one record for each reply that the extractor accepts and no
    other: at most as many records as the tree has replies, each referring
    to the submission by [parent_submission_id] and by the copy of its
    title, and tagged [comment_in_<id>]. *)
Theorem harvest_is_the_accepted_replies (tz : Z -> Z) (s : Submission)
    (i title : string) (comments : CommentForest) (all_comments : list Comment) :
  s_id s = Val i -> s_title s = Val title ->
  s_comments s = Val (Some comments) ->
  (cf_replace_more comments ;;; cf_list comments) = Ok all_comments ->
  exists l,
    process_comments tz s = Ok l
    /\ (length l <= length all_comments)%nat
    /\ (forall r, r ∈ l <->
          exists c r0, c ∈ all_comments
                       /\ extract_comment_data tz c s = Ok (Some r0)
                       /\ r = set_source ("comment_in_" +:+ i) r0)
    /\ Forall (fun r => r_type r = "comment"
                        /\ r_parent_submission_id r = Some i
                        /\ r_parent_submission_title r = Some title) l.
Proof.
  intros Hid Ht Hc He. exists (harvested tz s all_comments).
  split; [eapply process_comments_expanded; eassumption|].
  split; [apply harvested_length|]. split.
  - intros r. split.
    + intros Hr. eapply extract_comments_from; eassumption.
    + intros (c & r0 & Hin & Hex & ->). eapply harvested_complete; eassumption.
  - apply Forall_forall. intros r Hr.
    destruct (harvested_fields tz s i title all_comments r Hid Ht Hr)
      as (H1 & H2 & H3 & _). auto.
Qed.

Lemma harvest_is_the_accepted_replies_witness :
  exists l, process_comments utc p1 = Ok l /\ (r_id <$> l) = ["c1"].
Proof.
  destruct (harvest_is_the_accepted_replies utc p1 "p1" "Late order" loaded_tree
              [ reply "c1" "Same here, an hour late" (sample_now - 3000);
                reply "c2" "ok" (sample_now - 2000);
                reply "c3" "[removed]" (sample_now - 1000) ]
              eq_refl eq_refl eq_refl eq_refl) as (l & Hl & _).
  exists l. split; [exact Hl|].
  vm_compute in Hl. injection Hl as <-. reflexivity.
Defined.

(** ** One [try] for the whole enumeration *)

Lemma items_loop_raises tz verdict tag pre x post ids :
  (forall u, verdict u <> Break) -> item_raises verdict x ->
  exists e, (items_loop tz verdict tag (pre ++ x :: post) ids).2 = Raise e.
Proof.
  intros Hnb Hx. revert ids. induction pre as [|[s|e'] pre IH]; intros ids; simpl.
  - destruct x as [bad|e]; [|eauto]. simpl in Hx.
    destruct (s_created_utc bad) as [t|]; simpl; [|eauto].
    destruct Hx as [-> Hid]. unfold collect_submission. rewrite Hid.
    simpl. eauto.
  - destruct (read (s_created_utc s)) as [created|]; simpl; [|eauto].
    destruct (verdict created) eqn:Hv; [|apply IH|exfalso; exact (Hnb _ Hv)].
    destruct (collect_submission tz tag s ids) as [[out ids1] [[]|e']];
      simpl; [|eauto].
    destruct (IH ids1) as [e He].
    destruct (items_loop tz verdict tag (pre ++ x :: post) ids1) as [[? ?] ?].
    simpl in *. eauto.
  - eauto.
Qed.

(** X11: in [collect_sorting] one [try] encloses the enumeration of the
    time filters, so an exception raised under one time filter ends the
    pass: for the orders ['top'] and ['controversial'] the strategy returns
    what was emitted up to the exception, and the time filters that follow
    are not enumerated. *)
Theorem sorting_abandons_later_time_filters (tz : Z -> Z) (method : string)
    (since : Z) (fetch : option string -> Listing)
    (time_filter : option string) (later : list (option string))
    (pre post : Listing) (x : exc Submission) (ids : gset string) :
  method <> "new" ->
  fetch time_filter = pre ++ x :: post ->
  item_raises (sorting_verdict method since) x ->
  (sorting_filters tz method since fetch (time_filter :: later) ids).1
  = (sorting_items tz method (source_name method time_filter) since pre ids).1
  /\ (forall subreddit,
        getattr_listing subreddit method = Ok fetch ->
        time_filters method = time_filter :: later ->
        collect_sorting tz subreddit since ids method
        = (sorting_items tz method (source_name method time_filter) since pre ids).1).
Proof.
  intros Hm Hl Hx.
  assert (forall u, sorting_verdict method since u <> Break) as Hnb.
  { intros u. unfold sorting_verdict. destruct (u <? since); [|discriminate].
    rewrite bool_decide_eq_false_2 by assumption. discriminate. }
  assert ((sorting_filters tz method since fetch (time_filter :: later) ids).1
          = (sorting_items tz method (source_name method time_filter) since
               pre ids).1) as Hfilters.
  { cbn [sorting_filters]. rewrite Hl, !sorting_items_loop.
    pose proof (items_loop_stops tz (sorting_verdict method since)
                  (source_name method time_filter) pre x post ids Hx) as Hstop.
    destruct (items_loop_raises tz (sorting_verdict method since)
                (source_name method time_filter) pre x post ids Hnb Hx)
      as [e He].
    destruct (items_loop tz _ _ (pre ++ x :: post) ids) as [[out ids1] st].
    simpl in He. subst st. exact Hstop. }
  split; [exact Hfilters|].
  intros subreddit Hfetch Htf. unfold collect_sorting.
  rewrite Hfetch, Htf.
  destruct (sorting_filters tz method since fetch (time_filter :: later) ids)
    as [[data ids'] st].
  exact Hfilters.
Qed.

Lemma sorting_abandons_later_time_filters_witness :
  collect_sorting utc
    {| sub_new := []; sub_hot := [];
       sub_top := fun tf => if bool_decide (tf = "all")
                            then [Ok p1; Raise RequestError; Ok p2]
                            else [Ok p3];
       sub_controversial := fun _ => [];
       sub_search := fun _ _ => [] |}
    sample_since ∅ "top"
  = (sorting_items utc "top" "top_all" sample_since [Ok p1] ∅).1.
Proof.
  match goal with |- collect_sorting _ ?sub _ _ _ = _ =>
    destruct (sorting_abandons_later_time_filters utc "top" sample_since
                (fun tf => sub_top sub (default "all" tf)) (Some "all")
                [Some "year"; Some "month"; Some "week"]
                [Ok p1] [Ok p2] (Raise RequestError) ∅) as [_ H];
      [discriminate|reflexivity|exact I|];
    apply (H sub); reflexivity
  end.
Defined.

(** * The configuration and the controller *)

(** ** References to the environment *)

Lemma endswith_app p a : endswith p (a +:+ p) = true.
Proof.
  induction a as [|c a IH].
  - change ("" +:+ p) with p.
    destruct p; unfold endswith; fold endswith;
      rewrite bool_decide_eq_true_2 by reflexivity; reflexivity.
  - change (String c a +:+ p) with (String c (a +:+ p)).
    unfold endswith; fold endswith. rewrite IH. apply orb_true_r.
Qed.

Lemma substring_app v w : String.substring 0 (String.length v) (v +:+ w) = v.
Proof. induction v as [|c v IH]; simpl; [destruct w; reflexivity|congruence]. Qed.

Lemma length_append a b :
  String.length (a +:+ b) = (String.length a + String.length b)%nat.
Proof. induction a as [|c a IH]; simpl; [reflexivity|congruence]. Qed.

(** Writing [${NAME}] and reading the name back. *)
Lemma placeholder_reference v : placeholder (YStr ("${" +:+ v +:+ "}")) = Some v.
Proof.
  unfold placeholder.
  replace (startswith "${" ("${" +:+ v +:+ "}")) with true.
  2:{ unfold startswith. simpl. destruct (v +:+ "}"); reflexivity. }
  replace ("${" +:+ v +:+ "}") with (("${" +:+ v) +:+ "}") at 1 by reflexivity.
  rewrite endswith_app. simpl. f_equal. unfold slice_2_m1.
  change ("${" +:+ v +:+ "}") with (String "$" (String "{" (v +:+ "}"))).
  cbn [String.length String.substring]. rewrite length_append. simpl.
  replace (String.length v + 1 - 1)%nat with (String.length v) by lia.
  apply substring_app.
Qed.

Lemma dict_set_middle key value done x rest :
  key ∉ done.*1 ->
  dict_set key value (done ++ (key, x) :: rest) = done ++ (key, value) :: rest.
Proof.
  induction done as [|[k y] done IH]; simpl; intros Hk.
  - rewrite bool_decide_eq_true_2 by reflexivity. reflexivity.
  - rewrite bool_decide_eq_false_2 by set_solver. f_equal. apply IH.
    set_solver.
Qed.

(** The loop run on the items that remain, the items before them having
    been dealt with. *)
Lemma resolve_items_spec environ : forall items done,
  NoDup (done ++ items).*1 ->
  match resolve_items environ items (done ++ items) with
  | inr resolved =>
      exists items', resolved = done ++ items'
                     /\ Forall2 (resolved_to environ) items items'
  | inl (ValueError v) =>
      environ !! v = None
      /\ exists pre kv post,
           items = pre ++ kv :: post /\ placeholder kv.2 = Some v
           /\ Forall (resolvable environ) pre
  end.
Proof.
  induction items as [|[key value] rest IH]; intros done Hnd; simpl.
  - exists []. split; [reflexivity|constructor].
  - assert ((key ∉ done.*1) /\ NoDup ((done ++ [(key, value)]) ++ rest).*1)
      as [Hkey Hnd'].
    { rewrite <- app_assoc. split; [|exact Hnd].
      rewrite fmap_app in Hnd. apply NoDup_app in Hnd as (_ & Hdisj & _).
      intros Hk. apply (Hdisj key Hk). left. }
    assert (forall value',
              resolved_to environ (key, value) (key, value') ->
              NoDup ((done ++ [(key, value')]) ++ rest).*1 ->
              match resolve_items environ rest ((done ++ [(key, value')]) ++ rest) with
              | inr resolved =>
                  exists items', resolved = done ++ items'
                    /\ Forall2 (resolved_to environ) ((key, value) :: rest) items'
              | inl (ValueError v) =>
                  environ !! v = None
                  /\ exists pre kv post,
                       (key, value) :: rest = pre ++ kv :: post
                       /\ placeholder kv.2 = Some v
                       /\ Forall (resolvable environ) pre
              end) as Hstep.
    { intros value' Hres Hnd''. specialize (IH (done ++ [(key, value')]) Hnd'').
      destruct (resolve_items environ rest ((done ++ [(key, value')]) ++ rest))
        as [[v]|resolved].
      - destruct IH as (Hv & pre & kv & post & -> & Hp & Hpre).
        split; [assumption|].
        exists ((key, value) :: pre), kv, post. split; [reflexivity|].
        split; [assumption|]. constructor; [|assumption].
        destruct Hres as [_ Hres]. unfold resolvable. simpl in *.
        destruct (placeholder value); [|exact I].
        destruct Hres as (v' & -> & _). eauto.
      - destruct IH as (items' & -> & Hitems).
        exists ((key, value') :: items'). rewrite <- app_assoc.
        split; [reflexivity|]. constructor; assumption. }
    assert (placeholder value = None ->
            resolved_to environ (key, value) (key, value)) as Hsame.
    { intros Hp. split; [reflexivity|]. simpl. rewrite Hp. reflexivity. }
    assert (forall x, done ++ (key, x) :: rest = (done ++ [(key, x)]) ++ rest)
      as Hassoc by (intros x; rewrite <- app_assoc; reflexivity).
    destruct value as [s| |];
      try (rewrite Hassoc; apply Hstep; [apply Hsame; reflexivity|assumption]).
    destruct (startswith "${" s && endswith "}" s) eqn:Href.
    + destruct (environ !! slice_2_m1 s) as [v|] eqn:Hv.
      * rewrite dict_set_middle by assumption. rewrite Hassoc.
        apply Hstep.
        -- split; [reflexivity|]. simpl. rewrite Href. eauto.
        -- rewrite !fmap_app in *. exact Hnd'.
      * split; [assumption|].
        exists [], (key, YStr s), rest. split; [reflexivity|].
        split; [simpl; rewrite Href; reflexivity|constructor].
    + rewrite Hassoc. apply Hstep; [|assumption].
      apply Hsame. simpl. rewrite Href. reflexivity.
Qed.

(** X12: [load_config] replaces every value of the [reddit_api] section
    written [${NAME}] by the value of [NAME] in the environment, and leaves
    the other values, the keys and their order as they are; the rest of
    the configuration is untouched.  It fails exactly when a reference
    names a variable that is not set, with the first such variable in the
    order of the section. *)
Theorem load_config_resolves_references (environ : gmap string string)
    (config : Config) (reddit_config : Dict) :
  reddit_api config = Some reddit_config ->
  NoDup reddit_config.*1 ->
  match load_config environ config with
  | inr config' =>
      apps config' = apps config
      /\ exists resolved,
           reddit_api config' = Some resolved
           /\ Forall2 (resolved_to environ) reddit_config resolved
  | inl (ValueError env_var) =>
      environ !! env_var = None
      /\ exists pre kv post,
           reddit_config = pre ++ kv :: post
           /\ placeholder kv.2 = Some env_var
           /\ Forall (resolvable environ) pre
  end.
Proof.
  intros Hsection Hnd. unfold load_config. rewrite Hsection.
  pose proof (resolve_items_spec environ reddit_config [] Hnd) as Hspec.
  cbn [app] in Hspec.
  destruct (resolve_items environ reddit_config reddit_config) as [[v]|resolved].
  - exact Hspec.
  - destruct Hspec as (items' & -> & Hitems). cbn [app].
    split; [reflexivity|]. exists items'. split; [reflexivity|assumption].
Qed.

Lemma load_config_resolves_references_witness :
  reddit_api {| reddit_api := Some sample_reddit_api; apps := None |}
  = Some sample_reddit_api
  /\ NoDup sample_reddit_api.*1
  /\ match load_config (delete "REDDIT_CLIENT_SECRET" sample_environ)
             {| reddit_api := Some sample_reddit_api; apps := None |} with
     | inr config' =>
         apps config' = None
         /\ exists resolved,
              reddit_api config' = Some resolved
              /\ Forall2 (resolved_to (delete "REDDIT_CLIENT_SECRET" sample_environ))
                   sample_reddit_api resolved
     | inl (ValueError env_var) =>
         delete "REDDIT_CLIENT_SECRET" sample_environ !! env_var = None
         /\ exists pre kv post,
              sample_reddit_api = pre ++ kv :: post
              /\ placeholder kv.2 = Some env_var
              /\ Forall (resolvable (delete "REDDIT_CLIENT_SECRET" sample_environ)) pre
     end.
Proof.
  assert (NoDup sample_reddit_api.*1) as Hnd by compute_done.
  split; [reflexivity|]. split; [exact Hnd|].
  exact (load_config_resolves_references
           (delete "REDDIT_CLIENT_SECRET" sample_environ)
           {| reddit_api := Some sample_reddit_api; apps := None |}
           sample_reddit_api eq_refl Hnd).
Defined.

(** ** The controller *)

Section Controller.

Variable app_store_main : string -> string -> string -> exc unit.
Variable play_store_main : string -> string -> string -> exc unit.
Variable reddit_main : string -> string -> string -> exc unit.
Variable combine_main : string -> bool.

Ltac controller_cases :=
  repeat match goal with
         | |- context [?m !! ?k] =>
             match type of m with
             | gmap string string =>
                 let H := fresh "Hkey" in destruct (m !! k) eqn:H
             end
         | |- context [app_store_main ?a ?b ?c] =>
             let H := fresh "Happ" in destruct (app_store_main a b c) as [[]|?] eqn:H
         | |- context [play_store_main ?a ?b ?c] =>
             let H := fresh "Hplay" in destruct (play_store_main a b c) as [[]|?] eqn:H
         | |- context [reddit_main ?a ?b ?c] =>
             let H := fresh "Hreddit" in destruct (reddit_main a b c) as [[]|?] eqn:H
         end.

(** X13: [process_app] raises only [KeyError], only when the entry lacks
    [app_name] or [app_path], and then before any collector has run.
    Otherwise it returns a boolean whatever the collectors do, and the
    boolean is [True] exactly when the three identifiers are configured
    and the three collectors return: the boolean of [combine_main] has no
    part in it. *)
Theorem process_app_reports_the_collectors (app_config : gmap string string) :
  match Pipeline.process_app app_store_main play_store_main reddit_main
          combine_main app_config with
  | (steps, Raise e) =>
      e = KeyError /\ steps = []
      /\ (app_config !! "app_name" = None \/ app_config !! "app_path" = None)
  | (steps, Ok result) =>
      named app_config
      /\ (result = true <->
          exists app_name app_path app_id play_id subreddit_name,
            app_config !! "app_name" = Some app_name
            /\ app_config !! "app_path" = Some app_path
            /\ app_config !! "app_store_id" = Some app_id
            /\ app_config !! "play_store_id" = Some play_id
            /\ app_config !! "subreddit_name" = Some subreddit_name
            /\ app_store_main app_name app_path app_id = Ok tt
            /\ play_store_main play_id app_path app_name = Ok tt
            /\ reddit_main app_name subreddit_name app_path = Ok tt)
  end.
Proof.
  unfold Pipeline.process_app, Pipeline.process_app_body, Pipeline.getitem, named.
  controller_cases; cbn.
  all: try naive_solver.
  all: split; [split; eauto|]; split; [discriminate|].
  all: intros (app_name & app_path & app_id & play_id & subreddit_name & Hn);
    destruct Hn as (? & ? & ? & ? & ? & ? & ? & ?); simplify_eq; congruence.
Qed.

(** X14: the collectors of an application run in the order App Store,
    Play Store, Reddit, combination, and the first that raises (or the
    first identifier that is missing) ends the application: what runs is
    an initial part of that order, the combination runs exactly when the
    application is reported a success, and a missing identifier keeps its
    collector and all later ones from running. *)
Theorem process_app_stops_at_the_first_failure
    (app_config : gmap string string) (app_name app_path : string) :
  app_config !! "app_name" = Some app_name ->
  app_config !! "app_path" = Some app_path ->
  exists steps result,
    Pipeline.process_app app_store_main play_store_main reddit_main
      combine_main app_config = (steps, Ok result)
    /\ steps `prefix_of` [Pipeline.AppStore app_name; Pipeline.PlayStore app_name;
                          Pipeline.Reddit app_name; Pipeline.Combine app_path]
    /\ (result = true <-> Pipeline.Combine app_path ∈ steps)
    /\ (app_config !! "app_store_id" = None -> steps = [])
    /\ (app_config !! "play_store_id" = None ->
        Pipeline.PlayStore app_name ∉ steps)
    /\ (app_config !! "subreddit_name" = None ->
        Pipeline.Reddit app_name ∉ steps).
Proof.
  intros Hname Hpath.
  unfold Pipeline.process_app, Pipeline.process_app_body, Pipeline.getitem.
  rewrite Hname, Hpath.
  controller_cases; cbn; eexists _, _; (split; [reflexivity|]).
  all: split; [by (eexists; reflexivity)|].
  all: split; [split; [discriminate || set_solver | set_solver]|].
  all: repeat split; intros; try discriminate; try reflexivity; set_solver.
Qed.

Lemma process_app_named (app_config : gmap string string) :
  named app_config ->
  exists steps result,
    Pipeline.process_app app_store_main play_store_main reddit_main
      combine_main app_config = (steps, Ok result).
Proof.
  intros [[app_name Hname] [app_path Hpath]].
  unfold Pipeline.process_app, Pipeline.getitem at 1 2. rewrite Hname, Hpath.
  destruct (Pipeline.process_app_body _ _ _ _ _ _ _) as [steps [[]|e]]; eauto.
Qed.

Lemma process_app_unnamed (app_config : gmap string string) :
  app_config !! "app_name" = None \/ app_config !! "app_path" = None ->
  Pipeline.process_app app_store_main play_store_main reddit_main
    combine_main app_config = ([], Raise KeyError).
Proof.
  unfold Pipeline.process_app, Pipeline.getitem at 1 2.
  intros [Hname|Hpath].
  - rewrite Hname. reflexivity.
  - rewrite Hpath. destruct (app_config !! "app_name"); reflexivity.
Qed.

(** X15: when every entry of [apps] has its two names, the loop of [main]
    ends normally with one result per application, in the order of the
    configuration, named after the application, and equal to what
    [process_app] returns for that application: a failure of one
    application takes nothing from the others. *)
Theorem every_named_app_gets_its_result (apps : list (gmap string string)) :
  Forall named apps ->
  exists steps results,
    Pipeline.process_apps app_store_main play_store_main reddit_main
      combine_main apps = (steps, results, Ok tt)
    /\ Forall2 (fun app_config r =>
                  app_config !! "app_name" = Some r.1
                  /\ (Pipeline.process_app app_store_main play_store_main
                        reddit_main combine_main app_config).2 = Ok r.2)
         apps results
    /\ steps = concat ((fun app_config =>
                          (Pipeline.process_app app_store_main play_store_main
                             reddit_main combine_main app_config).1) <$> apps).
Proof.
  induction 1 as [|app_config apps Hnamed _ IH]; cbn [Pipeline.process_apps].
  - exists [], []. split; [reflexivity|]. split; [constructor|reflexivity].
  - destruct IH as (steps' & results & -> & Hresults & ->).
    destruct (process_app_named app_config Hnamed) as (steps & result & Hrun).
    destruct Hnamed as [[app_name Hname] _].
    rewrite Hrun. unfold Pipeline.getitem. rewrite Hname.
    eexists _, _. split; [reflexivity|]. split.
    + constructor; [|assumption]. split; [assumption|]. rewrite Hrun. reflexivity.
    + rewrite fmap_cons. cbn [concat]. rewrite Hrun. reflexivity.
Qed.

(** X16: an entry of [apps] without [app_name] or [app_path] ends the
    loop of [main] with [KeyError]: what has run is what the entries
    before it ran, no collector runs for it, and the entries after it are
    never processed. *)
Theorem unnamed_app_aborts_the_batch (pre post : list (gmap string string))
    (app_config : gmap string string) :
  Forall named pre ->
  app_config !! "app_name" = None \/ app_config !! "app_path" = None ->
  Pipeline.process_apps app_store_main play_store_main reddit_main
    combine_main (pre ++ app_config :: post)
  = ((Pipeline.process_apps app_store_main play_store_main reddit_main
        combine_main pre).1, Raise KeyError).
Proof.
  intros Hpre Hmissing.
  induction Hpre as [|c pre Hnamed _ IH]; cbn [app Pipeline.process_apps].
  - rewrite (process_app_unnamed app_config Hmissing). reflexivity.
  - destruct (process_app_named c Hnamed) as (steps & result & ->).
    destruct Hnamed as [[app_name Hname] _].
    unfold Pipeline.getitem. rewrite Hname. rewrite IH.
    destruct (Pipeline.process_apps _ _ _ _ pre) as [[steps' results] st].
    reflexivity.
Qed.

End Controller.

Lemma process_app_stops_at_the_first_failure_witness :
  doordash !! "app_name" = Some "DoorDash"
  /\ doordash !! "app_path" = Some "doordash"
  /\ exists steps result,
       Pipeline.process_app returns (fails_for "DoorDash") returns (fun _ => true)
         doordash = (steps, Ok result)
       /\ steps `prefix_of` [Pipeline.AppStore "DoorDash"; Pipeline.PlayStore "DoorDash";
                             Pipeline.Reddit "DoorDash"; Pipeline.Combine "doordash"]
       /\ (result = true <-> Pipeline.Combine "doordash" ∈ steps)
       /\ (doordash !! "app_store_id" = None -> steps = [])
       /\ (doordash !! "play_store_id" = None ->
           Pipeline.PlayStore "DoorDash" ∉ steps)
       /\ (doordash !! "subreddit_name" = None ->
           Pipeline.Reddit "DoorDash" ∉ steps).
Proof.
  split; [reflexivity|]. split; [reflexivity|].
  apply (process_app_stops_at_the_first_failure returns (fails_for "DoorDash")
           returns (fun _ => true) doordash "DoorDash" "doordash");
    reflexivity.
Defined.

Lemma every_named_app_gets_its_result_witness :
  Forall named [doordash; grubhub]
  /\ Pipeline.process_apps returns returns returns (fun _ => false)
       [doordash; grubhub]
     = ([Pipeline.AppStore "DoorDash"; Pipeline.PlayStore "DoorDash";
         Pipeline.Reddit "DoorDash"; Pipeline.Combine "doordash";
         Pipeline.AppStore "GrubHub"; Pipeline.PlayStore "GrubHub"],
        [("DoorDash", true); ("GrubHub", false)], Ok tt).
Proof.
  assert (Forall named [doordash; grubhub]) as Hnamed
    by (repeat constructor; eexists; reflexivity).
  split; [exact Hnamed|].
  destruct (every_named_app_gets_its_result returns returns returns
              (fun _ => false) [doordash; grubhub] Hnamed)
    as (steps & results & -> & Hresults & ->).
  apply Forall2_cons_inv_l in Hresults as ([n1 b1] & results1 & [Hn1 Hb1] & Hresults & ->).
  apply Forall2_cons_inv_l in Hresults as ([n2 b2] & results2 & [Hn2 Hb2] & Hresults & ->).
  apply Forall2_nil_inv_l in Hresults as ->.
  vm_compute in Hn1, Hb1, Hn2, Hb2.
  injection Hn1 as <-. injection Hb1 as <-. injection Hn2 as <-. injection Hb2 as <-.
  reflexivity.
Defined.

Lemma unnamed_app_aborts_the_batch_witness :
  Pipeline.process_apps returns returns returns (fun _ => true)
    [doordash; unnamed; grubhub]
  = ([Pipeline.AppStore "DoorDash"; Pipeline.PlayStore "DoorDash";
      Pipeline.Reddit "DoorDash"; Pipeline.Combine "doordash"],
     [("DoorDash", true)], Raise KeyError).
Proof.
  change [doordash; unnamed; grubhub] with ([doordash] ++ unnamed :: [grubhub]).
  rewrite (unnamed_app_aborts_the_batch returns returns returns (fun _ => true)
             [doordash] [grubhub] unnamed).
  - reflexivity.
  - repeat constructor; eexists; reflexivity.
  - left. reflexivity.
Defined.
